(** * Echo Image Viewer: path sandbox, edit pipeline, handlers, sessions

  A shallow embedding of [backend/main.py] (the sandbox resolver, the
  file kinds, the breadcrumbs, the image handlers and the authentication
  middleware), of [backend/image_processor.py] (the edit pipeline and the
  display path) and of the session store of [backend/auth.py], with the
  properties proved about them.

  Strings are byte strings; a path is what [pathlib.PurePosixPath] keeps
  of it (a root and the list of its components).  The file system is a
  finite map from places to file contents together with the trace of the
  calls made on it; what a path resolves to, which place it denotes and
  whether the operating system refuses a call are the platform's to say,
  and every call that can raise in Python can raise here. *)

From Stdlib Require Import ZArith Ascii String List Lia.
From Stdlib Require Import Floats.SpecFloat.
From stdpp Require Import base tactics option list strings gmap pretty.

Local Open Scope string_scope.
Local Open Scope Z_scope.

(** ** Python strings *)

Module Str.

Definition slash : ascii := "/"%char.

(** [s.split("/")] *)
Fixpoint split_slash (s : string) : list string :=
  match s with
  | EmptyString => [EmptyString]
  | String c s' =>
      if Ascii.eqb c slash then EmptyString :: split_slash s'
      else match split_slash s' with
           | seg :: rest => String c seg :: rest
           | [] => [String c EmptyString]
           end
  end.

(** ["/".join(l)] *)
Fixpoint join_slash (l : list string) : string :=
  match l with
  | [] => EmptyString
  | [x] => x
  | x :: rest => x +:+ String slash (join_slash rest)
  end.

(** [s.lstrip("/")] : every leading slash goes. *)
Fixpoint lstrip_slash (s : string) : string :=
  match s with
  | String c s' => if Ascii.eqb c slash then lstrip_slash s' else s
  | EmptyString => EmptyString
  end.

(** [s.startswith("/")] *)
Definition starts_with_slash (s : string) : bool :=
  match s with
  | String c _ => Ascii.eqb c slash
  | EmptyString => false
  end.

(** Truth value of a string: [bool(s)]. *)
Definition truthy (s : string) : bool :=
  match s with
  | EmptyString => false
  | _ => true
  end.

(** [c in s] *)
Fixpoint contains (c : ascii) (s : string) : bool :=
  match s with
  | EmptyString => false
  | String d s' => Ascii.eqb c d || contains c s'
  end.

(** ASCII [s.lower()]. *)
Definition lower_ascii (c : ascii) : ascii :=
  let n := nat_of_ascii c in
  if (Nat.leb 65 n && Nat.leb n 90)%bool then ascii_of_nat (n + 32) else c.

Fixpoint lower (s : string) : string :=
  match s with
  | EmptyString => EmptyString
  | String c s' => String (lower_ascii c) (lower s')
  end.

(** [s.rfind(".")], as an offset from the start; [None] is Python's -1. *)
Fixpoint rfind_dot (s : string) : option nat :=
  match s with
  | EmptyString => None
  | String c s' =>
      match rfind_dot s' with
      | Some i => Some (S i)
      | None => if Ascii.eqb c "."%char then Some 0%nat else None
      end
  end.

(** [s[:i]] and [s[i:]] *)
Fixpoint take (i : nat) (s : string) : string :=
  match i, s with
  | S i', String c s' => String c (take i' s')
  | _, _ => EmptyString
  end.

Fixpoint drop (i : nat) (s : string) : string :=
  match i, s with
  | S i', String _ s' => drop i' s'
  | _, _ => s
  end.

End Str.

(** ** [pathlib] on POSIX *)

Module Pathlib.

(** What a [PurePosixPath] keeps of the string it was made from: the
    root (empty, one slash or two) and the components after it. *)
Record PurePath : Type := MkPath { root : string; tail : list string }.

#[global] Instance PurePath_eq_dec : EqDecision PurePath.
Proof. solve_decision. Defined.

#[global] Instance PurePath_countable : Countable PurePath.
Proof.
  refine (inj_countable' (fun p => (root p, tail p))
                         (fun '(r, t) => MkPath r t) _).
  by intros [].
Defined.

(** [posixpath.splitroot]: two leading slashes are kept as a root of
    their own, three or more collapse to one. *)
Definition splitroot (s : string) : string * string :=
  match s with
  | String c1 s1 =>
      if Ascii.eqb c1 Str.slash then
        match s1 with
        | String c2 s2 =>
            if Ascii.eqb c2 Str.slash then
              if Str.starts_with_slash s2 then ("/", s1) else ("//", s2)
            else ("/", s1)
        | EmptyString => ("/", s1)
        end
      else ("", s)
  | EmptyString => ("", s)
  end.

(** A component is kept when it is neither empty nor a single dot. *)
Definition keep_component (x : string) : bool :=
  negb (String.eqb x "") && negb (String.eqb x ".").

(** [Path(s)] *)
Definition parse (s : string) : PurePath :=
  let '(r, rel) := splitroot s in
  MkPath r (filter (fun x => keep_component x = true) (Str.split_slash rel)).

(** [str(p)], which is also [p.as_posix()] on POSIX. *)
Definition as_posix (p : PurePath) : string :=
  match root p, tail p with
  | EmptyString, [] => "."
  | r, t => r +:+ Str.join_slash t
  end.

(** [p / s]: an absolute right operand replaces the left one. *)
Definition joinpath (p : PurePath) (s : string) : PurePath :=
  let q := parse s in
  if Str.truthy (root q) then q else MkPath (root p) (tail p ++ tail q).

(** [p.parent] *)
Definition parent (p : PurePath) : PurePath :=
  MkPath (root p) (removelast (tail p)).

(** [p.name] *)
Definition name (p : PurePath) : string := List.last (tail p) "".

(** [p.suffix]: from the last dot of the name, unless that dot opens or
    closes the name. *)
Definition suffix (p : PurePath) : string :=
  let n := name p in
  match Str.rfind_dot n with
  | Some i =>
      if (Nat.ltb 0 i && Nat.ltb i (String.length n - 1))%bool
      then Str.drop i n else ""
  | None => ""
  end.

(** [p.stem] *)
Definition stem (p : PurePath) : string :=
  let n := name p in
  match Str.rfind_dot n with
  | Some i =>
      if (Nat.ltb 0 i && Nat.ltb i (String.length n - 1))%bool
      then Str.take i n else n
  | None => n
  end.

(** [p.is_relative_to(other)]: same root, and the components of [other]
    open those of [p]. *)
Fixpoint is_prefix (l1 l2 : list string) : bool :=
  match l1, l2 with
  | [], _ => true
  | x :: l1', y :: l2' => String.eqb x y && is_prefix l1' l2'
  | _ :: _, [] => false
  end.

Definition is_relative_to (p other : PurePath) : bool :=
  String.eqb (root other) (root p) && is_prefix (tail other) (tail p).

(** [p.relative_to(other)]; [None] stands for the [ValueError]. *)
Definition relative_to (p other : PurePath) : option PurePath :=
  if is_relative_to p other
  then Some (MkPath "" (List.skipn (List.length (tail other)) (tail p)))
  else None.

(** [p] is [other] or lies below it. *)
Definition within (other p : PurePath) : Prop :=
  exists rest, p = MkPath (root other) (tail other ++ rest).

End Pathlib.

(** ** Python values, exceptions and the file system *)

Module Py.

(** The JSON values of an operation record that the model covers: null,
    integers and strings.  Floats, booleans, arrays and objects are left
    out. *)
Inductive value : Type :=
| VNone
| VInt (n : Z)
| VStr (s : string).

#[global] Instance value_eq_dec : EqDecision value.
Proof. solve_decision. Defined.

(** [str(v)], as an f-string formats it. *)
Definition str (v : value) : string :=
  match v with
  | VNone => "None"
  | VInt n => pretty n
  | VStr s => s
  end.

(** [bool(v)] *)
Definition truthy (v : value) : bool :=
  match v with
  | VNone => false
  | VInt n => negb (n =? 0)
  | VStr s => Str.truthy s
  end.

(** [d.get(k)] and [d.get(k, default)] on a dict with string keys. *)
Definition get (d : gmap string value) (k : string) : value :=
  default VNone (d !! k).

Definition get_or (d : gmap string value) (k : string) (dflt : value) : value :=
  default dflt (d !! k).

(** The exceptions that reach the caller.  [ValueError] carries its
    message; the request handler turns it into a 400, and every other
    exception into a 500.  [OSError] stands for its subclasses too. *)
Inductive exn : Type :=
| ValueError (msg : string)
| TypeError
| OverflowError
| MemoryError
| ZeroDivisionError
| OSError
| RuntimeError.

#[global] Instance exn_eq_dec : EqDecision exn.
Proof. solve_decision. Defined.

(** A computation that returns or raises. *)
Definition res (E A : Type) : Type := E + A.

Definition ret {E A} (a : A) : res E A := inr a.
Definition raise {E A} (e : E) : res E A := inl e.
Definition bind {E A B} (m : res E A) (k : A -> res E B) : res E B :=
  match m with
  | inl e => inl e
  | inr a => k a
  end.

End Py.

Module World.
Import Pathlib.

Definition content : Type := list Byte.byte.

(** The calls made on the file system, oldest first, each with the path
    as the program spelled it. *)
Inductive event : Type :=
| Resolve (p : PurePath)
| Stat (p : PurePath)
| OpenRead (p : PurePath)
| OpenWrite (p : PurePath)
| Remove (p : PurePath).

#[global] Instance event_eq_dec : EqDecision event.
Proof. solve_decision. Defined.

(** What the operating system makes of a path handed to [stat] or
    [open]: the place of a file that is there or can be created there
    (links and [..] followed, so that two spellings of one file give one
    place, and a dangling link gives the place it points to); a
    directory; nothing, in a way [exists()] takes for absence (a missing
    directory on the way, a NUL byte), opening then raising [e]; or a
    failure that [exists()] lets through as [OSError] (a name longer than
    the file system takes, a directory that may not be searched). *)
Inductive located : Type :=
| File (k : PurePath)
| Directory
| Missing (e : Py.exn)
| Failing.

#[global] Instance located_eq_dec : EqDecision located.
Proof. solve_decision. Defined.

(** The files, each under its place, and the trace. *)
Record world : Type := MkWorld {
  files : gmap PurePath content;
  trace : list event
}.

(** What the program cannot decide by itself: what [Path.resolve()]
    returns or raises ([os.path.realpath]: symbolic links followed, dots
    collapsed; [ValueError] on a NUL byte, [RuntimeError] on a loop of
    links), which place a path denotes, and whether a file may be read or
    created at a place. *)
Record platform : Type := MkPlatform {
  realpath : PurePath -> Py.res Py.exn PurePath;
  locate : PurePath -> located;
  may_read : PurePath -> bool;
  may_create : PurePath -> bool
}.

(** State and exceptions. *)
Definition M (E A : Type) : Type := world -> Py.res E A * world.

Definition ret {E A} (a : A) : M E A := fun w => (inr a, w).
Definition raise {E A} (e : E) : M E A := fun w => (inl e, w).
Definition bind {E A B} (m : M E A) (k : A -> M E B) : M E B :=
  fun w =>
    match m w with
    | (inl e, w') => (inl e, w')
    | (inr a, w') => k a w'
    end.
Definition lift {E A} (r : Py.res E A) : M E A := fun w => (r, w).
Definition log {E} (ev : event) : M E unit :=
  fun w => (inr tt, MkWorld (files w) (trace w ++ [ev])).

(** [p.resolve()] *)
Definition resolve (pf : platform) (p : PurePath) : M Py.exn PurePath :=
  bind (log (Resolve p)) (fun _ => lift (realpath pf p)).

(** What [p.exists()] answers on given files: the errors that mean
    absence give [False], any other [OSError] is raised. *)
Definition exists_says (pf : platform) (fs : gmap PurePath content)
  (p : PurePath) : Py.res Py.exn bool :=
  match locate pf p with
  | File k => inr (bool_decide (is_Some (fs !! k)))
  | Directory => inr true
  | Missing _ => inr false
  | Failing => inl Py.OSError
  end.

(** [p.exists()] *)
Definition path_exists (pf : platform) (p : PurePath) : M Py.exn bool :=
  bind (log (Stat p)) (fun _ w => (exists_says pf (files w) p, w)).

(** What [p.is_file()] answers on given files. *)
Definition is_file_says (pf : platform) (fs : gmap PurePath content)
  (p : PurePath) : Py.res Py.exn bool :=
  match locate pf p with
  | File k => inr (bool_decide (is_Some (fs !! k)))
  | Directory => inr false
  | Missing _ => inr false
  | Failing => inl Py.OSError
  end.

(** [p.is_file()] *)
Definition is_file (pf : platform) (p : PurePath) : M Py.exn bool :=
  bind (log (Stat p)) (fun _ w => (is_file_says pf (files w) p, w)).

(** Opening a file and reading all of it. *)
Definition read_file (pf : platform) (p : PurePath) : M Py.exn content :=
  bind (log (OpenRead p)) (fun _ w =>
    match locate pf p with
    | File k =>
        match files w !! k with
        | Some c => if may_read pf k then (inr c, w) else (inl Py.OSError, w)
        | None => (inl Py.OSError, w)
        end
    | Directory => (inl Py.OSError, w)
    | Missing e => (inl e, w)
    | Failing => (inl Py.OSError, w)
    end).

End World.

Declare Scope py_scope.
Delimit Scope py_scope with py.
Notation "'do' x <- m ;; k" := (World.bind m (fun x => k))
  (at level 10, x name, m at level 99, k at level 200) : py_scope.
Notation "'run' m ;; k" := (World.bind m (fun _ => k))
  (at level 10, m at level 99, k at level 200) : py_scope.
Notation "'do' x <~ m ;; k" := (Py.bind m (fun x => k))
  (at level 10, x name, m at level 99, k at level 200) : py_scope.

(** ** [backend/main.py]: the sandbox resolver *)

Module Main.
Import Pathlib World.

(** [HTTPException(status_code, detail)] *)
Record HTTPException : Type := MkHTTP { status_code : Z; detail : string }.

#[global] Instance HTTPException_eq_dec : EqDecision HTTPException.
Proof. solve_decision. Defined.

Definition PathOutsideBrowseRoot : HTTPException :=
  MkHTTP 403 "Access denied: path outside browse root".
Definition PathOutsideGalleryRoot : HTTPException :=
  MkHTTP 403 "Access denied: path outside gallery root".
Definition GalleryNotSelected : HTTPException :=
  MkHTTP 400 "No gallery selected. Please select a folder first.".

(** How a call can fail: with an [HTTPException] the code raised, or with
    a Python exception nothing caught. *)
Inductive failure : Type :=
| Http (e : HTTPException)
| Unhandled (e : Py.exn).

#[global] Instance failure_eq_dec : EqDecision failure.
Proof. solve_decision. Defined.

(** A call outside every [try]. *)
Definition unhandled {A} (m : M Py.exn A) : M failure A :=
  fun w => match m w with
           | (inl e, w') => (inl (Unhandled e), w')
           | (inr a, w') => (inr a, w')
           end.

Section Resolver.
Variable pf : platform.
Variable BROWSE_ROOT : PurePath.

Local Open Scope py_scope.

(** The first [resolve()] stands before the [try]; the second stands in
    it, beside [relative_to], so that its [ValueError] is taken for the
    one of [relative_to]. *)
Definition get_safe_browse_path (relative_path : string)
  : M failure PurePath :=
  let clean_path := Str.lstrip_slash (as_posix (parse relative_path)) in
  do full_path <- unhandled (if Str.truthy clean_path
                             then resolve pf (joinpath BROWSE_ROOT clean_path)
                             else resolve pf BROWSE_ROOT) ;;
  fun w =>
    match resolve pf BROWSE_ROOT w with
    | (inr root, w') =>
        match relative_to full_path root with
        | Some _ => (inr full_path, w')
        | None => (inl (Http PathOutsideBrowseRoot), w')
        end
    | (inl (Py.ValueError _), w') => (inl (Http PathOutsideBrowseRoot), w')
    | (inl e, w') => (inl (Unhandled e), w')
    end.

Definition get_safe_gallery_path (relative_path gallery_root : string)
  : M failure (PurePath * PurePath) :=
  if negb (Str.truthy gallery_root) then raise (Http GalleryNotSelected)
  else
    do gallery_base <- get_safe_browse_path gallery_root ;;
    let clean_path := Str.lstrip_slash (as_posix (parse relative_path)) in
    do full_path <- unhandled (if Str.truthy clean_path
                               then resolve pf (joinpath gallery_base clean_path)
                               else resolve pf gallery_base) ;;
    fun w =>
      match resolve pf gallery_base w with
      | (inr base, w') =>
          match relative_to full_path base with
          | Some _ => (inr (full_path, gallery_base), w')
          | None => (inl (Http PathOutsideGalleryRoot), w')
          end
      | (inl (Py.ValueError _), w') => (inl (Http PathOutsideGalleryRoot), w')
      | (inl e, w') => (inl (Unhandled e), w')
      end.

End Resolver.

(** What the properties of the resolver speak of. *)

(** The segments of a client's path: what stands between its slashes,
    the empty pieces and the single dots left out. *)
Definition segments (relative_path : string) : list string :=
  filter (fun x => x <> "" /\ x <> ".") (Str.split_slash relative_path).

(** The root with the segments of the client's path after it: the
    candidate before it is resolved. *)
Definition joined (root : PurePath) (relative_path : string) : PurePath :=
  MkPath (Pathlib.root root) (tail root ++ segments relative_path).

(** The resolver as the specification words it: every call either
    accepts a path or denies access. *)
Definition accepts_or_denies (pf : platform) (root : PurePath) : Prop :=
  forall (relative_path : string) (w : world),
    (exists p, fst (get_safe_browse_path pf root relative_path w) = inr p)
    \/ fst (get_safe_browse_path pf root relative_path w)
       = inl (Http PathOutsideBrowseRoot).

End Main.

(** ** Python floats (IEEE 754 binary64) *)

Module Float.
Import Py.

Definition prec : Z := 53.
Definition emax : Z := 1024.

(** [float(n)] on an integer: rounded to nearest, ties to even. *)
Definition of_int (n : Z) : res exn spec_float :=
  match binary_normalize prec emax n 0 false with
  | S754_infinity _ => raise OverflowError
  | f => ret f
  end.

(** [a / b] on integers. *)
Definition truediv (a b : Z) : res exn spec_float :=
  if b =? 0 then raise ZeroDivisionError
  else
    match SFdiv prec emax (binary_normalize prec emax a 0 false)
                          (binary_normalize prec emax b 0 false) with
    | S754_infinity _ => raise OverflowError
    | f => ret f
    end.

(** [n * r] with [n] an integer and [r] a float. *)
Definition mul_int (n : Z) (r : spec_float) : res exn spec_float :=
  bind (of_int n) (fun f => ret (SFmul prec emax f r)).

(** [int(f)]: truncation towards zero. *)
Definition to_int (f : spec_float) : res exn Z :=
  match f with
  | S754_zero _ => ret 0
  | S754_finite s m e =>
      let a := if 0 <=? e then Z.shiftl (Zpos m) e else Z.shiftr (Zpos m) (- e) in
      ret (if s then - a else a)
  | S754_infinity _ => raise OverflowError
  | S754_nan => raise (ValueError "cannot convert float NaN to integer")
  end.

(** [int(n * (a / b))], the scaling the resize operation uses. *)
Definition scale (n a b : Z) : res exn Z :=
  bind (truediv a b) (fun ratio =>
  bind (mul_int n ratio) to_int).

End Float.

(** ** Pillow images *)

Module PIL.
Import Py.

(** A pixel is the tuple of its band values. *)
Definition pixel : Type := list Z.

Record image : Type := MkImage {
  mode : string;
  width : Z;
  height : Z;
  getpixel : Z -> Z -> pixel
}.

Definition size (im : image) : Z * Z := (width im, height im).

(** What Pillow and rawpy compute from pixel data, taken as given: the
    decoders, the colour conversions, the resampling filters and the JPEG
    encoder.  Each may raise. *)
Record codec : Type := MkCodec {
  (* Image.open(path), on the bytes of the file *)
  open_image : World.content -> res exn image;
  (* rawpy.imread(path).postprocess(use_camera_wb=True), Image.fromarray *)
  raw_postprocess : World.content -> res exn image;
  (* ImageOps.exif_transpose(image) *)
  exif_transpose : image -> res exn image;
  (* image.convert(mode) *)
  convert : string -> image -> res exn image;
  (* background.paste(image, mask=image.split()[-1]) *)
  paste_masked : image -> image -> res exn image;
  (* image.rotate(angle, expand, resample=BICUBIC), off the right angles *)
  rotate_bicubic : Z -> bool -> image -> res exn image;
  (* the pixels of image.resize((w, h), LANCZOS) *)
  resize_lanczos : image -> Z -> Z -> res exn (Z -> Z -> pixel);
  (* the bytes image.save(..., format="JPEG", quality) writes *)
  encode_jpeg : image -> Z -> res exn World.content
}.

(** [Image.new(mode, size, color)] *)
Definition new (m : string) (sz : Z * Z) (color : pixel) : image :=
  MkImage m (fst sz) (snd sz) (fun _ _ => color).

Inductive transpose_method : Type :=
| FLIP_LEFT_RIGHT
| FLIP_TOP_BOTTOM
| ROTATE_90
| ROTATE_180
| ROTATE_270.

(** [image.transpose(method)]; the rotations are counter-clockwise. *)
Definition transpose (m : transpose_method) (im : image) : image :=
  let W := width im in
  let H := height im in
  match m with
  | FLIP_LEFT_RIGHT => MkImage (mode im) W H (fun x y => getpixel im (W - 1 - x) y)
  | FLIP_TOP_BOTTOM => MkImage (mode im) W H (fun x y => getpixel im x (H - 1 - y))
  | ROTATE_90 => MkImage (mode im) H W (fun x y => getpixel im (W - 1 - y) x)
  | ROTATE_180 => MkImage (mode im) W H (fun x y => getpixel im (W - 1 - x) (H - 1 - y))
  | ROTATE_270 => MkImage (mode im) H W (fun x y => getpixel im y (H - 1 - x))
  end.

(** [ImageOps.mirror] and [ImageOps.flip] *)
Definition mirror (im : image) : image := transpose FLIP_LEFT_RIGHT im.
Definition flip (im : image) : image := transpose FLIP_TOP_BOTTOM im.

(** [image.crop((left, upper, right, lower))] *)
Definition crop (box : Z * Z * Z * Z) (im : image) : image :=
  let '(x0, y0, x1, y1) := box in
  MkImage (mode im) (x1 - x0) (y1 - y0)
          (fun x y => getpixel im (x0 + x) (y0 + y)).

(** Whether a Python integer fits the C [int] Pillow parses sizes into. *)
Definition fits_c_int (n : Z) : bool := (- 2 ^ 31 <=? n) && (n <=? 2 ^ 31 - 1).

(** Integers a float holds exactly. *)
Definition exact_in_float (n : Z) : bool := Z.abs n <=? 2 ^ 53.

Section WithCodec.
Variable cd : codec.

(** [image.rotate(angle, expand=expand, resample=BICUBIC)]: the angle
    counts counter-clockwise; multiples of a right angle are transposes,
    every other angle is resampled. *)
Definition rotate (angle : Z) (expand : bool) (im : image) : res exn image :=
  if exact_in_float angle then
    let a := angle mod 360 in
    if a =? 0 then ret im
    else if a =? 180 then ret (transpose ROTATE_180 im)
    else if ((a =? 90) || (a =? 270)) && (expand || (width im =? height im))
    then ret (transpose (if a =? 90 then ROTATE_90 else ROTATE_270) im)
    else rotate_bicubic cd angle expand im
  else rotate_bicubic cd angle expand im.

(** [image.resize((w, h), LANCZOS)] *)
Definition resize (sz : Z * Z) (im : image) : res exn image :=
  let '(w, h) := sz in
  if (w =? width im) && (h =? height im) then ret im
  else if negb (fits_c_int w && fits_c_int h) then raise OverflowError
  else if (w <? 1) || (h <? 1)
  then raise (ValueError "height and width must be > 0")
  else bind (resize_lanczos cd im w h) (fun px => ret (MkImage (mode im) w h px)).

End WithCodec.

End PIL.

(** ** [backend/image_processor.py]: the edit pipeline *)

Module ImageProcessor.
Import Pathlib World PIL.

Local Open Scope py_scope.

Definition OUTPUT_QUALITY : Z := 90.

Definition RAW_SUFFIXES : list string :=
  [".raw"; ".cr2"; ".cr3"; ".nef"; ".arw"; ".dng"; ".orf"; ".rw2"; ".pef"; ".srw"].

(** An operation record: a dict with string keys. *)
Abbreviation operation := (gmap string Py.value) (only parsing).

(** [-v], [a - v], [a + v] and the comparisons of a value with an integer:
    a string or [None] raises [TypeError]. *)
Definition as_int (v : Py.value) : Py.res Py.exn Z :=
  match v with
  | Py.VInt n => Py.ret n
  | _ => Py.raise Py.TypeError
  end.

Definition neg (v : Py.value) : Py.res Py.exn Z :=
  do n <~ as_int v ;; Py.ret (- n).

Definition rsub (a : Z) (v : Py.value) : Py.res Py.exn Z :=
  do n <~ as_int v ;; Py.ret (a - n).

Definition lt (v : Py.value) (b : Z) : Py.res Py.exn bool :=
  do n <~ as_int v ;; Py.ret (n <? b).

Definition le (v : Py.value) (b : Z) : Py.res Py.exn bool :=
  do n <~ as_int v ;; Py.ret (n <=? b).

Definition add_gt (v1 v2 : Py.value) (b : Z) : Py.res Py.exn bool :=
  do n1 <~ as_int v1 ;; do n2 <~ as_int v2 ;; Py.ret (b <? n1 + n2).

(** [a or b]: the right operand is evaluated only when the left is false. *)
Definition or_else (a b : Py.res Py.exn bool) : Py.res Py.exn bool :=
  do x <~ a ;; if x then Py.ret true else b.

Section Pipeline.
Variable cd : codec.
Variable pf : platform.
Variable HAS_RAWPY : bool.

(** Loading: RAW files through rawpy, everything else through Pillow
    with the EXIF orientation applied. *)
Definition load (file_path : PurePath) : M Py.exn image :=
  if bool_decide (Str.lower (suffix file_path) ∈ RAW_SUFFIXES) then
    if negb HAS_RAWPY then raise (Py.ValueError "RAW file support not available")
    else
      do data <- read_file pf file_path ;;
      lift (raw_postprocess cd data)
  else
    do data <- read_file pf file_path ;;
    do image <- lift (open_image cd data) ;;
    lift (exif_transpose cd image).

(** Conversion to RGB: paletted and alpha images are pasted on white. *)
Definition to_rgb (image : image) : Py.res Py.exn PIL.image :=
  if String.eqb (mode image) "RGBA" || String.eqb (mode image) "P" then
    let background := new "RGB" (size image) [255; 255; 255] in
    do image <~ (if String.eqb (mode image) "P"
                  then convert cd "RGBA" image else Py.ret image) ;;
    paste_masked cd background image
  else if negb (String.eqb (mode image) "RGB") then convert cd "RGB" image
  else Py.ret image.

(** One turn of the loop over the operations. *)
Definition apply_operation (op : operation) (image : image)
  : Py.res Py.exn PIL.image :=
  let op_type := Py.get op "type" in
  if bool_decide (op_type = Py.VStr "rotate") then
    let angle := Py.get_or op "angle" (Py.VInt 0) in
    do a <~ neg angle ;;
    rotate cd a true image
  else if bool_decide (op_type = Py.VStr "crop") then
    let x := Py.get_or op "x" (Py.VInt 0) in
    let y := Py.get_or op "y" (Py.VInt 0) in
    do dw <~ rsub (width image) x ;;
    let width := Py.get_or op "width" (Py.VInt dw) in
    do dh <~ rsub (height image) y ;;
    let height := Py.get_or op "height" (Py.VInt dh) in
    do bad <~ or_else (lt x 0) (or_else (lt y 0)
                 (or_else (le width 0) (le height 0))) ;;
    if bad then Py.raise (Py.ValueError "Invalid crop dimensions")
    else
      do out <~ or_else (add_gt x width (PIL.width image))
                         (add_gt y height (PIL.height image)) ;;
      if out then Py.raise (Py.ValueError "Crop extends beyond image bounds")
      else
        do x <~ as_int x ;;
        do y <~ as_int y ;;
        do width <~ as_int width ;;
        do height <~ as_int height ;;
        Py.ret (crop (x, y, x + width, y + height) image)
  else if bool_decide (op_type = Py.VStr "resize") then
    let width := Py.get op "width" in
    let height := Py.get op "height" in
    if Py.truthy width && Py.truthy height then
      do w <~ as_int width ;;
      do h <~ as_int height ;;
      resize cd (w, h) image
    else if Py.truthy width then
      do w <~ as_int width ;;
      do new_height <~ Float.scale (PIL.height image) w (PIL.width image) ;;
      resize cd (w, new_height) image
    else if Py.truthy height then
      do h <~ as_int height ;;
      do new_width <~ Float.scale (PIL.width image) h (PIL.height image) ;;
      resize cd (new_width, h) image
    else Py.ret image
  else if bool_decide (op_type = Py.VStr "flip") then
    let direction := Py.get_or op "direction" (Py.VStr "horizontal") in
    if bool_decide (direction = Py.VStr "horizontal") then Py.ret (mirror image)
    else if bool_decide (direction = Py.VStr "vertical") then Py.ret (flip image)
    else Py.raise (Py.ValueError ("Unknown flip direction: " +:+ Py.str direction))
  else Py.raise (Py.ValueError ("Unknown operation type: " +:+ Py.str op_type)).

(** [for op in operations: ...] *)
Fixpoint apply_operations (operations : list operation) (image : image)
  : Py.res Py.exn PIL.image :=
  match operations with
  | [] => Py.ret image
  | op :: rest =>
      do image <~ apply_operation op image ;;
      apply_operations rest image
  end.

(** The name tried at a given counter. *)
Definition numbered_name (output_prefix stem output_suffix : string)
  (counter : Z) : string :=
  output_prefix +:+ stem +:+ output_suffix +:+ "_" +:+ pretty counter +:+ ".jpg".

(** [while output_path.exists(): ...], run for at most [fuel] tests;
    [None] when the tests are used up before a free name is met.  A test
    that raises ends the loop. *)
Fixpoint find_free (fuel : nat) (file_path : PurePath)
  (output_prefix stem output_suffix : string)
  (output_path : PurePath) (counter : Z) : M Py.exn (option PurePath) :=
  match fuel with
  | O => ret None
  | S fuel' =>
      do taken <- path_exists pf output_path ;;
      if taken then
        let output_name := numbered_name output_prefix stem output_suffix counter in
        find_free fuel' file_path output_prefix stem output_suffix
                  (joinpath (parent file_path) output_name) (counter + 1)
      else ret (Some output_path)
  end.

(** [image.save(path, format="JPEG", quality=quality)]: the file is opened
    for writing at the place the path denotes, which creates or empties
    it; when the encoder fails on a file this call created, the file is
    removed again. *)
Definition save (image : image) (p : PurePath) (quality : Z) : M Py.exn unit :=
  fun w =>
    let tr := (trace w ++ [OpenWrite p])%list in
    match locate pf p with
    | File k =>
        let created := negb (bool_decide (is_Some (files w !! k))) in
        if negb (may_create pf k) then (inl Py.OSError, MkWorld (files w) tr)
        else
          match encode_jpeg cd image quality with
          | inr data => (inr tt, MkWorld (<[k := data]> (files w)) tr)
          | inl e =>
              if created then (inl e, MkWorld (files w) (tr ++ [Remove p])%list)
              else (inl e, MkWorld (<[k := []]> (files w)) tr)
          end
    | Directory => (inl Py.OSError, MkWorld (files w) tr)
    | Missing e => (inl e, MkWorld (files w) tr)
    | Failing => (inl Py.OSError, MkWorld (files w) tr)
    end.

(** [ImageProcessor.apply_edits] *)
Definition apply_edits (fuel : nat) (file_path : PurePath)
  (operations : list operation) (output_prefix output_suffix : string)
  : M Py.exn (option PurePath) :=
  do image <- load file_path ;;
  do image <- lift (to_rgb image) ;;
  do image <- lift (apply_operations operations image) ;;
  let stem := stem file_path in
  let output_name := output_prefix +:+ stem +:+ output_suffix +:+ ".jpg" in
  let output_path := joinpath (parent file_path) output_name in
  do found <- find_free fuel file_path output_prefix stem output_suffix
                        output_path 1 ;;
  match found with
  | None => ret None
  | Some output_path =>
      run save image output_path OUTPUT_QUALITY ;;
      ret (Some output_path)
  end.

End Pipeline.

(** What the properties of the pipeline speak of. *)

(** A parameter of an operation is an integer, when it is there at all. *)
Definition int_or_absent (op : operation) (k : string) : Prop :=
  op !! k = None \/ exists n, op !! k = Some (Py.VInt n).

(** The integer a parameter holds, [dflt] when it is not there. *)
Definition param (op : operation) (k : string) (dflt : Z) : Z :=
  match op !! k with
  | Some (Py.VInt n) => n
  | _ => dflt
  end.

(** A parameter counts as given when it holds a non-zero integer. *)
Definition given (op : operation) (k : string) : bool :=
  negb (param op k 0 =? 0).

(** The first name tried, and the paths tried first and at a counter. *)
Definition first_name (file_path : PurePath) (output_prefix output_suffix : string)
  : string :=
  output_prefix +:+ stem file_path +:+ output_suffix +:+ ".jpg".

Definition first_path (file_path : PurePath) (output_prefix output_suffix : string)
  : PurePath :=
  joinpath (parent file_path) (first_name file_path output_prefix output_suffix).

Definition numbered_path (file_path : PurePath)
  (output_prefix output_suffix : string) (counter : Z) : PurePath :=
  joinpath (parent file_path)
           (numbered_name output_prefix (stem file_path) output_suffix counter).

(** A size [w] x [h] keeps the proportions of [W] x [H], up to the one
    pixel that rounding a side may cost. *)
Definition preserves_aspect (W H w h : Z) : Prop :=
  Z.abs (w * H - h * W) <= Z.max W H.

(** A size fits a box. *)
Definition fits_within (bw bh w h : Z) : Prop := w <= bw /\ h <= bh.

(** The resize operation as the specification words it: given both a
    width and a height, the result fits the box they span and keeps the
    proportions of the source. *)
Definition resize_fits_box_keeping_aspect (cd : codec) : Prop :=
  forall (op : operation) (im im' : image),
    op !! "type" = Some (Py.VStr "resize") ->
    given op "width" = true -> given op "height" = true ->
    apply_operation cd op im = inr im' ->
    fits_within (param op "width" 0) (param op "height" 0) (width im') (height im')
    /\ preserves_aspect (width im) (height im) (width im') (height im').

(** A rotation by [angle] degrees clockwise, the canvas growing to hold
    the result: Pillow counts angles counter-clockwise. *)
Definition rotate_clockwise (cd : codec) (angle : Z) (image : image)
  : Py.res Py.exn PIL.image :=
  rotate cd (- angle) true image.

(** A pixel position lies on the canvas of an image. *)
Definition on_canvas (image : image) (x y : Z) : Prop :=
  0 <= x < width image /\ 0 <= y < height image.

(** The path the naming loop tests at its [n]-th turn, when it starts at
    [output_path] with the counter at [counter]. *)
Definition tried (file_path : PurePath) (output_prefix stem output_suffix : string)
  (output_path : PurePath) (counter : Z) (n : nat) : PurePath :=
  match n with
  | O => output_path
  | S m =>
      joinpath (parent file_path)
               (numbered_name output_prefix stem output_suffix (counter + Z.of_nat m))
  end.

(** The calls that change the file system, and those that land on the
    place [k], under whatever spelling. *)
Definition is_write (ev : event) : bool :=
  match ev with
  | OpenWrite _ | Remove _ => true
  | _ => false
  end.

Definition touches (pf : platform) (k : PurePath) (ev : event) : bool :=
  match ev with
  | OpenWrite q | Remove q => bool_decide (locate pf q = File k)
  | _ => false
  end.

End ImageProcessor.

(** ** Test doubles

    A platform with a table of symbolic links and a codec over a toy
    image format, to run the resolver and the pipeline on examples.  The
    theorems below hold for every platform and every codec. *)

Module Fixture.
Import Pathlib World PIL.

(** The target of a symbolic link, when [p] is one. *)
Fixpoint readlink (links : list (list string * list string)) (p : list string)
  : option (list string) :=
  match links with
  | [] => None
  | (src, target) :: rest =>
      if bool_decide (src = p) then Some target else readlink rest p
  end.

(** Resolution of an absolute path, component by component: [..] drops
    the last resolved component, a link is replaced by its target;
    [None] when the links never end. *)
Fixpoint walk (fuel : nat) (links : list (list string * list string))
  (resolved todo : list string) : option (list string) :=
  match fuel with
  | O => None
  | S fuel' =>
      match todo with
      | [] => Some resolved
      | c :: rest =>
          if String.eqb c ".." then walk fuel' links (removelast resolved) rest
          else
            let here := (resolved ++ [c])%list in
            match readlink links here with
            | Some target => walk fuel' links [] (target ++ rest)%list
            | None => walk fuel' links here rest
            end
      end
  end.

(** A component with a NUL byte, and one longer than a file system takes. *)
Definition has_nul (c : string) : bool := Str.contains "000"%char c.
Definition too_long (c : string) : bool := (255 <? String.length c)%nat.

Definition realpath_with (links : list (list string * list string))
  (p : PurePath) : Py.res Py.exn PurePath :=
  if existsb has_nul (tail p) then Py.raise (Py.ValueError "embedded null byte")
  else
    match walk 64 links [] (tail p) with
    | Some t => Py.ret (MkPath "/" t)
    | None => Py.raise Py.RuntimeError
    end.

Definition locate_with (links : list (list string * list string))
  (directories : list (list string)) (p : PurePath) : located :=
  if existsb has_nul (tail p) then Missing (Py.ValueError "embedded null byte")
  else if existsb too_long (tail p) then Failing
  else
    match walk 64 links [] (tail p) with
    | Some t => if bool_decide (t ∈ directories) then Directory
                else File (MkPath "/" t)
    | None => Missing Py.OSError
    end.

(** [/mnt/photos/outside] is a link to [/etc], [/mnt/photos/loop] a link
    to itself, and [/mnt/photos/photo_linked.jpg] a link to a file that
    is not there. *)
Definition links : list (list string * list string) :=
  [(["mnt"; "photos"; "outside"], ["etc"]);
   (["mnt"; "photos"; "loop"], ["mnt"; "photos"; "loop"]);
   (["mnt"; "photos"; "photo_linked.jpg"], ["srv"; "elsewhere.jpg"])].

Definition directories : list (list string) :=
  [[]; ["mnt"]; ["mnt"; "photos"]; ["etc"]; ["srv"]].

Definition platform : World.platform :=
  MkPlatform (realpath_with links) (locate_with links directories)
             (fun _ => true) (fun _ => true).

(** A platform on which no file can be created. *)
Definition read_only : World.platform :=
  MkPlatform (realpath_with links) (locate_with links directories)
             (fun _ => true) (fun _ => false).


Definition BROWSE_ROOT : PurePath := parse "/mnt".

(** The toy format: two bytes of width, then two bytes of height, low
    byte first.  Pixel [(x, y)] of a decoded image holds [x] and [y]. *)
Definition byte_of_Z (n : Z) : Byte.byte :=
  default Byte.x00 (Byte.of_N (Z.to_N (n mod 256))).

Definition Z_of_byte (b : Byte.byte) : Z := Z.of_N (Byte.to_N b).

Definition encode (im : image) : content :=
  [byte_of_Z (width im); byte_of_Z (width im / 256);
   byte_of_Z (height im); byte_of_Z (height im / 256)].

Definition decode (data : content) : Py.res Py.exn image :=
  match data with
  | [w0; w1; h0; h1] =>
      Py.ret (MkImage "RGB" (Z_of_byte w0 + 256 * Z_of_byte w1)
                      (Z_of_byte h0 + 256 * Z_of_byte h1)
                      (fun x y => [x; y; 0]))
  | _ => Py.raise Py.OSError
  end.

Definition codec : PIL.codec :=
  MkCodec decode decode Py.ret (fun m im => Py.ret (MkImage m (width im) (height im) (getpixel im)))
          (fun bg _ => Py.ret bg)
          (fun _ _ _ => Py.raise Py.MemoryError)
          (fun im w h => Py.ret (fun x y => getpixel im (x * width im / w) (y * height im / h)))
          (fun im _ => Py.ret (encode im)).

Definition image_of (w h : Z) : image := MkImage "RGB" w h (fun x y => [x; y; 0]).

Definition photo : PurePath := parse "/mnt/photos/photo.jpg".

(** A directory holding one 4000 x 3000 photo. *)
Definition world0 : world :=
  MkWorld {[ photo := encode (image_of 4000 3000) ]} [].

Definition op (l : list (string * Py.value)) : ImageProcessor.operation :=
  list_to_map l.

(** The requests of the examples. *)
Definition rotate_90 : ImageProcessor.operation :=
  op [("type", Py.VStr "rotate"); ("angle", Py.VInt 90)].

Definition crop_3000_2000 : ImageProcessor.operation :=
  op [("type", Py.VStr "crop"); ("x", Py.VInt 0); ("y", Py.VInt 0);
      ("width", Py.VInt 3000); ("height", Py.VInt 2000)].

Definition crop_past_the_edge : ImageProcessor.operation :=
  op [("type", Py.VStr "crop"); ("x", Py.VInt 2000); ("y", Py.VInt 0);
      ("width", Py.VInt 3000); ("height", Py.VInt 100)].

Definition resize_100_100 : ImageProcessor.operation :=
  op [("type", Py.VStr "resize"); ("width", Py.VInt 100); ("height", Py.VInt 100)].

Definition resize_width_800 : ImageProcessor.operation :=
  op [("type", Py.VStr "resize"); ("width", Py.VInt 800)].

Definition flip_plain : ImageProcessor.operation := op [("type", Py.VStr "flip")].

Definition blur : ImageProcessor.operation := op [("type", Py.VStr "blur")].

(** The world after the photo has been read. *)
Definition world1 : world := MkWorld (files world0) [OpenRead photo].

Definition edited : PurePath := parse "/mnt/photos/photo_edited.jpg".
Definition edited_1 : PurePath := parse "/mnt/photos/photo_edited_1.jpg".

End Fixture.

(** ** [backend/main.py]: file kinds and breadcrumbs *)

Module Gallery.
Import Pathlib.

Definition IMAGE_EXTENSIONS : list string :=
  [".jpg"; ".jpeg"; ".png"; ".gif"; ".webp"; ".bmp";
   ".tiff"; ".tif"; ".ico"; ".svg";
   ".raw"; ".cr2"; ".cr3"; ".nef"; ".arw"; ".dng"; ".orf"; ".rw2"; ".pef"; ".srw"].

Definition RAW_EXTENSIONS : list string :=
  [".raw"; ".cr2"; ".cr3"; ".nef"; ".arw"; ".dng"; ".orf"; ".rw2"; ".pef"; ".srw"].

Definition is_image_file (path : PurePath) : bool :=
  bool_decide (Str.lower (suffix path) ∈ IMAGE_EXTENSIONS).

Definition is_raw_file (path : PurePath) : bool :=
  bool_decide (Str.lower (suffix path) ∈ RAW_EXTENSIONS).

Definition is_svg_file (path : PurePath) : bool :=
  String.eqb (Str.lower (suffix path)) ".svg".

(** One entry of the breadcrumb trail: [{"name": ..., "path": ...}]. *)
Record crumb : Type := MkCrumb { crumb_name : string; crumb_path : string }.

#[global] Instance crumb_eq_dec : EqDecision crumb.
Proof. solve_decision. Defined.

(** [[p for p in path.split("/") if p]] *)
Definition path_parts (path : string) : list string :=
  filter (fun p => Str.truthy p = true) (Str.split_slash path).

(** [for part in parts: ...], from the current path and the trail so far. *)
Fixpoint extend_breadcrumbs (parts : list string) (current_path : string)
  (breadcrumbs : list crumb) : list crumb :=
  match parts with
  | [] => breadcrumbs
  | part :: rest =>
      let current_path :=
        if Str.truthy current_path then current_path +:+ "/" +:+ part else part in
      extend_breadcrumbs rest current_path
                         (breadcrumbs ++ [MkCrumb part current_path])
  end.

Definition breadcrumbs_of (path : string) : list crumb :=
  extend_breadcrumbs (path_parts path) "" [MkCrumb "Home" ""].

(** [get_browse_info]: [{"breadcrumbs": ..., "current_path": path}] *)
Record browse_info : Type := MkBrowseInfo {
  browse_breadcrumbs : list crumb;
  current_path : string
}.

Definition get_browse_info (path : string) : browse_info :=
  MkBrowseInfo (breadcrumbs_of path) path.

(** [get_path_info]: [{"breadcrumbs": ..., "current": ...}] *)
Record path_info : Type := MkPathInfo {
  path_breadcrumbs : list crumb;
  current : string
}.

Definition get_path_info (path : string) : path_info :=
  MkPathInfo (breadcrumbs_of path) (List.last (path_parts path) "Home").

End Gallery.

(** ** [backend/image_processor.py]: images for display *)

Module Display.
Import Pathlib World PIL.

Local Open Scope py_scope.

Definition THUMBNAIL_SIZE : Z * Z := (300, 300).
Definition OUTPUT_QUALITY : Z := 90.

(** What the display path asks of Pillow and rawpy beyond the codec of
    the edit pipeline, taken as given. *)
Record display_codec : Type := MkDisplayCodec {
  (* image.thumbnail(size, LANCZOS): the image after the call *)
  thumbnail : image -> Z * Z -> Py.res Py.exn image;
  (* rawpy.imread(path).postprocess(half_size=True, use_camera_wb=True) *)
  raw_postprocess_half : content -> Py.res Py.exn image
}.

(** [bool(n)] on an [Optional[int]]. *)
Definition truthy (n : option Z) : bool :=
  match n with
  | Some n => negb (n =? 0)
  | None => false
  end.

Section Processor.
Variable cd : codec.
Variable dc : display_codec.
Variable pf : platform.
Variable HAS_RAWPY : bool.

Definition _resize_image (image : image) (width height : option Z)
  : Py.res Py.exn PIL.image :=
  let orig_width := PIL.width image in
  let orig_height := PIL.height image in
  if truthy width && truthy height then
    thumbnail dc image (default 0 width, default 0 height)
  else if truthy width then
    let width := default 0 width in
    do new_height <~ Float.scale orig_height width orig_width ;;
    resize cd (width, new_height) image
  else if truthy height then
    let height := default 0 height in
    do new_width <~ Float.scale orig_width height orig_height ;;
    resize cd (new_width, height) image
  else Py.ret image.

(** The resizing both [process_raw] and [process_image] end with. *)
Definition resized (image : image) (thumb : bool) (width height : option Z)
  : Py.res Py.exn PIL.image :=
  if thumb then thumbnail dc image THUMBNAIL_SIZE
  else if truthy width || truthy height then _resize_image image width height
  else Py.ret image.

Definition process_raw (file_path : PurePath) (thumb : bool)
  (width height : option Z) : M Py.exn (content * string) :=
  if negb HAS_RAWPY then
    raise (Py.ValueError "RAW file support not available (rawpy not installed)")
  else
    do data <- read_file pf file_path ;;
    do image <- lift (if thumb then raw_postprocess_half dc data
                      else raw_postprocess cd data) ;;
    do image <- lift (resized image thumb width height) ;;
    do bytes <- lift (encode_jpeg cd image OUTPUT_QUALITY) ;;
    ret (bytes, "image/jpeg").

Definition process_image (file_path : PurePath) (thumb : bool)
  (width height : option Z) : M Py.exn (content * string) :=
  do data <- read_file pf file_path ;;
  do image <- lift (open_image cd data) ;;
  do image <- lift (exif_transpose cd image) ;;
  do image <- lift (ImageProcessor.to_rgb cd image) ;;
  do image <- lift (resized image thumb width height) ;;
  do bytes <- lift (encode_jpeg cd image OUTPUT_QUALITY) ;;
  ret (bytes, "image/jpeg").

End Processor.

End Display.

(** ** [backend/main.py]: the request handlers *)

Module Handlers.
Import Pathlib World Main Gallery.

Local Open Scope py_scope.

(** What a handler returns. *)
Inductive response : Type :=
| FileResponse (path : PurePath) (media_type : string)
| Response (data : content) (media_type : string).

Record EditRequest : Type := MkEditRequest {
  req_path : string;
  req_operations : list ImageProcessor.operation;
  req_output_prefix : string;
  req_output_suffix : string;
  req_gallery_root : string
}.

(** The outcome of [Path.unlink] on a file that is there. *)
Inductive unlink_result : Type :=
| Unlinked
| PermissionError
| UnlinkFailed (e : Py.exn).

(** The name tried at a counter by the upload handler. *)
Definition numbered_png (output_prefix original_name output_suffix : string)
  (counter : Z) : string :=
  output_prefix +:+ original_name +:+ output_suffix +:+ "_" +:+ pretty counter
  +:+ ".png".

Section WithEnvironment.
Variable cd : PIL.codec.
Variable dc : Display.display_codec.
Variable pf : platform.
Variable HAS_RAWPY : bool.
Variable BROWSE_ROOT : PurePath.
(* str(e) of an exception other than a ValueError raised with a message *)
Variable describe : Py.exn -> string.
(* the message of the ValueError [relative_to] raises *)
Variable not_in_subpath : PurePath -> PurePath -> string.
(* mimetypes.guess_type(path)[0] *)
Variable guess_type : string -> option string.
(* what unlinking a file that exists comes to *)
Variable try_unlink : PurePath -> unlink_result.
(* the bytes left in a file when writing it fails half way, if it does *)
Variable write_failure : PurePath -> content -> option content.

(** [str(e)] *)
Definition message (e : Py.exn) : string :=
  match e with
  | Py.ValueError msg => msg
  | _ => describe e
  end.

(** The upload handler's [while output_path.exists(): ...], for at most
    [fuel] tests; it stands outside every [try]. *)
Fixpoint free_png (fuel : nat) (file_path : PurePath)
  (output_prefix original_name output_suffix : string)
  (output_path : PurePath) (counter : Z) : M failure (option PurePath) :=
  match fuel with
  | O => ret None
  | S fuel' =>
      do taken <- unhandled (path_exists pf output_path) ;;
      if taken then
        let output_name :=
          numbered_png output_prefix original_name output_suffix counter in
        free_png fuel' file_path output_prefix original_name output_suffix
                 (joinpath (parent file_path) output_name) (counter + 1)
      else ret (Some output_path)
  end.

(** [GET /api/image/{path}] *)
Definition get_image (path : string) (thumbnail : bool) (width height : option Z)
  (gallery_root : string) : M failure response :=
  do found <- get_safe_gallery_path pf BROWSE_ROOT path gallery_root ;;
  let '(file_path, gallery_base) := found in
  do present <- unhandled (path_exists pf file_path) ;;
  if negb present then raise (Http (MkHTTP 404 "Image not found"))
  else
    do regular <- unhandled (is_file pf file_path) ;;
    if negb regular || negb (is_image_file file_path)
    then raise (Http (MkHTTP 400 "Not an image file"))
    else if is_svg_file file_path
    then ret (FileResponse file_path "image/svg+xml")
    else if is_raw_file file_path then
      do converted <- unhandled (Display.process_raw cd dc pf HAS_RAWPY file_path
                                                     thumbnail width height) ;;
      ret (Response (fst converted) (snd converted))
    else if negb thumbnail && negb (bool_decide (is_Some width))
            && negb (bool_decide (is_Some height)) then
      let content_type := guess_type (as_posix file_path) in
      ret (FileResponse file_path
             (match content_type with
              | Some t => if Str.truthy t then t else "application/octet-stream"
              | None => "application/octet-stream"
              end))
    else
      do converted <- unhandled (Display.process_image cd dc pf file_path
                                                       thumbnail width height) ;;
      ret (Response (fst converted) (snd converted)).

(** [POST /api/edit]; the reply is the output path, relative to the
    gallery; [None] when the naming loop used up its tests. *)
Definition edit_image (fuel : nat) (request : EditRequest)
  : M failure (option string) :=
  do found <- get_safe_gallery_path pf BROWSE_ROOT (req_path request)
                                    (req_gallery_root request) ;;
  let '(file_path, gallery_base) := found in
  do present <- unhandled (path_exists pf file_path) ;;
  if negb present then raise (Http (MkHTTP 404 "Image not found"))
  else
    do regular <- unhandled (is_file pf file_path) ;;
    if negb regular || negb (is_image_file file_path)
    then raise (Http (MkHTTP 400 "Not an image file"))
    else fun w =>
      match ImageProcessor.apply_edits cd pf HAS_RAWPY fuel file_path
              (req_operations request) (req_output_prefix request)
              (req_output_suffix request) w with
      | (inr None, w') => (inr None, w')
      | (inr (Some output_path), w') =>
          match relative_to output_path gallery_base with
          | Some rel_path => (inr (Some (as_posix rel_path)), w')
          | None =>
              (inl (Http (MkHTTP 400 (not_in_subpath output_path gallery_base))),
               w')
          end
      | (inl (Py.ValueError msg), w') => (inl (Http (MkHTTP 400 msg)), w')
      | (inl e, w') =>
          (inl (Http (MkHTTP 500 ("Failed to process image: " +:+ message e))),
           w')
      end.

(** [open(output_path, "wb")] and [f.write(content)] *)
Definition write_file (p : PurePath) (data : content) : M Py.exn unit :=
  fun w =>
    let tr := (trace w ++ [OpenWrite p])%list in
    match locate pf p with
    | File k =>
        if negb (may_create pf k) then (inl Py.OSError, MkWorld (files w) tr)
        else
          match write_failure k data with
          | Some partial =>
              (inl Py.OSError, MkWorld (<[k := partial]> (files w)) tr)
          | None => (inr tt, MkWorld (<[k := data]> (files w)) tr)
          end
    | Directory => (inl Py.OSError, MkWorld (files w) tr)
    | Missing e => (inl e, MkWorld (files w) tr)
    | Failing => (inl Py.OSError, MkWorld (files w) tr)
    end.

(** The guard of the upload handler:
    [output_path.resolve().relative_to(gallery_base.resolve())] in a [try]
    that takes every [ValueError] for a path outside the gallery. *)
Definition output_within_gallery (output_path gallery_base : PurePath)
  : M failure unit :=
  fun w =>
    match resolve pf output_path w with
    | (inl (Py.ValueError _), w1) =>
        (inl (Http (MkHTTP 403 "Output path outside gallery")), w1)
    | (inl e, w1) => (inl (Unhandled e), w1)
    | (inr resolved, w1) =>
        match resolve pf gallery_base w1 with
        | (inl (Py.ValueError _), w2) =>
            (inl (Http (MkHTTP 403 "Output path outside gallery")), w2)
        | (inl e, w2) => (inl (Unhandled e), w2)
        | (inr base, w2) =>
            match relative_to resolved base with
            | Some _ => (inr tt, w2)
            | None =>
                (inl (Http (MkHTTP 403 "Output path outside gallery")), w2)
            end
        end
    end.

(** [POST /api/edit-upload], [content] being the bytes of the upload. *)
Definition edit_upload (fuel : nat) (content : content) (path : string)
  (output_prefix output_suffix gallery_root : string)
  : M failure (option string) :=
  do found <- get_safe_gallery_path pf BROWSE_ROOT path gallery_root ;;
  let '(file_path, gallery_base) := found in
  do present <- unhandled (path_exists pf file_path) ;;
  if negb present then raise (Http (MkHTTP 404 "Original image not found"))
  else
    let original_name := stem file_path in
    let output_name := output_prefix +:+ original_name +:+ output_suffix +:+ ".png" in
    let output_path := joinpath (parent file_path) output_name in
    run output_within_gallery output_path gallery_base ;;
    do free <- free_png fuel file_path output_prefix original_name
                        output_suffix output_path 1 ;;
    match free with
    | None => ret None
    | Some output_path => fun w =>
        match write_file output_path content w with
        | (inl e, w') =>
            (inl (Http (MkHTTP 500 ("Failed to save image: " +:+ message e))), w')
        | (inr _, w') =>
            match relative_to output_path gallery_base with
            | Some rel_path => (inr (Some (as_posix rel_path)), w')
            | None =>
                (inl (Http (MkHTTP 500 ("Failed to save image: "
                                        +:+ not_in_subpath output_path
                                                           gallery_base))),
                 w')
            end
        end
    end.

(** [DELETE /api/delete]; the reply is the path deleted. *)
Definition delete_image (path gallery_root : string) : M failure string :=
  do found <- get_safe_gallery_path pf BROWSE_ROOT path gallery_root ;;
  let '(file_path, gallery_base) := found in
  do present <- unhandled (path_exists pf file_path) ;;
  if negb present then raise (Http (MkHTTP 404 "File not found"))
  else
    do regular <- unhandled (is_file pf file_path) ;;
    if negb regular then raise (Http (MkHTTP 400 "Path is not a file"))
    else if negb (is_image_file file_path)
    then raise (Http (MkHTTP 400 "Not an image file"))
    else fun w =>
      let tr := (trace w ++ [Remove file_path])%list in
      match try_unlink file_path with
      | Unlinked =>
          (inr path,
           MkWorld (match locate pf file_path with
                    | File k => delete k (files w)
                    | _ => files w
                    end) tr)
      | PermissionError =>
          (inl (Http (MkHTTP 403 "Permission denied - cannot delete file")),
           MkWorld (files w) tr)
      | UnlinkFailed e =>
          (inl (Http (MkHTTP 500 ("Failed to delete: " +:+ message e))),
           MkWorld (files w) tr)
      end.

End WithEnvironment.

End Handlers.

(** ** [backend/auth.py]: the session store, and the middleware of
    [backend/main.py] that consults it

    A [datetime] is the number of microseconds since [datetime.min]; the
    clock and the token generator are read through two oracles, the
    state counting how often each has been asked.  The credentials file
    is not modelled. *)

Module Auth.
Import Py.

Record session : Type := MkSession {
  username : string;
  created : Z;
  expires : Z
}.

(** The module's [sessions] dict, with the number of clock readings and
    of tokens drawn so far. *)
Record state : Type := MkState {
  sessions : gmap string session;
  ticks : nat;
  drawn : nat
}.

Definition US_PER_HOUR : Z := 3600000000.

(** [datetime.max] *)
Definition DATETIME_MAX : Z := 315537897599999999.

(** The largest number of days a [timedelta] holds. *)
Definition MAX_DELTA_DAYS : Z := 999999999.

(** [timedelta(hours=h)], in microseconds *)
Definition timedelta_hours (h : Z) : res exn Z :=
  if Z.abs (h / 24) <=? MAX_DELTA_DAYS then ret (h * US_PER_HOUR)
  else raise OverflowError.

(** [t + delta] on a datetime *)
Definition datetime_add (t delta : Z) : res exn Z :=
  if (0 <=? t + delta) && (t + delta <=? DATETIME_MAX) then ret (t + delta)
  else raise OverflowError.

(** [s.endswith(ext)] *)
Definition endswith (s ext : string) : bool :=
  (String.length ext <=? String.length s)%nat
  && String.eqb (Str.drop (String.length s - String.length ext) s) ext.

(** What the middleware does with a request. *)
Inductive verdict : Type :=
| CallNext
| NotAuthenticated
| LoginPage.

#[global] Instance verdict_eq_dec : EqDecision verdict.
Proof. solve_decision. Defined.

Definition public_paths : list string := ["/api/auth/"; "/login.html"; "/login"].

Definition static_extensions : list string :=
  [".js"; ".css"; ".png"; ".jpg"; ".svg"; ".ico"; ".woff"; ".woff2"; ".json"].

(** [destroy_session] *)
Definition destroy_session (token : string) (s : state) : bool * state :=
  match sessions s !! token with
  | Some _ => (true, MkState (delete token (sessions s)) (ticks s) (drawn s))
  | None => (false, s)
  end.

(** [POST /api/auth/logout], given the [echo_session] cookie if any. *)
Definition auth_logout (session_token : option string) (s : state) : state :=
  match session_token with
  | Some token => if Str.truthy token then snd (destroy_session token s) else s
  | None => s
  end.

Section WithOracles.
(* the n-th reading of datetime.now() *)
Variable now : nat -> Z.
(* the n-th token drawn by secrets.token_urlsafe(32) *)
Variable token_urlsafe : nat -> string.
Variable AUTH_ENABLED : bool.
Variable SESSION_EXPIRY_HOURS : Z.

(** [create_session] *)
Definition create_session (username : string) (s : state)
  : res exn string * state :=
  let token := token_urlsafe (drawn s) in
  let created := now (ticks s) in
  let read := now (S (ticks s)) in
  match (do delta <~ timedelta_hours SESSION_EXPIRY_HOURS ;;
         datetime_add read delta)%py with
  | inl e => (inl e, MkState (sessions s) (S (S (ticks s))) (S (drawn s)))
  | inr expires =>
      (inr token,
       MkState (<[token := MkSession username created expires]> (sessions s))
               (S (S (ticks s))) (S (drawn s)))
  end.

(** [validate_session]; the token is [None] when the request has no
    cookie. *)
Definition validate_session (token : option string) (s : state) : bool * state :=
  match token with
  | None => (false, s)
  | Some token =>
      if negb (Str.truthy token) then (false, s)
      else
        match sessions s !! token with
        | None => (false, s)
        | Some session =>
            if expires session <? now (ticks s)
            then (false, MkState (delete token (sessions s)) (S (ticks s))
                                 (drawn s))
            else (true, MkState (sessions s) (S (ticks s)) (drawn s))
        end
  end.

(** [auth_middleware], for a request with this URL path and this
    [echo_session] cookie. *)
Definition auth_middleware (path : string) (session_token : option string)
  (s : state) : verdict * state :=
  if existsb (fun p => String.prefix p path) public_paths then (CallNext, s)
  else if negb AUTH_ENABLED then (CallNext, s)
  else
    let '(valid, s') := validate_session session_token s in
    if valid then (CallNext, s')
    else if String.prefix "/api/" path then (NotAuthenticated, s')
    else if existsb (endswith path) static_extensions
    then (NotAuthenticated, s')
    else (LoginPage, s').

End WithOracles.

End Auth.

(** Test doubles for the session store. *)
Module AuthFixture.
Import Auth.

(** A clock that advances by a second at each reading. *)
Definition now (n : nat) : Z := 63000000000000000 + Z.of_nat n * 1000000.

Definition token_urlsafe (n : nat) : string := "token-" +:+ pretty n.

Definition SESSION_EXPIRY_HOURS : Z := 168.

Definition state0 : state := MkState ∅ 0 0.

End AuthFixture.

(** Test doubles for the display path and the handlers. *)
Module HandlerFixture.
Import Pathlib World PIL Handlers.

(** A thumbnail that clips the image to the box; half-size decoding that
    halves both sides of what the toy decoder reads. *)
Definition display_codec : Display.display_codec :=
  Display.MkDisplayCodec
    (fun im box => Py.ret (MkImage (mode im) (Z.min (width im) (fst box))
                                   (Z.min (height im) (snd box)) (getpixel im)))
    (fun data => Py.bind (Fixture.decode data)
                         (fun im => Py.ret (MkImage (mode im) (width im / 2)
                                                    (height im / 2) (getpixel im)))).

Definition describe (e : Py.exn) : string := "error".

Definition not_in_subpath (p other : PurePath) : string :=
  "'" +:+ as_posix p +:+ "' is not in the subpath of '" +:+ as_posix other +:+ "'".

Definition guess_type (name : string) : option string :=
  if String.eqb (Str.lower (suffix (parse name))) ".jpg" then Some "image/jpeg"
  else None.

Definition try_unlink (p : PurePath) : unlink_result := Unlinked.

Definition write_failure (p : PurePath) (data : content) : option content := None.

Definition request (output_prefix : string) : EditRequest :=
  MkEditRequest "photo.jpg" [Fixture.rotate_90] output_prefix "_edited" "photos".

Definition upload : content := [Byte.x89; Byte.x50; Byte.x4e; Byte.x47].

End HandlerFixture.

(** * Properties *)

(** ** Strings *)

Module StrFacts.

Lemma contains_app (c : ascii) (s t : string) :
  Str.contains c (s +:+ t) = Str.contains c s || Str.contains c t.
Proof.
  induction s as [|d s IH]; simpl; [done |].
  by rewrite IH, orb_assoc.
Qed.

Lemma length_app (s t : string) :
  String.length (s +:+ t) = (String.length s + String.length t)%nat.
Proof. induction s as [|c s IH]; simpl; [done | by rewrite IH]. Qed.

Lemma app_cons (c : ascii) (s t : string) : String c s +:+ t = String c (s +:+ t).
Proof. done. Qed.

Lemma app_assoc (s t u : string) : (s +:+ t) +:+ u = s +:+ (t +:+ u).
Proof. induction s as [|c s IH]; [done |]. by rewrite !app_cons, IH. Qed.


Lemma split_slash_nonempty (s : string) : Str.split_slash s <> [].
Proof.
  destruct s as [|c s]; [done |].
  cbn -[Ascii.eqb Str.slash].
  destruct (Ascii.eqb c Str.slash); [done |].
  by destruct (Str.split_slash s).
Qed.

(** A string with no slash is its own single segment. *)
Lemma split_slash_plain (t : string) :
  Str.contains Str.slash t = false -> Str.split_slash t = [t].
Proof.
  induction t as [|c t IH]; [done |].
  cbn -[Ascii.eqb Str.slash].
  intros Hno. apply orb_false_iff in Hno as [Hc Ht].
  rewrite Ascii.eqb_sym, Hc. by rewrite (IH Ht).
Qed.

(** Appending a string with no slash only lengthens the last segment. *)
Lemma split_slash_snoc (a t : string) :
  Str.contains Str.slash t = false ->
  Str.split_slash (a +:+ t)
  = (removelast (Str.split_slash a) ++ [List.last (Str.split_slash a) "" +:+ t])%list.
Proof.
  intros Hno. induction a as [|c a IH].
  - by apply split_slash_plain.
  - rewrite app_cons. cbn -[Ascii.eqb Str.slash].
    pose proof (split_slash_nonempty a) as Hne.
    destruct (Ascii.eqb c Str.slash).
    + rewrite IH. by destruct (Str.split_slash a).
    + rewrite IH. destruct (Str.split_slash a) as [|x [|y l]]; done.
Qed.

(** Decimal digits are no slashes. *)
Lemma pretty_N_go_no_slash (x : N) (s : string) :
  Str.contains Str.slash s = false ->
  Str.contains Str.slash (pretty_N_go x s) = false.
Proof.
  revert s. induction (N.lt_wf_0 x) as [x _ IH]; intros s Hs.
  destruct (decide (x = 0)%N) as [-> | Hpos].
  - by rewrite pretty_N_go_0.
  - rewrite pretty_N_go_step by lia.
    apply IH; [apply N.div_lt; lia |].
    cbn -[Ascii.eqb Str.slash]. rewrite Hs, orb_false_r.
    assert (x `mod` 10 < 10)%N as Hlt by (apply N.mod_lt; lia).
    destruct (x `mod` 10)%N as [|p]; [done |].
    do 4 (destruct p as [p | p |]; try done).
Qed.

Lemma pretty_Z_no_slash (k : Z) : Str.contains Str.slash (pretty k) = false.
Proof.
  unfold pretty, pretty_Z. destruct k as [|p|p]; [done | |].
  - unfold pretty, pretty_positive, pretty, pretty_N.
    case_decide; [done |]. by apply pretty_N_go_no_slash.
  - simpl. unfold pretty, pretty_positive, pretty, pretty_N.
    case_decide; [done |]. by apply pretty_N_go_no_slash.
Qed.

Lemma split_slash_segments_plain (s : string) :
  Forall (fun x => Str.contains Str.slash x = false) (Str.split_slash s).
Proof.
  induction s as [|c s IH]; [by repeat constructor |].
  cbn -[Ascii.eqb Str.slash].
  destruct (Ascii.eqb c Str.slash) eqn:Hc; [by constructor |].
  destruct (Str.split_slash s) as [|seg rest]; [by repeat constructor; cbn -[Ascii.eqb Str.slash]; rewrite Ascii.eqb_sym, Hc |].
  apply Forall_cons in IH as [Hseg Hrest]. constructor; [| done].
  cbn -[Ascii.eqb Str.slash]. by rewrite Ascii.eqb_sym, Hc, Hseg.
Qed.

Lemma split_slash_app_slash (x s : string) :
  Str.contains Str.slash x = false ->
  Str.split_slash (x +:+ String Str.slash s) = x :: Str.split_slash s.
Proof.
  induction x as [|c x IH]; [done |].
  cbn -[Ascii.eqb Str.slash]. intros Hplain.
  apply orb_false_iff in Hplain as [Hc Hx].
  rewrite app_cons. cbn -[Ascii.eqb Str.slash].
  rewrite Ascii.eqb_sym, Hc. by rewrite (IH Hx).
Qed.

(** Splitting what was joined gives the segments back. *)
Lemma split_slash_join_slash (l : list string) :
  l <> [] -> Forall (fun x => Str.contains Str.slash x = false) l ->
  Str.split_slash (Str.join_slash l) = l.
Proof.
  induction l as [|x l IH]; [done |]. intros _ Hall.
  apply Forall_cons in Hall as [Hx Hl].
  destruct l as [|y l]; [by apply split_slash_plain |].
  change (Str.join_slash (x :: y :: l))
    with (x +:+ String Str.slash (Str.join_slash (y :: l))).
  rewrite split_slash_app_slash by done. by rewrite IH.
Qed.

Lemma join_slash_snoc (l : list string) (x : string) :
  Str.join_slash (l ++ [x])%list
  = match l with
    | [] => x
    | _ => Str.join_slash l +:+ "/" +:+ x
    end.
Proof.
  induction l as [|y l IH]; [done |].
  destruct l as [|z l]; [done |].
  change (Str.join_slash ((y :: z :: l) ++ [x]))
    with (y +:+ String Str.slash (Str.join_slash ((z :: l) ++ [x]))).
  rewrite IH.
  change (Str.join_slash (y :: z :: l))
    with (y +:+ String Str.slash (Str.join_slash (z :: l))).
  by rewrite app_assoc.
Qed.

Lemma truthy_app (x y : string) :
  Str.truthy x = true -> Str.truthy (x +:+ y) = true.
Proof. by destruct x. Qed.

Lemma truthy_join_slash (l : list string) :
  l <> [] -> Forall (fun p => Str.truthy p = true) l ->
  Str.truthy (Str.join_slash l) = true.
Proof.
  destruct l as [|x l]; [done |]. intros _ Hall.
  apply Forall_cons in Hall as [Hx _].
  destruct l; [done | by apply truthy_app].
Qed.

Lemma app_nil_l (t : string) : "" +:+ t = t.
Proof. done. Qed.

(** Pushing an append inwards and unfolding one step, the tests on
    characters left as they are. *)
Ltac unroll :=
  rewrite ?app_cons, ?app_nil_l; cbn -[Ascii.eqb Str.slash] in *.

Lemma plain_not_absolute (t : string) :
  Str.contains Str.slash t = false -> Str.starts_with_slash t = false.
Proof.
  destruct t as [|c t]; [done |]. cbn -[Ascii.eqb Str.slash].
  intros Hno. apply orb_false_iff in Hno as [Hc _]. by rewrite Ascii.eqb_sym.
Qed.

Lemma lstrip_slash_relative (s : string) :
  Str.starts_with_slash s = false -> Str.lstrip_slash s = s.
Proof.
  destruct s as [|c s]; [done |]. cbn -[Ascii.eqb Str.slash]. by intros ->.
Qed.

Lemma truthy_nonempty (s : string) : Str.truthy s = true <-> s <> "".
Proof. by destruct s. Qed.

End StrFacts.

(** ** Paths *)

Module PathlibFacts.
Import Pathlib StrFacts.

Lemma is_prefix_iff (l1 l2 : list string) :
  is_prefix l1 l2 = true <-> exists rest, l2 = (l1 ++ rest)%list.
Proof.
  revert l2. induction l1 as [|x l1 IH]; intros l2; simpl.
  - split; [intros _; by exists l2 | done].
  - destruct l2 as [|y l2].
    + split; [done | intros [rest Hrest]; discriminate].
    + rewrite andb_true_iff, String.eqb_eq, IH. split.
      * intros [-> [rest ->]]. by exists rest.
      * intros [rest Hrest]. injection Hrest as -> ->. split; [done | by exists rest].
Qed.

(** [relative_to] succeeds exactly on the paths that are [other] or lie
    below it. *)
Lemma relative_to_within (p other : PurePath) :
  is_Some (relative_to p other) <-> within other p.
Proof.
  unfold relative_to, is_relative_to, within.
  destruct (String.eqb (root other) (root p)) eqn:Hroot; simpl.
  - apply String.eqb_eq in Hroot.
    destruct (is_prefix (tail other) (tail p)) eqn:Hpre.
    + apply is_prefix_iff in Hpre as [rest Hrest]. split; [intros _ | by eauto].
      exists rest. destruct p as [r t]; simpl in *. by subst.
    + split; [by intros [? ?] |].
      intros [rest ->]; simpl in *.
      assert (is_prefix (tail other) (tail other ++ rest) = true) as Hyes
        by (apply is_prefix_iff; by exists rest).
      congruence.
  - split; [by intros [? ?] |].
    intros [rest ->]; simpl in *. rewrite String.eqb_refl in Hroot. discriminate.
Qed.

Lemma relative_to_None_iff (p other : PurePath) :
  relative_to p other = None <-> ~ within other p.
Proof.
  rewrite <- relative_to_within. destruct (relative_to p other) as [q|]; split.
  - discriminate.
  - intros H. exfalso. apply H. by exists q.
  - intros _ [q Hq]. discriminate.
  - done.
Qed.

Lemma lstrip_slash_not_absolute (s : string) :
  Str.starts_with_slash (Str.lstrip_slash s) = false.
Proof.
  induction s as [|c s IH]; simpl; [done |].
  destruct (Ascii.eqb c Str.slash) eqn:Hc; [done | simpl; by rewrite Hc].
Qed.

Lemma parse_relative (s : string) :
  Str.starts_with_slash s = false -> root (parse s) = "".
Proof.
  unfold parse. destruct s as [|c s]; simpl; [done |].
  intros ->. done.
Qed.

(** Joining with a string that does not start with a slash never leaves
    the left operand: the components are appended to it. *)
Lemma joinpath_relative (p : PurePath) (s : string) :
  Str.starts_with_slash s = false ->
  joinpath p s = MkPath (root p) (tail p ++ tail (parse s)).
Proof.
  intros Hs. unfold joinpath. by rewrite (parse_relative s Hs).
Qed.

Lemma joinpath_empty (p : PurePath) : joinpath p "" = p.
Proof.
  destruct p as [r t]. unfold joinpath; simpl. by rewrite app_nil_r.
Qed.

Lemma within_refl (p : PurePath) : within p p.
Proof. exists []. destruct p; simpl. by rewrite app_nil_r. Qed.

Lemma within_trans (a b c : PurePath) : within a b -> within b c -> within a c.
Proof.
  intros [r1 ->] [r2 ->]; simpl. exists (r1 ++ r2)%list. by rewrite List.app_assoc.
Qed.

Lemma splitroot_relative (s : string) :
  Str.starts_with_slash s = false -> splitroot s = ("", s).
Proof.
  destruct s as [|c s]; [done |]. cbn -[Ascii.eqb Str.slash]. by intros ->.
Qed.

(** What the root of a string is, and where the rest starts, does not
    depend on what is appended to it, when that starts with no slash. *)
Lemma splitroot_app (a : string) :
  exists r a', forall t,
    t <> "" -> Str.starts_with_slash t = false ->
    splitroot (a +:+ t) = (r, a' +:+ t).
Proof.
  destruct a as [|c1 a1].
  { exists "", "". intros t _ Ht. by apply splitroot_relative. }
  destruct (Ascii.eqb c1 Str.slash) eqn:H1.
  2: { exists "", (String c1 a1). intros t _ _. unroll. by rewrite H1. }
  destruct a1 as [|c2 a2].
  { exists "/", "". intros [|c t] Hne Ht; [done |]. unroll. by rewrite H1, Ht. }
  destruct (Ascii.eqb c2 Str.slash) eqn:H2.
  2: { exists "/", (String c2 a2). intros t _ _. unroll. by rewrite H1, H2. }
  destruct a2 as [|c3 a3].
  { exists "//", "". intros [|c t] Hne Ht; [done |]. unroll.
    by rewrite H1, H2, Ht. }
  destruct (Ascii.eqb c3 Str.slash) eqn:H3.
  - exists "/", (String c2 (String c3 a3)). intros t _ _. unroll.
    by rewrite H1, H2, H3.
  - exists "//", (String c3 a3). intros t _ _. unroll. by rewrite H1, H2, H3.
Qed.

Lemma keep_long (x : string) :
  (2 <= String.length x)%nat -> keep_component x = true.
Proof.
  destruct x as [|c [|d x]]; simpl; [lia | lia |]. intros _.
  unfold keep_component. cbn. by destruct (Ascii.eqb c ".").
Qed.

(** Parsing a string that ends in a slash-free part of two characters or
    more: that part closes the last component. *)
Lemma parse_app_plain (a : string) :
  exists r front b, forall t,
    Str.contains Str.slash t = false -> (2 <= String.length t)%nat ->
    parse (a +:+ t) = MkPath r (front ++ [b +:+ t]).
Proof.
  destruct (splitroot_app a) as (r & a' & Hroot).
  exists r, (filter (fun x => keep_component x = true)
                    (removelast (Str.split_slash a'))),
         (List.last (Str.split_slash a') "").
  intros t Hplain Hlen. unfold parse.
  rewrite Hroot;
    [| intros ->; simpl in Hlen; lia | by apply plain_not_absolute].
  rewrite split_slash_snoc by done.
  rewrite filter_app, filter_cons_True; [done |].
  apply keep_long. rewrite length_app. lia.
Qed.

Lemma name_joinpath_app (p : PurePath) (a : string) :
  exists b, forall t,
    Str.contains Str.slash t = false -> (2 <= String.length t)%nat ->
    name (joinpath p (a +:+ t)) = b +:+ t.
Proof.
  destruct (parse_app_plain a) as (r & front & b & Hparse).
  exists b. intros t Hplain Hlen. unfold joinpath, name.
  rewrite (Hparse t Hplain Hlen). simpl.
  destruct (Str.truthy r); simpl; [apply last_last |].
  rewrite List.app_assoc. apply last_last.
Qed.

(** A slash-free name that is kept as a component is appended as it is. *)
Lemma joinpath_plain (p : PurePath) (s : string) :
  Str.contains Str.slash s = false -> keep_component s = true ->
  joinpath p s = MkPath (root p) (tail p ++ [s]).
Proof.
  intros Hplain Hkeep. unfold joinpath, parse.
  rewrite splitroot_relative by (by apply plain_not_absolute).
  rewrite split_slash_plain by done. simpl.
  by rewrite filter_cons_True, filter_nil.
Qed.

Lemma parent_joinpath_plain (p : PurePath) (s : string) :
  Str.contains Str.slash s = false -> keep_component s = true ->
  parent (joinpath p s) = p /\ name (joinpath p s) = s.
Proof.
  intros Hplain Hkeep. rewrite joinpath_plain by done.
  unfold parent, name; simpl. rewrite removelast_last, last_last.
  by destruct p.
Qed.

End PathlibFacts.

(** ** The sandbox resolver *)

Module Sandbox.
Import Pathlib World Main StrFacts PathlibFacts.

(** *** What the resolver makes of the client's path *)

Lemma keep_component_iff (x : string) :
  keep_component x = true <-> x <> "" /\ x <> ".".
Proof.
  unfold keep_component.
  rewrite andb_true_iff, !negb_true_iff, !String.eqb_neq. done.
Qed.

Lemma split_slash_cons_slash (s : string) :
  Str.split_slash (String Str.slash s) = "" :: Str.split_slash s.
Proof. done. Qed.

Lemma filter_kept_nil (l : list string) :
  filter (fun x => keep_component x = true) ("" :: l)
  = filter (fun x => keep_component x = true) l.
Proof. by rewrite filter_cons_False. Qed.

Lemma eqb_slash (c : ascii) : Ascii.eqb c Str.slash = true -> c = Str.slash.
Proof. apply Ascii.eqb_eq. Qed.

(** Whatever root the string has, the components [Path] keeps are the
    segments of the whole string. *)
Lemma tail_parse (s : string) : tail (parse s) = segments s.
Proof.
  unfold segments.
  assert (forall l, filter (fun x => x <> "" /\ x <> ".") l
                    = filter (fun x => keep_component x = true) l) as ->
    by (intros l; apply list_filter_iff; intros x; symmetry;
        apply keep_component_iff).
  unfold parse.
  destruct s as [|c1 s1]; [done |].
  cbn -[Ascii.eqb Str.slash Str.split_slash filter].
  destruct (Ascii.eqb c1 Str.slash) eqn:H1; [| done].
  apply eqb_slash in H1 as ->. rewrite split_slash_cons_slash, filter_kept_nil.
  destruct s1 as [|c2 s2]; [done |].
  destruct (Ascii.eqb c2 Str.slash) eqn:H2; [| done].
  apply eqb_slash in H2 as ->.
  destruct (Str.starts_with_slash s2); [done |].
  cbn -[Ascii.eqb Str.slash Str.split_slash filter].
  by rewrite split_slash_cons_slash, filter_kept_nil.
Qed.

Lemma root_parse (s : string) :
  root (parse s) = "" \/ root (parse s) = "/" \/ root (parse s) = "//".
Proof.
  unfold parse. destruct s as [|c1 s1]; [by left |].
  cbn -[Ascii.eqb Str.slash Str.split_slash filter].
  destruct (Ascii.eqb c1 Str.slash); [| by left].
  destruct s1 as [|c2 s2]; [right; by left |].
  destruct (Ascii.eqb c2 Str.slash); [| right; by left].
  destruct (Str.starts_with_slash s2); [right; by left | right; by right].
Qed.

(** The segments are kept components with no slash in them. *)
Lemma segments_kept (s : string) :
  Forall (fun x => keep_component x = true) (segments s)
  /\ Forall (fun x => Str.contains Str.slash x = false) (segments s).
Proof.
  unfold segments. split; apply Forall_forall; intros x Hx;
    apply list_elem_of_filter in Hx as [Hkeep Hin].
  - by apply keep_component_iff.
  - pose proof (split_slash_segments_plain s) as Hall.
    rewrite Forall_forall in Hall. by apply Hall.
Qed.

Lemma join_slash_relative (l : list string) :
  Forall (fun x => keep_component x = true) l ->
  Forall (fun x => Str.contains Str.slash x = false) l ->
  Str.starts_with_slash (Str.join_slash l) = false.
Proof.
  destruct l as [|x l]; [done |]. intros Hkept Hall.
  apply Forall_cons in Hall as [Hx _].
  apply Forall_cons in Hkept as [Hk _].
  destruct l as [|y l]; [by apply plain_not_absolute |].
  change (Str.join_slash (x :: y :: l))
    with (x +:+ String Str.slash (Str.join_slash (y :: l))).
  destruct x as [|c x]; [done |]. unroll.
  apply orb_false_iff in Hx as [Hc _]. by rewrite Ascii.eqb_sym.
Qed.

(** The cleaned path: the segments joined by slashes, a single dot or
    nothing when there is no segment. *)
Lemma clean_cases (s : string) :
  let clean_path := Str.lstrip_slash (as_posix (parse s)) in
  (segments s = [] /\ (clean_path = "" \/ clean_path = "."))
  \/ (segments s <> [] /\ clean_path = Str.join_slash (segments s)).
Proof.
  cbv zeta. unfold as_posix. rewrite tail_parse.
  destruct (segments_kept s) as [Hkept Hplain].
  pose proof (join_slash_relative _ Hkept Hplain) as Hrel.
  destruct (segments s) as [|x l] eqn:Hsegs.
  - left. split; [done |].
    destruct (root_parse s) as [-> | [-> | ->]]; [by right | by left | by left].
  - right. split; [done |].
    destruct (root_parse s) as [-> | [-> | ->]].
    + by rewrite lstrip_slash_relative.
    + unroll. by rewrite lstrip_slash_relative.
    + unroll. by rewrite lstrip_slash_relative.
Qed.

(** Parsing the joined segments gives them back, under no root. *)
Lemma parse_join_slash (l : list string) :
  l <> [] ->
  Forall (fun x => keep_component x = true) l ->
  Forall (fun x => Str.contains Str.slash x = false) l ->
  parse (Str.join_slash l) = MkPath "" l.
Proof.
  intros Hne Hkept Hplain. unfold parse.
  rewrite splitroot_relative by (by apply join_slash_relative).
  rewrite split_slash_join_slash by done. f_equal.
  clear Hne Hplain. induction Hkept as [|x l Hx _ IH]; [done |].
  by rewrite filter_cons_True, IH.
Qed.

(** Whichever branch the resolver takes, the path it resolves is the
    root with the segments of the client's path after it. *)
Lemma candidate_is_joined (root : PurePath) (s : string) :
  let clean_path := Str.lstrip_slash (as_posix (parse s)) in
  (if Str.truthy clean_path then joinpath root clean_path else root)
  = joined root s.
Proof.
  cbv zeta. unfold joined.
  destruct (segments_kept s) as [Hkept Hplain].
  destruct (clean_cases s) as [[Hnil [-> | ->]] | [Hne ->]].
  - rewrite Hnil, app_nil_r. by destruct root.
  - rewrite Hnil. unfold joinpath. simpl. done.
  - rewrite truthy_join_slash.
    + unfold joinpath. by rewrite parse_join_slash.
    + done.
    + eapply Forall_impl; [exact Hkept |].
      intros x Hx. apply keep_component_iff in Hx as [Hx _].
      by apply truthy_nonempty.
Qed.

Section Resolver.
Variable pf : platform.
Variable BROWSE_ROOT : PurePath.

(** The resolver in closed form: the candidate is resolved first, and
    its failure is the call's; then the root is resolved, a [ValueError]
    there being taken for a path outside the root; then the two are
    compared. *)
Lemma get_safe_browse_path_closed (relative_path : string) (w : world) :
  get_safe_browse_path pf BROWSE_ROOT relative_path w
  = let candidate := joined BROWSE_ROOT relative_path in
    match realpath pf candidate with
    | inl e =>
        (inl (Unhandled e),
         MkWorld (files w) (trace w ++ [Resolve candidate]))
    | inr full_path =>
        (match realpath pf BROWSE_ROOT with
         | inr root =>
             match relative_to full_path root with
             | Some _ => inr full_path
             | None => inl (Http PathOutsideBrowseRoot)
             end
         | inl (Py.ValueError _) => inl (Http PathOutsideBrowseRoot)
         | inl e => inl (Unhandled e)
         end,
         MkWorld (files w)
                 (trace w ++ [Resolve candidate; Resolve BROWSE_ROOT]))
    end.
Proof.
  cbv zeta. unfold get_safe_browse_path.
  assert (forall b : bool,
            (if b then resolve pf (joinpath BROWSE_ROOT
                                     (Str.lstrip_slash (as_posix (parse relative_path))))
             else resolve pf BROWSE_ROOT)
            = resolve pf (if b then joinpath BROWSE_ROOT
                                      (Str.lstrip_slash
                                         (as_posix (parse relative_path)))
                          else BROWSE_ROOT)) as -> by (by intros []).
  rewrite candidate_is_joined.
  unfold bind, unhandled, resolve, log, lift, bind; simpl.
  destruct (realpath pf (joined BROWSE_ROOT relative_path)) as [e | full_path];
    [done |].
  destruct (realpath pf BROWSE_ROOT) as [e | root]; simpl;
    rewrite <- ?List.app_assoc; simpl; [by destruct e |].
  by destruct (relative_to full_path root).
Qed.

(** When the resolver returns. *)
Lemma get_safe_browse_path_returns (relative_path : string) (w : world)
  (p : PurePath) :
  fst (get_safe_browse_path pf BROWSE_ROOT relative_path w) = inr p
  <-> realpath pf (joined BROWSE_ROOT relative_path) = inr p
      /\ exists root, realpath pf BROWSE_ROOT = inr root /\ within root p.
Proof.
  rewrite get_safe_browse_path_closed. cbv zeta.
  destruct (realpath pf (joined BROWSE_ROOT relative_path)) as [e | c]; simpl.
  { split; [done | by intros [? _]]. }
  destruct (realpath pf BROWSE_ROOT) as [e | root].
  { split; [by destruct e | by intros (_ & ? & ? & _)]. }
  destruct (relative_to c root) as [q |] eqn:Hrel.
  - assert (within root c)
      by (apply relative_to_within; rewrite Hrel; by exists q).
    split.
    + intros [= <-]. split; [done |]. by exists root.
    + by intros [[= <-] _].
  - assert (~ within root c) as Hout by (by apply relative_to_None_iff).
    split; [done |].
    intros [[= <-] (root' & [= <-] & Hin)]. by destruct Hout.
Qed.

(** C1, as the code has it.  The resolver resolves the root with the
    segments of the client's path after it (leading slashes, empty
    segments and single dots dropped).  When that resolution and the resolution of the root both
    return, it returns the resolved candidate exactly when the candidate
    is the resolved root or lies below it, and raises the 403 "path
    outside root" otherwise; it returns a path in no other case.  When
    the resolution of the candidate raises, the call raises the same,
    uncaught; when that of the root raises, a [ValueError] is taken for
    the 403 and anything else is raised uncaught. *)
Theorem get_safe_browse_path_accepts_iff_within
  (relative_path : string) (w : world) :
  let candidate := joined BROWSE_ROOT relative_path in
  let r := fst (get_safe_browse_path pf BROWSE_ROOT relative_path w) in
  (forall p, r = inr p <->
     realpath pf candidate = inr p
     /\ exists root, realpath pf BROWSE_ROOT = inr root /\ within root p)
  /\ (forall c root,
        realpath pf candidate = inr c -> realpath pf BROWSE_ROOT = inr root ->
        (r = inr c <-> within root c)
        /\ (r = inl (Http PathOutsideBrowseRoot) <-> ~ within root c)
        /\ (r = inr c \/ r = inl (Http PathOutsideBrowseRoot)))
  /\ (forall e, realpath pf candidate = inl e -> r = inl (Unhandled e))
  /\ (forall c e,
        realpath pf candidate = inr c -> realpath pf BROWSE_ROOT = inl e ->
        r = match e with
            | Py.ValueError _ => inl (Http PathOutsideBrowseRoot)
            | _ => inl (Unhandled e)
            end)
  /\ status_code PathOutsideBrowseRoot = 403.
Proof.
  intros candidate r. subst r.
  rewrite get_safe_browse_path_closed. cbv zeta. fold candidate.
  destruct (realpath pf candidate) as [e | c] eqn:Hc; simpl.
  { split; [intros p; split; [done | by intros [? _]] |].
    split; [done |]. split; [by intros ? [= <-] |]. by split. }
  destruct (realpath pf BROWSE_ROOT) as [e | root] eqn:Hroot.
  { split.
    - intros p. split; [by destruct e | by intros (_ & ? & ? & _)].
    - split; [done |]. split; [done |]. split; [| done].
      by intros ? ? [= <-] [= <-]. }
  destruct (relative_to c root) as [q |] eqn:Hrel.
  - assert (within root c) as Hin
      by (apply relative_to_within; rewrite Hrel; by exists q).
    split.
    { intros p. split.
      - intros [= <-]. split; [done |]. by exists root.
      - by intros [[= <-] _]. }
    split; [| by repeat split].
    intros ? ? [= <-] [= <-]. split; [done |].
    split; [| by left]. split; [done | intros Hout; by destruct Hout].
  - assert (~ within root c) as Hout by (by apply relative_to_None_iff).
    split.
    { intros p. split; [done |].
      intros [[= <-] (root' & [= <-] & Hin)]. by destruct Hout. }
    split; [| by repeat split].
    intros ? ? [= <-] [= <-]. split; [by split |].
    split; [done | by right].
Qed.

(** The resolver and the trace: the world's files are as they were, and
    the calls made are resolutions. *)
Lemma get_safe_browse_path_frame (relative_path : string) (w : world) :
  exists tr,
    snd (get_safe_browse_path pf BROWSE_ROOT relative_path w)
    = MkWorld (files w) (trace w ++ tr)
    /\ Forall (fun ev => exists p, ev = Resolve p) tr.
Proof.
  rewrite get_safe_browse_path_closed. cbv zeta.
  destruct (realpath pf _) as [e | c]; simpl.
  - eexists. split; [done |]. repeat constructor. by eexists.
  - eexists. split; [done |]. repeat constructor; by eexists.
Qed.

End Resolver.

Section Gallery.
Variable pf : platform.
Variable BROWSE_ROOT : PurePath.

(** The gallery resolver runs the browse resolver twice. *)
Lemma get_safe_gallery_path_phases (relative_path gallery_root : string)
  (w : world) :
  get_safe_gallery_path pf BROWSE_ROOT relative_path gallery_root w
  = (if negb (Str.truthy gallery_root) then (inl (Http GalleryNotSelected), w)
     else
       match get_safe_browse_path pf BROWSE_ROOT gallery_root w with
       | (inl e, w1) => (inl e, w1)
       | (inr gallery_base, w1) =>
           match get_safe_browse_path pf gallery_base relative_path w1 with
           | (inr full_path, w2) => (inr (full_path, gallery_base), w2)
           | (inl (Http _), w2) => (inl (Http PathOutsideGalleryRoot), w2)
           | (inl (Unhandled e), w2) => (inl (Unhandled e), w2)
           end
       end).
Proof.
  unfold get_safe_gallery_path.
  destruct (Str.truthy gallery_root); simpl; [| done].
  unfold bind at 1.
  destruct (get_safe_browse_path pf BROWSE_ROOT gallery_root w)
    as [[e | gallery_base] w1]; [done |].
  unfold get_safe_browse_path.
  assert (forall b : bool,
            (if b then resolve pf (joinpath gallery_base
                                     (Str.lstrip_slash
                                        (as_posix (parse relative_path))))
             else resolve pf gallery_base)
            = resolve pf (if b then joinpath gallery_base
                                      (Str.lstrip_slash
                                         (as_posix (parse relative_path)))
                          else gallery_base)) as -> by (by intros []).
  unfold bind, unhandled, resolve, log, lift, bind; simpl.
  destruct (realpath pf (if Str.truthy _ then _ else _))
    as [e | full_path]; [done |].
  destruct (realpath pf gallery_base) as [e | base]; simpl;
    [by destruct e |].
  by destruct (relative_to full_path base).
Qed.

(** Resolving a gallery path changes no file and only resolves paths;
    when it returns, the path lies at or below the resolved gallery
    base, and the gallery base at or below the resolved browse root. *)
Lemma get_safe_gallery_path_outcome (relative_path gallery_root : string)
  (w : world) :
  let call := get_safe_gallery_path pf BROWSE_ROOT relative_path gallery_root w in
  exists tr,
    snd call = MkWorld (files w) (trace w ++ tr)
    /\ Forall (fun ev => exists p, ev = Resolve p) tr
    /\ forall full_path gallery_base,
         fst call = inr (full_path, gallery_base) ->
         (exists base, realpath pf gallery_base = inr base
                       /\ within base full_path)
         /\ (exists root, realpath pf BROWSE_ROOT = inr root
                          /\ within root gallery_base).
Proof.
  cbv zeta. rewrite get_safe_gallery_path_phases.
  destruct (Str.truthy gallery_root); simpl.
  2: { exists []. rewrite app_nil_r. destruct w. by repeat split. }
  destruct (get_safe_browse_path_frame pf BROWSE_ROOT gallery_root w)
    as (tr1 & Hw1 & Hr1).
  pose proof (get_safe_browse_path_returns pf BROWSE_ROOT gallery_root w)
    as Hone.
  destruct (get_safe_browse_path pf BROWSE_ROOT gallery_root w)
    as [[e | gallery_base] w1]; simpl in Hw1, Hone; subst w1.
  { exists tr1. by repeat split. }
  destruct (Hone gallery_base) as [Hfwd _].
  destruct (Hfwd eq_refl) as [_ Hbase].
  set (w1 := MkWorld (files w) (trace w ++ tr1)).
  destruct (get_safe_browse_path_frame pf gallery_base relative_path w1)
    as (tr2 & Hw2 & Hr2).
  pose proof (get_safe_browse_path_returns pf gallery_base relative_path w1)
    as Htwo.
  destruct (get_safe_browse_path pf gallery_base relative_path w1)
    as [[[e | e] | full_path] w2]; simpl in Hw2, Htwo; subst w2; simpl;
    exists (tr1 ++ tr2)%list; rewrite <- List.app_assoc;
    (split; [done |]); (split; [by apply Forall_app |]); try done.
  intros ? ? [= <- <-].
  destruct (Htwo full_path) as [Hfwd2 _].
  destruct (Hfwd2 eq_refl) as [_ Hin]. done.
Qed.

(** C3. Gallery-scoped resolution: an empty gallery root raises
    "no gallery selected" and leaves the world, its trace included,
    untouched; otherwise the gallery root is resolved against the browse
    root, the requested path is resolved by the same function with the
    resolved gallery root in the place of the browse root (its 403
    reworded, its uncaught exceptions the same), and the call returns
    only when both return: exactly when the gallery root's candidate
    resolves to a path at or below the resolved browse root, and the
    requested path's candidate, built on that path, resolves to a path
    at or below what that path resolves to. *)
Theorem get_safe_gallery_path_two_phase
  (relative_path gallery_root : string) (w : world) :
  get_safe_gallery_path pf BROWSE_ROOT relative_path gallery_root w
  = (if negb (Str.truthy gallery_root) then (inl (Http GalleryNotSelected), w)
     else
       match get_safe_browse_path pf BROWSE_ROOT gallery_root w with
       | (inl e, w1) => (inl e, w1)
       | (inr gallery_base, w1) =>
           match get_safe_browse_path pf gallery_base relative_path w1 with
           | (inr full_path, w2) => (inr (full_path, gallery_base), w2)
           | (inl (Http _), w2) => (inl (Http PathOutsideGalleryRoot), w2)
           | (inl (Unhandled e), w2) => (inl (Unhandled e), w2)
           end
       end)
  /\ (forall full_path gallery_base,
        fst (get_safe_gallery_path pf BROWSE_ROOT relative_path gallery_root w)
        = inr (full_path, gallery_base)
        <-> gallery_root <> ""
            /\ realpath pf (joined BROWSE_ROOT gallery_root) = inr gallery_base
            /\ (exists root, realpath pf BROWSE_ROOT = inr root
                             /\ within root gallery_base)
            /\ realpath pf (joined gallery_base relative_path) = inr full_path
            /\ (exists base, realpath pf gallery_base = inr base
                             /\ within base full_path))
  /\ (gallery_root = "" ->
      get_safe_gallery_path pf BROWSE_ROOT relative_path gallery_root w
      = (inl (Http GalleryNotSelected), w))
  /\ status_code GalleryNotSelected = 400
  /\ status_code PathOutsideGalleryRoot = 403.
Proof.
  pose proof (get_safe_gallery_path_phases relative_path gallery_root w)
    as Hphases.
  split; [exact Hphases |].
  split; [| split; [| done]].
  2: { intros ->. by rewrite Hphases. }
  intros full_path gallery_base. rewrite Hphases.
  destruct (Str.truthy gallery_root) eqn:Hroot; simpl.
  2: { split; [done |]. intros [Hne _].
       apply truthy_nonempty in Hne. congruence. }
  apply truthy_nonempty in Hroot.
  pose proof (get_safe_browse_path_returns pf BROWSE_ROOT gallery_root w)
    as Hone.
  destruct (get_safe_browse_path pf BROWSE_ROOT gallery_root w)
    as [[e | base1] w1]; simpl in Hone.
  { split; [done |]. intros (_ & Hbase & Hin & _).
    destruct (Hone gallery_base) as [_ Hback].
    by specialize (Hback (conj Hbase Hin)). }
  pose proof (get_safe_browse_path_returns pf base1 relative_path w1)
    as Htwo.
  destruct (get_safe_browse_path pf base1 relative_path w1)
    as [[[e | e] | full1] w2]; simpl in Htwo; simpl.
  - split; [done |]. intros (_ & Hbase & Hin & Hfull & Hin2).
    assert (base1 = gallery_base) as ->
      by (assert (inr base1 = (inr gallery_base : Py.res failure PurePath))
            as [= ->] by (by apply Hone); done).
    destruct (Htwo full_path) as [_ Hback].
    by specialize (Hback (conj Hfull Hin2)).
  - split; [done |]. intros (_ & Hbase & Hin & Hfull & Hin2).
    assert (base1 = gallery_base) as ->
      by (assert (inr base1 = (inr gallery_base : Py.res failure PurePath))
            as [= ->] by (by apply Hone); done).
    destruct (Htwo full_path) as [_ Hback].
    by specialize (Hback (conj Hfull Hin2)).
  - split.
    + intros [= <- <-].
      destruct (Hone base1) as [Hfwd _]. destruct (Hfwd eq_refl) as [? ?].
      destruct (Htwo full1) as [Hfwd2 _]. destruct (Hfwd2 eq_refl) as [? ?].
      done.
    + intros (_ & Hbase & Hin & Hfull & Hin2).
      assert (base1 = gallery_base) as ->
        by (assert (inr base1 = (inr gallery_base : Py.res failure PurePath))
              as [= ->] by (by apply Hone); done).
      assert (inr full1 = (inr full_path : Py.res failure PurePath))
        as [= ->] by (by apply Htwo).
      done.
Qed.

End Gallery.

End Sandbox.

(** ** The operations of the edit pipeline *)

Module Operations.
Import Pathlib World PIL ImageProcessor.

Lemma get_present (op : operation) (k : string) (v : Py.value) :
  op !! k = Some v -> Py.get op k = v.
Proof. unfold Py.get. by intros ->. Qed.

(** Selecting the branch of [apply_operation] by the operation's type. *)
Ltac pick_branch Htype :=
  unfold apply_operation; cbv zeta; rewrite (get_present _ _ _ Htype);
  repeat first
    [ rewrite bool_decide_eq_true_2 by reflexivity
    | rewrite bool_decide_eq_false_2 by discriminate ].

Lemma get_or_absent (op : operation) (k : string) (dflt : Py.value) :
  op !! k = None -> Py.get_or op k dflt = dflt.
Proof. unfold Py.get_or. by intros ->. Qed.

Lemma get_or_present (op : operation) (k : string) (dflt v : Py.value) :
  op !! k = Some v -> Py.get_or op k dflt = v.
Proof. unfold Py.get_or. by intros ->. Qed.

Lemma get_or_int (op : operation) (k : string) (dflt : Z) :
  int_or_absent op k ->
  Py.get_or op k (Py.VInt dflt) = Py.VInt (param op k dflt).
Proof.
  unfold Py.get_or, param. by intros [-> | [n ->]].
Qed.

Section WithCodec.
Variable cd : codec.

(** *** Flip *)

Lemma transpose_flip_left_right (im : image) :
  width (mirror im) = width im /\ height (mirror im) = height im
  /\ forall x y, getpixel (mirror im) x y = getpixel im (width im - 1 - x) y.
Proof. done. Qed.

Lemma transpose_flip_top_bottom (im : image) :
  width (flip im) = width im /\ height (flip im) = height im
  /\ forall x y, getpixel (flip im) x y = getpixel im x (height im - 1 - y).
Proof. done. Qed.

(** C10. A flip whose direction is omitted is no error: it mirrors the
    image left to right, as "horizontal" does; "vertical" mirrors it top
    to bottom; only a direction that is present and is neither of the
    two raises the validation error. *)
Theorem flip_direction_defaults_to_horizontal (op : operation) (im : image) :
  op !! "type" = Some (Py.VStr "flip") ->
  (op !! "direction" = None -> apply_operation cd op im = inr (mirror im))
  /\ (op !! "direction" = Some (Py.VStr "horizontal") ->
      apply_operation cd op im = inr (mirror im))
  /\ (op !! "direction" = Some (Py.VStr "vertical") ->
      apply_operation cd op im = inr (flip im))
  /\ (forall v, op !! "direction" = Some v ->
      v <> Py.VStr "horizontal" -> v <> Py.VStr "vertical" ->
      apply_operation cd op im
      = inl (Py.ValueError ("Unknown flip direction: " +:+ Py.str v)))
  /\ (forall e, apply_operation cd op im = inl e ->
      exists v, op !! "direction" = Some v
                /\ v <> Py.VStr "horizontal" /\ v <> Py.VStr "vertical")
  /\ (width (mirror im) = width im /\ height (mirror im) = height im
      /\ forall x y, getpixel (mirror im) x y = getpixel im (width im - 1 - x) y).
Proof.
  intros Htype.
  repeat apply conj.
  - intros Hdir. pick_branch Htype. by rewrite (get_or_absent _ _ _ Hdir).
  - intros Hdir. pick_branch Htype. by rewrite (get_or_present _ _ _ _ Hdir).
  - intros Hdir. pick_branch Htype. by rewrite (get_or_present _ _ _ _ Hdir).
  - intros v Hdir Hh Hv. pick_branch Htype.
    rewrite (get_or_present _ _ _ _ Hdir).
    by rewrite !bool_decide_eq_false_2.
  - intros e. pick_branch Htype.
    destruct (op !! "direction") as [v|] eqn:Hdir.
    + rewrite (get_or_present _ _ _ v Hdir).
      repeat case_bool_decide; try discriminate.
      intros _. by exists v.
    + rewrite (get_or_absent _ _ _ Hdir). discriminate.
  - done.
  - done.
  - done.
Qed.

End WithCodec.

Lemma flip_direction_defaults_to_horizontal_witness :
  apply_operation Fixture.codec Fixture.flip_plain (Fixture.image_of 4 3)
  = inr (mirror (Fixture.image_of 4 3)).
Proof.
  pose proof (flip_direction_defaults_to_horizontal Fixture.codec
                Fixture.flip_plain (Fixture.image_of 4 3) eq_refl) as [H _].
  exact (H eq_refl).
Defined.

End Operations.

(** ** The pipeline as a whole *)

Module PipelineFacts.
Import Pathlib World PIL ImageProcessor.

Lemma apply_operations_app (cd : codec) (ops1 ops2 : list operation) (im : image) :
  apply_operations cd (ops1 ++ ops2) im
  = Py.bind (apply_operations cd ops1 im) (apply_operations cd ops2).
Proof.
  revert im. induction ops1 as [|op ops1 IH]; intros im; simpl; [done |].
  destruct (apply_operation cd op im) as [e | im']; simpl; [done | apply IH].
Qed.

(** A failing operation fails the whole loop, whatever follows it. *)
Lemma apply_operations_fails_at (cd : codec) (pre post : list operation)
  (op : operation) (im im' : image) (e : Py.exn) :
  apply_operations cd pre im = inr im' ->
  apply_operation cd op im' = inl e ->
  apply_operations cd (pre ++ op :: post) im = inl e.
Proof.
  intros Hpre Hop. rewrite apply_operations_app, Hpre. simpl. by rewrite Hop.
Qed.

(** A call that changes nothing lands on no place. *)
Lemma not_write_not_touch (pf : platform) (k : PurePath) (ev : event) :
  is_write ev = false -> touches pf k ev = false.
Proof. by destruct ev. Qed.

(** A path that [exists()] reports absent denotes no place that holds a
    file. *)
Lemma absent_place (pf : platform) (fs : gmap PurePath content)
  (p k : PurePath) :
  exists_says pf fs p = inr false -> locate pf p = File k -> fs !! k = None.
Proof.
  unfold exists_says. intros Hsays Hk. rewrite Hk in Hsays.
  injection Hsays as Hsays. apply bool_decide_eq_false in Hsays.
  by apply eq_None_not_Some.
Qed.

Lemma present_place (pf : platform) (fs : gmap PurePath content)
  (p k : PurePath) :
  locate pf p = File k -> is_Some (fs !! k) -> exists_says pf fs p = inr true.
Proof.
  unfold exists_says. intros -> Hk. by rewrite bool_decide_eq_true_2.
Qed.

Section WithEnvironment.
Variable cd : codec.
Variable pf : platform.
Variable HAS_RAWPY : bool.

(** Reading a file changes no file; it returns the bytes at the place the
    path denotes, and only when a file is there. *)
Lemma read_file_frame (p : PurePath) (w : world) :
  snd (read_file pf p w) = MkWorld (files w) (trace w ++ [OpenRead p])
  /\ forall data, fst (read_file pf p w) = inr data ->
       exists k, locate pf p = File k /\ files w !! k = Some data
                 /\ may_read pf k = true.
Proof.
  unfold read_file, log, bind; simpl.
  destruct (locate pf p) as [k | | e |]; simpl; try done.
  destruct (files w !! k) as [c |] eqn:Hk; simpl; [| done].
  destruct (may_read pf k) eqn:Hread; simpl; [| done].
  split; [done |]. intros data [= <-]. by exists k.
Qed.

(** Loading reads at most the source and changes no file; when it
    returns, the source path denotes a file that is there. *)
Lemma load_frame (file_path : PurePath) (w : world) :
  exists tr,
    snd (load cd pf HAS_RAWPY file_path w) = MkWorld (files w) (trace w ++ tr)
    /\ Forall (fun ev => is_write ev = false) tr
    /\ (forall im, fst (load cd pf HAS_RAWPY file_path w) = inr im ->
        exists source, locate pf file_path = File source
                       /\ is_Some (files w !! source)).
Proof.
  destruct (read_file_frame file_path w) as [Hw Hdata].
  unfold load.
  destruct (bool_decide _); [destruct (negb HAS_RAWPY) |].
  - exists []. simpl. rewrite app_nil_r. destruct w. by repeat split.
  - exists [OpenRead file_path]. unfold lift, bind.
    destruct (read_file pf file_path w) as [[e | data] w1];
      simpl in Hw, Hdata; subst w1; simpl;
      (split; [done | split; [by repeat constructor |]]); [done |].
    intros _ _. destruct (Hdata data eq_refl) as (k & Hk & Hthere & _).
    exists k. by rewrite Hthere.
  - exists [OpenRead file_path]. unfold lift, bind.
    destruct (read_file pf file_path w) as [[e | data] w1];
      simpl in Hw, Hdata; subst w1; simpl;
      [split; [done | split; [by repeat constructor | done]] |].
    destruct (Hdata data eq_refl) as (k & Hk & Hthere & _).
    destruct (open_image cd data); simpl;
      (split; [done | split; [by repeat constructor |]]); [done |].
    intros _ _. exists k. by rewrite Hthere.
Qed.

(** The naming loop changes no file.  When it returns a path, that path
    is the first of the paths it tries in turn that [exists()] reports
    absent; when it raises, it raises what [exists()] raised on the first
    path it did not report present; when the tests are used up, every
    path tried was reported present. *)
Lemma find_free_sound (fuel : nat) (file_path : PurePath)
  (output_prefix stem output_suffix : string) :
  forall (output_path : PurePath) (counter : Z) (w : world),
  exists tr,
    snd (find_free pf fuel file_path output_prefix stem output_suffix
                   output_path counter w)
    = MkWorld (files w) (trace w ++ tr)
    /\ Forall (fun ev => is_write ev = false) tr
    /\ match fst (find_free pf fuel file_path output_prefix stem output_suffix
                            output_path counter w) with
       | inl e =>
           exists n, (n < fuel)%nat
             /\ exists_says pf (files w)
                  (tried file_path output_prefix stem output_suffix
                         output_path counter n) = inl e
             /\ forall m, (m < n)%nat ->
                  exists_says pf (files w)
                    (tried file_path output_prefix stem output_suffix
                           output_path counter m) = inr true
       | inr None =>
           forall m, (m < fuel)%nat ->
             exists_says pf (files w)
               (tried file_path output_prefix stem output_suffix
                      output_path counter m) = inr true
       | inr (Some out) =>
           exists n, (n < fuel)%nat
             /\ out = tried file_path output_prefix stem output_suffix
                            output_path counter n
             /\ exists_says pf (files w) out = inr false
             /\ forall m, (m < n)%nat ->
                  exists_says pf (files w)
                    (tried file_path output_prefix stem output_suffix
                           output_path counter m) = inr true
       end.
Proof.
  induction fuel as [|fuel IH]; intros output_path counter w.
  - exists []. simpl. rewrite app_nil_r. destruct w.
    repeat split; [done | intros m Hm; lia].
  - simpl. unfold path_exists, log, bind; simpl.
    destruct (exists_says pf (files w) output_path) as [e | [|]] eqn:Hsays.
    + exists [Stat output_path]. simpl.
      split; [done | split; [by repeat constructor |]].
      exists 0%nat. repeat split; [lia | done | intros m Hm; lia].
    + set (w1 := MkWorld (files w) (trace w ++ [Stat output_path])).
      set (next := joinpath (parent file_path)
                     (numbered_name output_prefix stem output_suffix counter)).
      destruct (IH next (counter + 1) w1) as (tr & Hw & Htr & Hres).
      exists (Stat output_path :: tr).
      split; [| split].
      * rewrite Hw. simpl. by rewrite <- List.app_assoc.
      * by constructor.
      * assert (forall m, tried file_path output_prefix stem output_suffix
                                next (counter + 1) m
                          = tried file_path output_prefix stem output_suffix
                                  output_path counter (S m)) as Hshift.
        { intros [|m]; [simpl; by rewrite Z.add_0_r |].
          unfold tried.
          by replace (counter + 1 + Z.of_nat m) with (counter + Z.of_nat (S m)) by lia. }
        simpl in Hres.
        destruct (fst (find_free pf fuel _ _ _ _ next (counter + 1) w1))
          as [e | [out |]].
        -- destruct Hres as (n & Hn & Hraise & Hbefore).
           exists (S n). repeat split; [lia | by rewrite <- Hshift |].
           intros [|m] Hm; [done |]. rewrite <- Hshift. apply Hbefore. lia.
        -- destruct Hres as (n & Hn & Hout & Hfree & Hbefore).
           exists (S n). repeat split; [lia | by rewrite <- Hshift | done |].
           intros [|m] Hm; [done |]. rewrite <- Hshift. apply Hbefore. lia.
        -- intros [|m] Hm; [done |]. rewrite <- Hshift. apply Hres. lia.
    + exists [Stat output_path]. simpl.
      split; [done | split; [by repeat constructor |]].
      exists 0%nat. repeat split; [lia | done | intros m Hm; lia].
Qed.

(** [apply_edits], phase by phase. *)
Lemma apply_edits_unfold (fuel : nat) (file_path : PurePath)
  (operations : list operation) (output_prefix output_suffix : string) (w : world) :
  apply_edits cd pf HAS_RAWPY fuel file_path operations output_prefix output_suffix w
  = match load cd pf HAS_RAWPY file_path w with
    | (inl e, w1) => (inl e, w1)
    | (inr im0, w1) =>
        match to_rgb cd im0 with
        | inl e => (inl e, w1)
        | inr im1 =>
            match apply_operations cd operations im1 with
            | inl e => (inl e, w1)
            | inr im =>
                match find_free pf fuel file_path output_prefix (stem file_path)
                                output_suffix
                                (first_path file_path output_prefix output_suffix)
                                1 w1 with
                | (inl e, w2) => (inl e, w2)
                | (inr None, w2) => (inr None, w2)
                | (inr (Some out), w2) =>
                    match save cd pf im out OUTPUT_QUALITY w2 with
                    | (inl e, w3) => (inl e, w3)
                    | (inr _, w3) => (inr (Some out), w3)
                    end
                end
            end
        end
    end.
Proof.
  unfold apply_edits, first_path, first_name, lift, ret, bind.
  destruct (load cd pf HAS_RAWPY file_path w) as [[e | im0] w1]; [done |].
  destruct (to_rgb cd im0) as [e | im1]; [done |].
  destruct (apply_operations cd operations im1) as [e | im]; [done |].
  by destruct (find_free _ _ _ _ _ _ _ _ w1) as [[e | [out |]] w2].
Qed.

(** Saving writes through the one path it is given; on a path that
    [exists()] reported absent it returns exactly when the path denotes a
    place where a file may be created and the encoder returned, and then
    that place holds the encoder's bytes; when it raises, no file is left
    changed. *)
Lemma save_frame (im : image) (p : PurePath) (quality : Z) (w : world) :
  exists_says pf (files w) p = inr false ->
  exists tr,
    trace (snd (save cd pf im p quality w)) = (trace w ++ tr)%list
    /\ Forall (fun ev => ev = OpenWrite p \/ ev = Remove p) tr
    /\ match fst (save cd pf im p quality w) with
       | inr _ =>
           exists k data,
             locate pf p = File k /\ files w !! k = None
             /\ may_create pf k = true
             /\ encode_jpeg cd im quality = inr data
             /\ files (snd (save cd pf im p quality w)) = <[k := data]> (files w)
       | inl _ => files (snd (save cd pf im p quality w)) = files w
       end.
Proof.
  intros Hfree. unfold save.
  destruct (locate pf p) as [k | | e |] eqn:Hk; simpl;
    try (exists [OpenWrite p];
         split; [done | split; [rewrite Forall_singleton; by left | done]]).
  pose proof (absent_place pf (files w) p k Hfree Hk) as Hnone.
  rewrite Hnone.
  rewrite bool_decide_eq_false_2 by (by intros [? ?]). simpl.
  destruct (may_create pf k) eqn:Hcan; simpl.
  - destruct (encode_jpeg cd im quality) as [e | data]; simpl.
    + exists [OpenWrite p; Remove p]. rewrite <- List.app_assoc.
      split; [done | split; [| done]].
      rewrite !Forall_cons, Forall_nil. naive_solver.
    + exists [OpenWrite p].
      split; [done | split; [rewrite Forall_singleton; by left |]].
      by exists k, data.
  - exists [OpenWrite p].
    split; [done | split; [rewrite Forall_singleton; by left | done]].
Qed.

(** Every way a call of [apply_edits] can end: it raises before the
    naming loop, with no write attempted; or the loop uses up its tests,
    or raises on a test, with no write attempted; or the operations all
    returned, a path was reported absent and the save was attempted on
    it, and on it alone. *)
Lemma apply_edits_outcome (fuel : nat) (file_path : PurePath)
  (operations : list operation) (output_prefix output_suffix : string) (w : world) :
  let call := apply_edits cd pf HAS_RAWPY fuel file_path operations
                         output_prefix output_suffix w in
  let path_at := tried file_path output_prefix (stem file_path) output_suffix
                       (first_path file_path output_prefix output_suffix) 1 in
  exists tr,
    trace (snd call) = (trace w ++ tr)%list
    /\ ((exists e, fst call = inl e /\ files (snd call) = files w
          /\ Forall (fun ev => is_write ev = false) tr
          /\ forall im0 w1 im1,
               load cd pf HAS_RAWPY file_path w = (inr im0, w1) ->
               to_rgb cd im0 = inr im1 ->
               apply_operations cd operations im1 = inl e)
        \/ (fst call = inr None /\ files (snd call) = files w
            /\ Forall (fun ev => is_write ev = false) tr
            /\ forall m, (m < fuel)%nat ->
                 exists_says pf (files w) (path_at m) = inr true)
        \/ (exists e n,
              fst call = inl e /\ files (snd call) = files w
              /\ Forall (fun ev => is_write ev = false) tr
              /\ (n < fuel)%nat
              /\ exists_says pf (files w) (path_at n) = inl e
              /\ forall m, (m < n)%nat ->
                   exists_says pf (files w) (path_at m) = inr true)
        \/ (exists im0 w1 im1 im out n,
              load cd pf HAS_RAWPY file_path w = (inr im0, w1)
              /\ to_rgb cd im0 = inr im1
              /\ apply_operations cd operations im1 = inr im
              /\ (n < fuel)%nat /\ out = path_at n
              /\ exists_says pf (files w) out = inr false
              /\ (forall m, (m < n)%nat ->
                    exists_says pf (files w) (path_at m) = inr true)
              /\ (exists source, locate pf file_path = File source
                                 /\ is_Some (files w !! source))
              /\ Forall (fun ev => is_write ev = true ->
                                   ev = OpenWrite out \/ ev = Remove out) tr
              /\ ((fst call = inr (Some out)
                   /\ exists k data,
                        locate pf out = File k /\ files w !! k = None
                        /\ may_create pf k = true
                        /\ encode_jpeg cd im OUTPUT_QUALITY = inr data
                        /\ files (snd call) = <[k := data]> (files w))
                  \/ (exists e, fst call = inl e /\ files (snd call) = files w)))).
Proof.
  intros call path_at. subst call. rewrite apply_edits_unfold.
  destruct (load_frame file_path w) as (tr1 & Hw1 & Htr1 & Hsrc).
  destruct (load cd pf HAS_RAWPY file_path w) as [[e | im0] w1] eqn:Hload;
    simpl in Hw1, Hsrc; subst w1.
  { exists tr1. split; [done |]. left. exists e. simpl.
    do 3 (split; [done |]). intros ? ? ? [=]. }
  specialize (Hsrc im0 eq_refl).
  destruct (to_rgb cd im0) as [e | im1] eqn:Hrgb.
  { exists tr1. split; [done |]. left. exists e. simpl.
    do 3 (split; [done |]). intros ? ? ? [= <- <-]. congruence. }
  destruct (apply_operations cd operations im1) as [e | im] eqn:Hops.
  { exists tr1. split; [done |]. left. exists e. simpl.
    do 3 (split; [done |]). intros ? ? ? [= <- <-]. congruence. }
  set (w1 := MkWorld (files w) (trace w ++ tr1)).
  destruct (find_free_sound fuel file_path output_prefix (stem file_path)
              output_suffix (first_path file_path output_prefix output_suffix)
              1 w1) as (tr2 & Hw2 & Htr2 & Hres).
  fold path_at in Hres.
  destruct (find_free pf _ _ _ _ _ _ _ w1) as [[e | [out |]] w2] eqn:Hfind;
    simpl in Hw2, Hres; subst w2.
  - destruct Hres as (n & Hn & Hraise & Hbefore).
    exists (tr1 ++ tr2)%list. simpl.
    split; [by rewrite List.app_assoc |].
    right; right; left. exists e, n.
    repeat split; try done. rewrite Forall_app. by split.
  - destruct Hres as (n & Hn & Hout & Hfree & Hbefore).
    set (w2 := MkWorld (files w) ((trace w ++ tr1) ++ tr2)).
    destruct (save_frame im out OUTPUT_QUALITY w2 Hfree)
      as (tr3 & Hw3 & Htr3 & Hsave).
    exists (tr1 ++ tr2 ++ tr3)%list.
    assert (Forall (fun ev => is_write ev = true ->
                              ev = OpenWrite out \/ ev = Remove out)
                   (tr1 ++ tr2 ++ tr3)) as Hwrites.
    { rewrite !Forall_app. repeat split.
      - eapply Forall_impl; [exact Htr1 |]. simpl. intros ev -> [=].
      - eapply Forall_impl; [exact Htr2 |]. simpl. intros ev -> [=].
      - eapply Forall_impl; [exact Htr3 |]. by simpl. }
    destruct (save cd pf im out OUTPUT_QUALITY w2) as [[e | []] w3];
      simpl in Hw3, Hsave; simpl.
    + split; [by rewrite Hw3, !List.app_assoc |].
      right; right; right. exists im0, w1, im1, im, out, n.
      repeat split; try done. right. by exists e.
    + destruct Hsave as (k & data & Hk & Hnone & Hcan & Henc & Hfiles).
      split; [by rewrite Hw3, !List.app_assoc |].
      right; right; right. exists im0, w1, im1, im, out, n.
      repeat split; try done. left. split; [done |]. by exists k, data.
  - exists (tr1 ++ tr2)%list. simpl.
    split; [by rewrite List.app_assoc |].
    right; left. repeat split; [| done]. rewrite Forall_app. by split.
Qed.

End WithEnvironment.

End PipelineFacts.

(** ** The names the naming loop builds *)

Module NamingFacts.
Import Pathlib ImageProcessor StrFacts PathlibFacts.

(** The tail every numbered name ends in. *)
Lemma numbered_name_split (output_prefix stem output_suffix : string) (k : Z) :
  numbered_name output_prefix stem output_suffix k
  = (output_prefix +:+ stem +:+ output_suffix) +:+ ("_" +:+ pretty k +:+ ".jpg").
Proof. unfold numbered_name. by rewrite !app_assoc. Qed.

Lemma numbered_tail_plain (k : Z) :
  Str.contains Str.slash ("_" +:+ pretty k +:+ ".jpg") = false
  /\ (2 <= String.length ("_" +:+ pretty k +:+ ".jpg"))%nat.
Proof.
  split.
  - rewrite !contains_app, pretty_Z_no_slash. done.
  - rewrite !length_app. simpl. lia.
Qed.


End NamingFacts.

(** ** The naming loop *)

Module Termination.
Import Pathlib World ImageProcessor PipelineFacts NamingFacts.


Section WithEnvironment.
Variable cd : PIL.codec.
Variable pf : platform.
Variable HAS_RAWPY : bool.



End WithEnvironment.

End Termination.

(** ** The edit request *)

Module Request.
Import Pathlib World ImageProcessor PipelineFacts NamingFacts.

Section WithEnvironment.
Variable cd : PIL.codec.
Variable pf : platform.
Variable HAS_RAWPY : bool.

(** C2. Whatever the source path, the operations and the way the call
    ends, [apply_edits] neither opens the source for writing nor removes
    it, under the path it was given or under any other path that denotes
    the same file, and the bytes of the file the source path denotes are
    the same after the call as before. *)
Theorem apply_edits_leaves_source_untouched (fuel : nat) (file_path : PurePath)
  (operations : list operation) (output_prefix output_suffix : string) (w : world) :
  let call := apply_edits cd pf HAS_RAWPY fuel file_path operations
                          output_prefix output_suffix w in
  exists tr,
    trace (snd call) = (trace w ++ tr)%list
    /\ (OpenWrite file_path ∉ tr) /\ (Remove file_path ∉ tr)
    /\ forall source, locate pf file_path = File source ->
         files (snd call) !! source = files w !! source
         /\ Forall (fun ev => touches pf source ev = false) tr
         /\ forall q, locate pf q = File source ->
              (OpenWrite q ∉ tr) /\ (Remove q ∉ tr).
Proof.
  intros call. subst call.
  destruct (apply_edits_outcome cd pf HAS_RAWPY fuel file_path operations
              output_prefix output_suffix w)
    as (tr & Htrace & Hcase).
  exists tr. split; [done |].
  assert (forall source,
            Forall (fun ev => touches pf source ev = false) tr ->
            forall q, locate pf q = File source ->
              (OpenWrite q ∉ tr) /\ (Remove q ∉ tr)) as Hnot.
  { intros source Hall q Hq. rewrite Forall_forall in Hall.
    split; intros Hin; apply Hall in Hin; simpl in Hin;
      by rewrite bool_decide_eq_true_2 in Hin. }
  assert (Forall (fun ev => is_write ev = false) tr ->
          (OpenWrite file_path ∉ tr) /\ (Remove file_path ∉ tr)) as Hquiet_not.
  { intros Hall. rewrite Forall_forall in Hall.
    split; intros Hin; by apply Hall in Hin. }
  assert (Forall (fun ev => is_write ev = false) tr ->
          forall source, Forall (fun ev => touches pf source ev = false) tr)
    as Hquiet_all.
  { intros Hall source. eapply Forall_impl; [exact Hall |].
    apply not_write_not_touch. }
  destruct Hcase as [(e & _ & Hfiles & Hquiet & _)
                    | [(_ & Hfiles & Hquiet & _)
                      | [(e & n & _ & Hfiles & Hquiet & _) | Hcase]]].
  - destruct (Hquiet_not Hquiet). do 2 (split; [done |]).
    intros source Hsource. split; [by rewrite Hfiles |].
    split; [by apply Hquiet_all |]. by apply Hnot, Hquiet_all.
  - destruct (Hquiet_not Hquiet). do 2 (split; [done |]).
    intros source Hsource. split; [by rewrite Hfiles |].
    split; [by apply Hquiet_all |]. by apply Hnot, Hquiet_all.
  - destruct (Hquiet_not Hquiet). do 2 (split; [done |]).
    intros source Hsource. split; [by rewrite Hfiles |].
    split; [by apply Hquiet_all |]. by apply Hnot, Hquiet_all.
  - destruct Hcase as (im0 & w1 & im1 & im & out & n & _ & _ & _ & _ & _ & Hfree
                       & _ & (src & Hsrc & Hthere) & Hwrites & Hend).
    assert (locate pf out <> File src) as Hne.
    { intros Hout. pose proof (absent_place pf _ _ _ Hfree Hout) as Hnone.
      destruct Hthere as [c Hc]. congruence. }
    assert (Forall (fun ev => touches pf src ev = false) tr) as Hall.
    { eapply Forall_impl; [exact Hwrites |]. simpl.
      intros [p | p | p | p | p] Hev; try done; simpl.
      - destruct (Hev eq_refl) as [[= ->] | [=]]. by apply bool_decide_eq_false_2.
      - destruct (Hev eq_refl) as [[=] | [= ->]]. by apply bool_decide_eq_false_2. }
    destruct (Hnot src Hall file_path Hsrc). do 2 (split; [done |]).
    intros source Hsource.
    assert (source = src) as -> by congruence.
    split; [| split; [done | by apply Hnot]].
    destruct Hend as [(_ & k & data & Hk & _ & _ & _ & ->) | (e & _ & ->)];
      [| done].
    apply lookup_insert_ne. intros ->. by apply Hne.
Qed.

End WithEnvironment.

End Request.

(** ** The output name *)

Module Naming.
Import Pathlib World ImageProcessor PathlibFacts PipelineFacts NamingFacts.

Lemma tried_first (file_path : PurePath) (output_prefix output_suffix : string) :
  tried file_path output_prefix (stem file_path) output_suffix
        (first_path file_path output_prefix output_suffix) 1 0
  = first_path file_path output_prefix output_suffix.
Proof. done. Qed.

Lemma tried_numbered (file_path : PurePath) (output_prefix output_suffix : string)
  (m : nat) :
  tried file_path output_prefix (stem file_path) output_suffix
        (first_path file_path output_prefix output_suffix) 1 (S m)
  = numbered_path file_path output_prefix output_suffix (1 + Z.of_nat m).
Proof. done. Qed.

(** Names that end in ".jpg" are kept as components. *)
Lemma keep_jpg (a : string) : keep_component (a +:+ ".jpg") = true.
Proof. apply keep_long. rewrite StrFacts.length_app. simpl. lia. Qed.

Lemma keep_first_name (file_path : PurePath) (output_prefix output_suffix : string) :
  keep_component (first_name file_path output_prefix output_suffix) = true.
Proof.
  unfold first_name. rewrite <- !StrFacts.app_assoc. apply keep_jpg.
Qed.

Lemma keep_numbered_name (output_prefix stem output_suffix : string) (k : Z) :
  keep_component (numbered_name output_prefix stem output_suffix k) = true.
Proof.
  unfold numbered_name. rewrite <- !StrFacts.app_assoc. apply keep_jpg.
Qed.

(** A path reported present stays so when a file is written. *)
Lemma exists_says_insert (pf : platform) (fs : gmap PurePath content)
  (p k : PurePath) (data : content) :
  exists_says pf fs p = inr true ->
  exists_says pf (<[k := data]> fs) p = inr true.
Proof.
  unfold exists_says. destruct (locate pf p) as [k' | | e |]; try done.
  intros [= Hk]. apply bool_decide_eq_true in Hk.
  rewrite bool_decide_eq_true_2; [done |].
  destruct (decide (k = k')) as [-> | Hne].
  - rewrite lookup_insert_eq. by eexists.
  - by rewrite lookup_insert_ne.
Qed.

Section WithEnvironment.
Variable cd : PIL.codec.
Variable pf : platform.
Variable HAS_RAWPY : bool.

(** What a call that returns a path has done. *)
Lemma apply_edits_returns (fuel : nat) (file_path : PurePath)
  (operations : list operation) (output_prefix output_suffix : string)
  (w w' : world) (out : PurePath) :
  apply_edits cd pf HAS_RAWPY fuel file_path operations
              output_prefix output_suffix w = (inr (Some out), w') ->
  let path_at := tried file_path output_prefix (stem file_path) output_suffix
                       (first_path file_path output_prefix output_suffix) 1 in
  exists n place data,
    out = path_at n
    /\ exists_says pf (files w) out = inr false
    /\ (forall m, (m < n)%nat -> exists_says pf (files w) (path_at m) = inr true)
    /\ (exists source, locate pf file_path = File source
                       /\ is_Some (files w !! source))
    /\ locate pf out = File place
    /\ files w !! place = None
    /\ files w' = <[place := data]> (files w).
Proof.
  intros Hrun path_at.
  destruct (apply_edits_outcome cd pf HAS_RAWPY fuel file_path operations
              output_prefix output_suffix w)
    as (tr & _ & Hcase).
  rewrite Hrun in Hcase. simpl in Hcase. fold path_at in Hcase.
  destruct Hcase as [(e & [=] & _) | [([=] & _) | [(e & n & [=] & _) | Hcase]]].
  destruct Hcase as (im0 & w1 & im1 & im & out' & n & _ & _ & _ & _ & Hout & Hfree
                     & Hbefore & Hsrc & _ & Hend).
  destruct Hend as [([= <-] & place & data & Hplace & Hnone & _ & _ & Hfiles)
                   | (e & [=] & _)].
  by exists n, place, data.
Qed.

(** X19. When [apply_edits] returns, the path it returns is the source's
    parent joined with prefix, stem, suffix and ".jpg" when [exists()]
    reported no file there, and otherwise the same with "_k" before
    ".jpg" for the first k, counting up from 1, at which it reported
    none; when that name holds no path separator the path lies in the
    source's parent directory under that name.  The file is written at
    the place the path denotes, where no file was before the call, and
    every file that was there before, the source among them, is as it
    was; a second call with the same request returns another path, a
    numbered one, and leaves the first output as it was. *)
Theorem output_is_written_where_no_file_was (fuel : nat) (file_path : PurePath)
  (operations : list operation) (output_prefix output_suffix : string)
  (w w' : world) (out : PurePath) :
  apply_edits cd pf HAS_RAWPY fuel file_path operations
              output_prefix output_suffix w = (inr (Some out), w') ->
  let first := first_path file_path output_prefix output_suffix in
  let numbered := numbered_path file_path output_prefix output_suffix in
  ((out = first /\ exists_says pf (files w) first = inr false)
   \/ (exists k, 1 <= k /\ out = numbered k
                 /\ exists_says pf (files w) first = inr true
                 /\ (forall j, 1 <= j < k ->
                       exists_says pf (files w) (numbered j) = inr true)
                 /\ exists_says pf (files w) (numbered k) = inr false))
  /\ (exists place data,
        locate pf out = File place /\ files w !! place = None
        /\ files w' = <[place := data]> (files w))
  /\ (forall p, is_Some (files w !! p) -> files w' !! p = files w !! p)
  /\ (out = first ->
      Str.contains Str.slash (first_name file_path output_prefix output_suffix)
      = false ->
      parent out = parent file_path
      /\ name out = first_name file_path output_prefix output_suffix)
  /\ (forall k, out = numbered k ->
      Str.contains Str.slash
        (numbered_name output_prefix (stem file_path) output_suffix k) = false ->
      parent out = parent file_path
      /\ name out = numbered_name output_prefix (stem file_path) output_suffix k)
  /\ (forall fuel2 out2 w'',
      apply_edits cd pf HAS_RAWPY fuel2 file_path operations
                  output_prefix output_suffix w' = (inr (Some out2), w'') ->
      out2 <> out
      /\ (exists k, 1 <= k /\ out2 = numbered k)
      /\ forall place, locate pf out = File place ->
           is_Some (files w' !! place)
           /\ files w'' !! place = files w' !! place).
Proof.
  intros Hrun first numbered.
  destruct (apply_edits_returns _ _ _ _ _ _ _ _ Hrun)
    as (n & place & data & Hout & Hfree & Hbefore & Hsrc & Hplace & Hnone
        & Hfiles).
  assert (forall p, is_Some (files w !! p) -> files w' !! p = files w !! p)
    as Hkept.
  { intros p [c Hp]. rewrite Hfiles. apply lookup_insert_ne. congruence. }
  assert (exists_says pf (files w') out = inr true) as Hout'.
  { apply (present_place pf _ _ place Hplace).
    rewrite Hfiles, lookup_insert_eq. by eexists. }
  assert (exists_says pf (files w') first = inr true) as Hfirst'.
  { destruct n as [|m].
    - rewrite tried_first in Hout. fold first in Hout. by subst out.
    - rewrite Hfiles. apply exists_says_insert. apply (Hbefore 0%nat). lia. }
  split; [| split; [| split; [| split; [| split]]]].
  - destruct n as [|m].
    + left. rewrite tried_first in Hout. fold first in Hout. by subst out.
    + right. exists (1 + Z.of_nat m). rewrite tried_numbered in Hout.
      fold numbered in Hout.
      split; [lia |]. split; [done |]. split; [apply (Hbefore 0%nat); lia |].
      split; [| by subst out].
      intros j Hj.
      replace j with (1 + Z.of_nat (Z.to_nat (j - 1))) by lia.
      unfold numbered. rewrite <- tried_numbered. apply Hbefore. lia.
  - by exists place, data.
  - done.
  - intros -> Hplain. unfold first, first_path.
    apply parent_joinpath_plain; [done | apply keep_first_name].
  - intros k -> Hplain. unfold numbered, numbered_path.
    apply parent_joinpath_plain; [done | apply keep_numbered_name].
  - intros fuel2 out2 w'' Hrun2.
    destruct (apply_edits_returns _ _ _ _ _ _ _ _ Hrun2)
      as (n2 & place2 & data2 & Hout2 & Hfree2 & Hbefore2 & _ & Hplace2
          & Hnone2 & Hfiles2).
    assert (out2 <> out) as Hne by (intros ->; congruence).
    split; [done |]. split.
    + destruct n2 as [|m2].
      * rewrite tried_first in Hout2. fold first in Hout2. subst out2.
        congruence.
      * exists (1 + Z.of_nat m2). split; [lia | done].
    + intros place' Hplace'.
      assert (place' = place) as -> by congruence.
      assert (files w' !! place = Some data) as Hthere
        by (rewrite Hfiles; apply lookup_insert_eq).
      split; [by eexists |].
      rewrite Hfiles2. apply lookup_insert_ne. intros ->. congruence.
Qed.

End WithEnvironment.

(** C4, where the code departs from it.  The prefix is joined to the
    parent directory as it comes: with the prefix "../" the edit of
    [/mnt/photos/photo.jpg] is written through
    [/mnt/photos/../photo_edited.jpg], that is at [/mnt/photo_edited.jpg],
    which does not lie in the source's parent directory, and the edit
    handler reports success; the upload handler refuses the same prefix
    with a 403.  With the suffix "_linked" the output name is that of a
    link in the directory whose target is missing: it is taken for free,
    and the file is created where the link points. *)
Theorem output_prefix_can_leave_the_parent_directory :
  let call := apply_edits Fixture.codec Fixture.platform true 10 Fixture.photo
                          [] "../" "_edited" Fixture.world0 in
  let linked := apply_edits Fixture.codec Fixture.platform true 10 Fixture.photo
                            [] "" "_linked" Fixture.world0 in
  fst call = inr (Some (parse "/mnt/photos/../photo_edited.jpg"))
  /\ locate Fixture.platform (parse "/mnt/photos/../photo_edited.jpg")
     = File (parse "/mnt/photo_edited.jpg")
  /\ files Fixture.world0 !! parse "/mnt/photo_edited.jpg" = None
  /\ is_Some (files (snd call) !! parse "/mnt/photo_edited.jpg")
  /\ parent (parse "/mnt/photo_edited.jpg") <> parent Fixture.photo
  /\ ~ within (parent Fixture.photo) (parse "/mnt/photo_edited.jpg")
  /\ fst (Handlers.edit_image Fixture.codec Fixture.platform true
            Fixture.BROWSE_ROOT HandlerFixture.describe
            HandlerFixture.not_in_subpath 10 (HandlerFixture.request "../")
            Fixture.world0)
     = inr (Some "../photo_edited.jpg")
  /\ fst (Handlers.edit_upload Fixture.platform Fixture.BROWSE_ROOT
            HandlerFixture.describe HandlerFixture.not_in_subpath
            HandlerFixture.write_failure 10 HandlerFixture.upload
            "photo.jpg" "../" "_edited" "photos" Fixture.world0)
     = inl (Main.Http (Main.MkHTTP 403 "Output path outside gallery"))
  /\ fst linked = inr (Some (parse "/mnt/photos/photo_linked.jpg"))
  /\ locate Fixture.platform (parse "/mnt/photos/photo_linked.jpg")
     = File (parse "/srv/elsewhere.jpg")
  /\ is_Some (files (snd linked) !! parse "/srv/elsewhere.jpg").
Proof.
  cbv zeta.
  split; [vm_compute; reflexivity |].
  split; [vm_compute; reflexivity |].
  split; [vm_compute; reflexivity |].
  split; [vm_compute; by eexists |].
  split; [vm_compute; discriminate |].
  split; [intros [x Hx]; vm_compute in Hx; discriminate |].
  split; [vm_compute; reflexivity |].
  split; [vm_compute; reflexivity |].
  split; [vm_compute; reflexivity |].
  split; [vm_compute; reflexivity |].
  vm_compute; by eexists.
Qed.

End Naming.

(** ** Rotate, crop and resize *)

Module Transforms.
Import Pathlib World PIL ImageProcessor Operations PipelineFacts.

Lemma resize_size (cd : codec) (w h : Z) (im im' : image) :
  resize cd (w, h) im = inr im' -> size im' = (w, h).
Proof.
  unfold resize, size.
  destruct ((w =? width im) && (h =? height im)) eqn:Hsame.
  - apply andb_true_iff in Hsame as [Hw Hh].
    apply Z.eqb_eq in Hw, Hh. intros [= <-]. by rewrite Hw, Hh.
  - destruct (negb _); [done |]. destruct (_ || _); [done |].
    destruct (resize_lanczos cd im w h); [done |]. by intros [= <-].
Qed.

Section WithCodec.
Variable cd : codec.

(** *** Rotate *)

(** X18. A rotate operation is Pillow's counter-clockwise rotation by the
    opposite angle with [expand] set.  For an angle that is a quarter
    turn more than a number of full turns, a W x H image becomes H x W
    and the pixel at (x, y) moves to (H - 1 - y, x), a quarter turn
    clockwise; for a half turn it stays W x H and the pixel moves to
    (W - 1 - x, H - 1 - y); for three quarters it becomes H x W and the
    pixel moves to (y, W - 1 - x); for full turns the image is returned
    as it is.  In each case every pixel of the source is on the new
    canvas. *)
Theorem right_angle_rotations_turn_clockwise (op : operation) (a : Z) (im : image) :
  op !! "type" = Some (Py.VStr "rotate") ->
  Py.get_or op "angle" (Py.VInt 0) = Py.VInt a ->
  Z.abs a <= 2 ^ 53 ->
  apply_operation cd op im = rotate_clockwise cd a im
  /\ apply_operation cd op im = rotate cd (- a) true im
  /\ (a mod 360 = 0 -> apply_operation cd op im = inr im)
  /\ (a mod 360 = 90 ->
      exists r, apply_operation cd op im = inr r
        /\ size r = (height im, width im)
        /\ forall x y, on_canvas im x y ->
             on_canvas r (height im - 1 - y) x
             /\ getpixel r (height im - 1 - y) x = getpixel im x y)
  /\ (a mod 360 = 180 ->
      exists r, apply_operation cd op im = inr r
        /\ size r = (width im, height im)
        /\ forall x y, on_canvas im x y ->
             on_canvas r (width im - 1 - x) (height im - 1 - y)
             /\ getpixel r (width im - 1 - x) (height im - 1 - y) = getpixel im x y)
  /\ (a mod 360 = 270 ->
      exists r, apply_operation cd op im = inr r
        /\ size r = (height im, width im)
        /\ forall x y, on_canvas im x y ->
             on_canvas r y (width im - 1 - x)
             /\ getpixel r y (width im - 1 - x) = getpixel im x y).
Proof.
  intros Htype Hangle Hexact.
  assert (apply_operation cd op im = rotate cd (- a) true im) as Hrun.
  { pick_branch Htype. by rewrite Hangle. }
  split; [done |]. split; [done |].
  rewrite Hrun. unfold rotate, exact_in_float.
  rewrite (proj2 (Z.leb_le _ _)) by lia.
  cbv zeta.
  split; [| split; [| split]]; intros Hmod.
  - rewrite Z.mod_opp_l_z by lia. done.
  - rewrite Z.mod_opp_l_nz, Hmod by lia. simpl.
    exists (transpose ROTATE_270 im). split; [done |]. split; [done |].
    intros x y [Hx Hy]. unfold on_canvas; simpl.
    split; [lia |]. f_equal; lia.
  - rewrite Z.mod_opp_l_nz, Hmod by lia. simpl.
    exists (transpose ROTATE_180 im). split; [done |]. split; [done |].
    intros x y [Hx Hy]. unfold on_canvas; simpl.
    split; [lia |]. f_equal; lia.
  - rewrite Z.mod_opp_l_nz, Hmod by lia. simpl.
    exists (transpose ROTATE_90 im). split; [done |]. split; [done |].
    intros x y [Hx Hy]. unfold on_canvas; simpl.
    split; [lia |]. f_equal; lia.
Qed.

(** *** Resize *)

(** C7, as the code has it.  With both a width and a height the image
    is resized to exactly that width and height; with one of them the
    other side is the source's, scaled by the ratio of the given side to
    the source's and truncated; with neither the image is left as it
    is.  A side counts as given when it is a non-zero integer. *)
Theorem resize_forces_both_or_scales_one (op : operation) (im : image) :
  op !! "type" = Some (Py.VStr "resize") ->
  int_or_absent op "width" -> int_or_absent op "height" ->
  let w := param op "width" 0 in
  let h := param op "height" 0 in
  (w <> 0 -> h <> 0 ->
   apply_operation cd op im = resize cd (w, h) im
   /\ forall im', apply_operation cd op im = inr im' -> size im' = (w, h))
  /\ (w <> 0 -> h = 0 ->
      apply_operation cd op im
      = Py.bind (Float.scale (height im) w (width im))
                (fun new_height => resize cd (w, new_height) im)
      /\ forall im', apply_operation cd op im = inr im' ->
           exists new_height,
             Float.scale (height im) w (width im) = inr new_height
             /\ size im' = (w, new_height))
  /\ (w = 0 -> h <> 0 ->
      apply_operation cd op im
      = Py.bind (Float.scale (width im) h (height im))
                (fun new_width => resize cd (new_width, h) im)
      /\ forall im', apply_operation cd op im = inr im' ->
           exists new_width,
             Float.scale (width im) h (height im) = inr new_width
             /\ size im' = (new_width, h))
  /\ (w = 0 -> h = 0 -> apply_operation cd op im = inr im).
Proof.
  intros Htype Hw Hh w h.
  assert (Py.get op "width" = Py.VNone /\ w = 0
          \/ Py.get op "width" = Py.VInt w) as Hgw.
  { subst w. unfold Py.get, param.
    destruct Hw as [-> | [n ->]]; [by left | by right]. }
  assert (Py.get op "height" = Py.VNone /\ h = 0
          \/ Py.get op "height" = Py.VInt h) as Hgh.
  { subst h. unfold Py.get, param.
    destruct Hh as [-> | [n ->]]; [by left | by right]. }
  assert (forall v n, (v = Py.VNone /\ n = 0 \/ v = Py.VInt n) ->
            Py.truthy v = negb (n =? 0)) as Htruthy.
  { intros v n [[-> ->] | ->]; done. }
  assert (apply_operation cd op im
          = if negb (w =? 0) && negb (h =? 0) then resize cd (w, h) im
            else if negb (w =? 0) then
              Py.bind (Float.scale (height im) w (width im))
                      (fun new_height => resize cd (w, new_height) im)
            else if negb (h =? 0) then
              Py.bind (Float.scale (width im) h (height im))
                      (fun new_width => resize cd (new_width, h) im)
            else inr im) as Hrun.
  { pick_branch Htype.
    rewrite (Htruthy _ _ Hgw), (Htruthy _ _ Hgh).
    destruct (w =? 0) eqn:Ew, (h =? 0) eqn:Eh; simpl; try done.
    - destruct Hgh as [[_ ->] | ->]; [done | done].
    - destruct Hgw as [[_ ->] | ->]; [done | done].
    - destruct Hgw as [[_ ->] | ->]; [done |].
      destruct Hgh as [[_ ->] | ->]; [done | done]. }
  rewrite Hrun. clear Hrun.
  split; [| split; [| split]].
  - intros Hw0 Hh0. apply Z.eqb_neq in Hw0, Hh0. rewrite Hw0, Hh0. simpl.
    split; [done | apply resize_size].
  - intros Hw0 ->. apply Z.eqb_neq in Hw0. rewrite Hw0. simpl.
    split; [done |]. intros im'.
    destruct (Float.scale (height im) w (width im)) as [e | nh]; [done |].
    simpl. intros Hres. exists nh. split; [done |]. by eapply resize_size.
  - intros -> Hh0. apply Z.eqb_neq in Hh0. rewrite Hh0. simpl.
    split; [done |]. intros im'.
    destruct (Float.scale (width im) h (height im)) as [e | nw]; [done |].
    simpl. intros Hres. exists nw. split; [done |]. by eapply resize_size.
  - by intros -> ->.
Qed.

End WithCodec.

End Transforms.

(** ** Validation and persistence *)

Module Validation.
Import Pathlib World PIL ImageProcessor Operations PipelineFacts.

Section WithEnvironment.
Variable cd : codec.
Variable pf : platform.
Variable HAS_RAWPY : bool.

(** Boolean tests on integers, read as the inequalities they decide. *)
Ltac split_orb :=
  repeat match goal with
    | H : _ || _ = false |- _ => apply orb_false_iff in H as [? ?]
    | H : _ || _ = true |- _ => apply orb_true_iff in H as [? | ?]
    | H : (_ <? _) = false |- _ => apply Z.ltb_ge in H
    | H : (_ <? _) = true |- _ => apply Z.ltb_lt in H
    | H : (_ <=? _) = false |- _ => apply Z.leb_gt in H
    | H : (_ <=? _) = true |- _ => apply Z.leb_le in H
    end.

(** The crop branch, on integer parameters. *)
Lemma crop_operation (op : operation) (im : image) :
  op !! "type" = Some (Py.VStr "crop") ->
  int_or_absent op "x" -> int_or_absent op "y" ->
  int_or_absent op "width" -> int_or_absent op "height" ->
  let x := param op "x" 0 in
  let y := param op "y" 0 in
  let cw := param op "width" (width im - x) in
  let ch := param op "height" (height im - y) in
  apply_operation cd op im
  = if (x <? 0) || (y <? 0) || (cw <=? 0) || (ch <=? 0)
    then inl (Py.ValueError "Invalid crop dimensions")
    else if (width im <? x + cw) || (height im <? y + ch)
    then inl (Py.ValueError "Crop extends beyond image bounds")
    else inr (crop (x, y, x + cw, y + ch) im).
Proof.
  intros Htype Hx Hy Hw Hh x y cw ch.
  pick_branch Htype.
  rewrite (get_or_int op "x" 0 Hx), (get_or_int op "y" 0 Hy).
  fold x y. unfold rsub at 1. simpl.
  rewrite (get_or_int op "width" (width im - x) Hw). fold cw.
  unfold rsub. simpl.
  rewrite (get_or_int op "height" (height im - y) Hh). fold ch.
  unfold or_else, lt, le, add_gt, as_int. simpl.
  destruct (x <? 0); [done |]. destruct (y <? 0); [done |].
  destruct (cw <=? 0); [done |]. destruct (ch <=? 0); [done |]. simpl.
  destruct (width im <? x + cw); [done |].
  by destruct (height im <? y + ch).
Qed.

(** C6. A crop operation is checked against the size W x H the image has
    when the operation is reached, its width and height standing for
    W - x and H - y when omitted.  A negative x or y, a width or height
    that is not positive, or a rectangle that passes the right or lower
    edge raise [ValueError]: the request raises it and no file is created
    or changed.  Every other crop yields the rectangle of that width and
    height whose pixel (i, j) is the image's pixel (x + i, y + j). *)
Theorem crop_is_validated_against_current_size (fuel : nat) (file_path : PurePath)
  (pre post : list operation) (op : operation)
  (output_prefix output_suffix : string) (w w1 : world) (im0 im1 im : image) :
  load cd pf HAS_RAWPY file_path w = (inr im0, w1) ->
  to_rgb cd im0 = inr im1 ->
  apply_operations cd pre im1 = inr im ->
  op !! "type" = Some (Py.VStr "crop") ->
  int_or_absent op "x" -> int_or_absent op "y" ->
  int_or_absent op "width" -> int_or_absent op "height" ->
  let x := param op "x" 0 in
  let y := param op "y" 0 in
  let cw := param op "width" (width im - x) in
  let ch := param op "height" (height im - y) in
  (x < 0 \/ y < 0 \/ cw <= 0 \/ ch <= 0
   \/ x + cw > width im \/ y + ch > height im ->
   exists msg,
     apply_operation cd op im = inl (Py.ValueError msg)
     /\ apply_edits cd pf HAS_RAWPY fuel file_path (pre ++ op :: post)
                    output_prefix output_suffix w
        = (inl (Py.ValueError msg), w1)
     /\ files w1 = files w
     /\ exists tr, trace w1 = (trace w ++ tr)%list
                   /\ Forall (fun ev => is_write ev = false) tr)
  /\ (~ (x < 0 \/ y < 0 \/ cw <= 0 \/ ch <= 0
         \/ x + cw > width im \/ y + ch > height im) ->
      let r := crop (x, y, x + cw, y + ch) im in
      apply_operation cd op im = inr r
      /\ apply_operations cd (pre ++ [op]) im1 = inr r
      /\ size r = (cw, ch)
      /\ forall i j, getpixel r i j = getpixel im (x + i) (y + j)).
Proof.
  intros Hload Hrgb Hpre Htype Hx Hy Hw Hh x y cw ch.
  pose proof (crop_operation op im Htype Hx Hy Hw Hh) as Hop.
  cbv zeta in Hop. fold x y in Hop. fold cw ch in Hop.
  split.
  - intros Hbad.
    assert (exists msg, apply_operation cd op im = inl (Py.ValueError msg))
      as [msg Hmsg].
    { rewrite Hop.
      destruct ((x <? 0) || (y <? 0) || (cw <=? 0) || (ch <=? 0)) eqn:H1;
        [by eexists |].
      destruct ((width im <? x + cw) || (height im <? y + ch)) eqn:H2;
        [by eexists |].
      exfalso. split_orb. lia. }
    exists msg. split; [done |].
    destruct (load_frame cd pf HAS_RAWPY file_path w) as (tr & Hw1 & Htr & _).
    rewrite Hload in Hw1. simpl in Hw1.
    split; [| split; [by rewrite Hw1 | exists tr; by rewrite Hw1]].
    rewrite (apply_edits_unfold cd pf), Hload, Hrgb.
    by rewrite (apply_operations_fails_at cd pre post op im1 im
                  (Py.ValueError msg) Hpre Hmsg).
  - intros Hgood r.
    assert (apply_operation cd op im = inr r) as Hr.
    { rewrite Hop.
      destruct ((x <? 0) || (y <? 0) || (cw <=? 0) || (ch <=? 0)) eqn:H1.
      { exfalso. apply Hgood. split_orb; lia. }
      destruct ((width im <? x + cw) || (height im <? y + ch)) eqn:H2; [| done].
      exfalso. apply Hgood. split_orb; lia. }
    split; [done |]. split; [| split].
    + rewrite apply_operations_app, Hpre. simpl. by rewrite Hr.
    + unfold size, r; simpl. f_equal; lia.
    + done.
Qed.


End WithEnvironment.

End Validation.

(** ** The scenarios of the specification, run on the test doubles *)

Module Examples.
Import Pathlib World PIL ImageProcessor Fixture.

(** *** The resolver *)

Example dotdot_escape_is_rejected :
  fst (Main.get_safe_browse_path platform BROWSE_ROOT "../../etc/passwd" world0)
  = inl (Main.Http Main.PathOutsideBrowseRoot).
Proof. reflexivity. Qed.

Example link_escape_is_rejected :
  fst (Main.get_safe_browse_path platform BROWSE_ROOT "photos/outside/passwd" world0)
  = inl (Main.Http Main.PathOutsideBrowseRoot).
Proof. reflexivity. Qed.

Example absolute_path_is_taken_below_the_root :
  fst (Main.get_safe_browse_path platform BROWSE_ROOT "/etc/passwd" world0)
  = inr (parse "/mnt/etc/passwd").
Proof. reflexivity. Qed.

Example dotdot_inside_is_accepted :
  fst (Main.get_safe_browse_path platform BROWSE_ROOT "photos/../photos/a.jpg" world0)
  = inr (parse "/mnt/photos/a.jpg").
Proof. reflexivity. Qed.

Example empty_path_is_the_root :
  fst (Main.get_safe_browse_path platform BROWSE_ROOT "" world0) = inr BROWSE_ROOT.
Proof. reflexivity. Qed.

(** A loop of links makes [resolve()] raise before the [try]. *)
Example link_loop_is_not_caught :
  Main.get_safe_browse_path platform BROWSE_ROOT "photos/loop/x" world0
  = (inl (Main.Unhandled Py.RuntimeError),
     MkWorld (files world0) [Resolve (parse "/mnt/photos/loop/x")]).
Proof. vm_compute. reflexivity. Qed.

Example gallery_path_is_resolved_in_the_gallery :
  fst (Main.get_safe_gallery_path platform BROWSE_ROOT "photo.jpg" "photos" world0)
  = inr (photo, parse "/mnt/photos").
Proof. reflexivity. Qed.

Example gallery_escape_is_rejected :
  fst (Main.get_safe_gallery_path platform BROWSE_ROOT "../other/x.jpg" "photos" world0)
  = inl (Main.Http Main.PathOutsideGalleryRoot).
Proof. reflexivity. Qed.

Example gallery_outside_the_browse_root_is_rejected :
  fst (Main.get_safe_gallery_path platform BROWSE_ROOT "x.jpg" "../etc" world0)
  = inl (Main.Http Main.PathOutsideBrowseRoot).
Proof. reflexivity. Qed.

Example missing_gallery_root_resolves_nothing :
  Main.get_safe_gallery_path platform BROWSE_ROOT "photo.jpg" "" world0
  = (inl (Main.Http Main.GalleryNotSelected), world0).
Proof. reflexivity. Qed.

(** *** The pipeline *)

Example rotate_then_crop_scenario :
  fst (apply_edits codec platform true 10 photo [rotate_90; crop_3000_2000]
                   "" "_edited" world0)
  = inr (Some edited)
  /\ files (snd (apply_edits codec platform true 10 photo [rotate_90; crop_3000_2000]
                             "" "_edited" world0)) !! edited
     = Some (encode (image_of 3000 2000)).
Proof. split; vm_compute; reflexivity. Qed.

Example unknown_operation_scenario :
  fst (apply_edits codec platform true 10 photo [rotate_90; blur] "" "_edited"
                   world0)
  = inl (Py.ValueError "Unknown operation type: blur")
  /\ trace (snd (apply_edits codec platform true 10 photo [rotate_90; blur]
                             "" "_edited" world0))
     = [OpenRead photo].
Proof. split; vm_compute; reflexivity. Qed.

Example one_sided_resize_scenario :
  Py.bind (apply_operation codec resize_width_800 (image_of 4000 3000))
          (fun r => Py.ret (size r))
  = inr (800, 600).
Proof. vm_compute. reflexivity. Qed.

Example second_request_scenario :
  fst (apply_edits codec platform true 10 photo [rotate_90; crop_3000_2000]
         "" "_edited"
         (snd (apply_edits codec platform true 10 photo
                           [rotate_90; crop_3000_2000] "" "_edited" world0)))
  = inr (Some edited_1).
Proof. vm_compute. reflexivity. Qed.

Example read_only_scenario :
  fst (apply_edits codec read_only true 10 photo [rotate_90] "" "_edited" world0)
  = inl Py.OSError
  /\ files (snd (apply_edits codec read_only true 10 photo [rotate_90]
                             "" "_edited" world0)) !! edited
     = None.
Proof. split; vm_compute; reflexivity. Qed.

(** Another spelling of the source's own name: [exists()] follows the
    dots, finds the source, and the output goes to the numbered name. *)
Example alias_of_the_source_is_taken :
  fst (apply_edits codec platform true 10 photo [] "../photos/" "" world0)
  = inr (Some (parse "/mnt/photos/../photos/photo_1.jpg"))
  /\ trace (snd (apply_edits codec platform true 10 photo [] "../photos/" ""
                             world0))
     = [OpenRead photo; Stat (parse "/mnt/photos/../photos/photo.jpg");
        Stat (parse "/mnt/photos/../photos/photo_1.jpg");
        OpenWrite (parse "/mnt/photos/../photos/photo_1.jpg")]
  /\ files (snd (apply_edits codec platform true 10 photo [] "../photos/" ""
                             world0)) !! photo
     = files world0 !! photo.
Proof. repeat split; vm_compute; reflexivity. Qed.

(** A name longer than the file system takes: [exists()] raises, and so
    does the request, before anything is written. *)
Example long_name_scenario :
  let long := string_of_list_ascii (repeat "a"%char 300) in
  fst (apply_edits codec platform true 10 photo [] "" long world0)
  = inl Py.OSError
  /\ Forall (fun ev => is_write ev = false)
            (trace (snd (apply_edits codec platform true 10 photo [] "" long
                                     world0))).
Proof.
  split; [vm_compute; reflexivity |].
  vm_compute. by repeat constructor.
Qed.

(** Binary64 rounding can cost the scaled side a whole pixel. *)
Example one_sided_resize_truncates :
  Float.scale 49 1 49 = inr 0.
Proof. vm_compute. reflexivity. Qed.

End Examples.

Module Witnesses.
Import Pathlib World PIL ImageProcessor Fixture.

(** A path with a NUL byte, and one through a link that points to
    itself: [resolve()] raises on both, outside the [try], so the call
    neither returns a path nor denies access. *)
Lemma resolution_failure_counterexample :
  fst (Main.get_safe_browse_path platform BROWSE_ROOT
         (String "000"%char "a") world0)
  = inl (Main.Unhandled (Py.ValueError "embedded null byte"))
  /\ fst (Main.get_safe_browse_path platform BROWSE_ROOT "photos/loop/x" world0)
     = inl (Main.Unhandled Py.RuntimeError)
  /\ ~ Main.accepts_or_denies platform BROWSE_ROOT.
Proof.
  split; [vm_compute; reflexivity |]. split; [vm_compute; reflexivity |].
  intros Hclaim.
  destruct (Hclaim (String "000"%char "a") world0) as [[p Hp] | Hdenied].
  - vm_compute in Hp. discriminate.
  - vm_compute in Hdenied. discriminate.
Qed.

(** After the quarter turn the photo is 3000 x 4000: the crop of the
    scenario passes, a crop that starts at x = 2000 with width 3000 does
    not, and then the request creates no file. *)
Lemma crop_is_validated_against_current_size_witness :
  (exists msg,
     apply_edits codec platform true 10 photo [rotate_90; crop_past_the_edge]
                 "" "_edited" world0
     = (inl (Py.ValueError msg), world1))
  /\ files world1 = files world0.
Proof.
  destruct (Validation.crop_is_validated_against_current_size
              codec platform true 10 photo [rotate_90] [] crop_past_the_edge
              "" "_edited" world0 world1 (image_of 4000 3000) (image_of 4000 3000)
              (transpose ROTATE_270 (image_of 4000 3000)))
    as [Hbad _].
  - vm_compute; reflexivity.
  - reflexivity.
  - reflexivity.
  - reflexivity.
  - right. exists 2000. reflexivity.
  - right. exists 0. reflexivity.
  - right. exists 3000. reflexivity.
  - right. exists 100. reflexivity.
  - destruct Hbad as (msg & _ & Hrun & Hfiles & _).
    + right; right; right; right; left. vm_compute. reflexivity.
    + split; [by exists msg | exact Hfiles].
Defined.

(** A resize to 100 x 100 of the 4000 x 3000 photo is 100 x 100. *)
Lemma resize_forces_both_or_scales_one_witness :
  exists im',
    apply_operation codec resize_100_100 (image_of 4000 3000) = inr im'
    /\ size im' = (100, 100).
Proof.
  destruct (Transforms.resize_forces_both_or_scales_one codec resize_100_100
              (image_of 4000 3000)) as [Hboth _].
  - reflexivity.
  - right. exists 100. reflexivity.
  - right. exists 100. reflexivity.
  - destruct Hboth as [Hrun Hsize]; [vm_compute; discriminate.. |].
    exists (MkImage "RGB" 100 100
              (fun x y => getpixel (image_of 4000 3000)
                            (x * 4000 / 100) (y * 3000 / 100))).
    split; [reflexivity |]. apply Hsize. reflexivity.
Defined.

(** The specification's wording fails on that resize: a 4000 x 3000
    photo resized to 100 x 100 has lost its proportions. *)
Lemma resize_both_given_counterexample :
  ~ resize_fits_box_keeping_aspect codec.
Proof.
  intros Hclaim.
  destruct (Hclaim resize_100_100 (image_of 4000 3000)
              (MkImage "RGB" 100 100
                 (fun x y => getpixel (image_of 4000 3000)
                               (x * 4000 / 100) (y * 3000 / 100))))
    as [_ Haspect].
  - reflexivity.
  - reflexivity.
  - reflexivity.
  - reflexivity.
  - unfold preserves_aspect in Haspect. simpl in Haspect. lia.
Qed.


End Witnesses.

(** * Further properties *)

(** ** File kinds *)

Module GalleryFacts.
Import Pathlib Gallery.

Lemma lower_ascii_dot (c : ascii) :
  Ascii.eqb (Str.lower_ascii c) "."%char = Ascii.eqb c "."%char.
Proof. destruct c as [[] [] [] [] [] [] [] []]; reflexivity. Qed.

Lemma rfind_dot_lower (s : string) : Str.rfind_dot (Str.lower s) = Str.rfind_dot s.
Proof.
  induction s as [|c s IH]; [done |].
  cbn -[Ascii.eqb Str.lower_ascii]. rewrite IH.
  destruct (Str.rfind_dot s); [done |]. by rewrite lower_ascii_dot.
Qed.

Lemma length_lower (s : string) : String.length (Str.lower s) = String.length s.
Proof. induction s as [|c s IH]; simpl; [done | by rewrite IH]. Qed.

(** Before an extension that opens with its only dot, the last dot of
    the whole name is that one. *)
Lemma rfind_dot_app (x e : string) :
  Str.rfind_dot e = Some 0%nat ->
  Str.rfind_dot (x +:+ e) = Some (String.length x).
Proof.
  intros He. induction x as [|c x IH]; [done |].
  rewrite StrFacts.app_cons. cbn -[Ascii.eqb]. by rewrite IH.
Qed.

Lemma drop_app (x e : string) : Str.drop (String.length x) (x +:+ e) = e.
Proof.
  induction x as [|c x IH]; [by destruct e |].
  rewrite StrFacts.app_cons. simpl. apply IH.
Qed.

Lemma take_app (x e : string) : Str.take (String.length x) (x +:+ e) = x.
Proof.
  induction x as [|c x IH]; [by destruct e |].
  rewrite StrFacts.app_cons. simpl. by rewrite IH.
Qed.

Lemma take_drop (i : nat) (s : string) : Str.take i s +:+ Str.drop i s = s.
Proof.
  revert s. induction i as [|i IH]; intros [|c s]; try done.
  simpl. rewrite StrFacts.app_cons. by rewrite IH.
Qed.

Lemma rfind_dot_drop (i : nat) (s : string) :
  Str.rfind_dot s = Some i -> Str.rfind_dot (Str.drop i s) = Some 0%nat.
Proof.
  revert i. induction s as [|c s IH]; intros i; [done |].
  cbn -[Ascii.eqb]. destruct (Str.rfind_dot s) as [j|] eqn:Hs.
  - intros [= <-]. simpl. by apply IH.
  - destruct (Ascii.eqb c ".") eqn:Hc; [| done].
    intros [= <-]. cbn -[Ascii.eqb]. by rewrite Hs, Hc.
Qed.

Lemma length_drop (i : nat) (s : string) :
  String.length (Str.drop i s) = (String.length s - i)%nat.
Proof.
  revert s. induction i as [|i IH]; intros [|c s]; simpl; try done; lia.
Qed.

Lemma length_take (i : nat) (s : string) :
  (i <= String.length s)%nat -> String.length (Str.take i s) = i.
Proof.
  revert s. induction i as [|i IH]; intros [|c s]; simpl; try done; try lia.
  intros Hi. rewrite IH; lia.
Qed.

(** The suffix and the stem of a name [x ++ e], [x] not empty and [e] an
    extension of two characters or more that opens with its only dot. *)
Lemma suffix_of_name (p : PurePath) (x e : string) :
  name p = x +:+ e -> x <> "" ->
  Str.rfind_dot e = Some 0%nat -> (2 <= String.length e)%nat ->
  suffix p = e /\ stem p = x.
Proof.
  intros Hname Hx He Hlen. unfold suffix, stem. rewrite Hname.
  rewrite (rfind_dot_app x e He), StrFacts.length_app.
  assert (0 < String.length x)%nat as Hpos by (destruct x; [done | simpl; lia]).
  replace (Nat.ltb 0 (String.length x)) with true
    by (symmetry; apply Nat.ltb_lt; lia).
  replace (Nat.ltb (String.length x) (String.length x + String.length e - 1))
    with true by (symmetry; apply Nat.ltb_lt; lia).
  simpl. by rewrite drop_app, take_app.
Qed.

Lemma extensions_shape :
  Forall (fun e => Str.rfind_dot e = Some 0%nat /\ (2 <= String.length e)%nat)
         IMAGE_EXTENSIONS.
Proof. repeat constructor. Qed.

Lemma extension_shape (e : string) :
  Str.lower e ∈ IMAGE_EXTENSIONS ->
  Str.rfind_dot e = Some 0%nat /\ (2 <= String.length e)%nat.
Proof.
  intros Hin. pose proof extensions_shape as Hall.
  rewrite Forall_forall in Hall. destruct (Hall _ Hin) as [Hdot Hlen].
  by rewrite rfind_dot_lower in Hdot; rewrite length_lower in Hlen.
Qed.

(** X1. A path is an image file exactly when its name is a non-empty
    text followed by one of the twenty extensions, in any letter case:
    a name without a dot, a name that is only an extension (".jpg") and a
    name with another extension are no image files. *)
Theorem is_image_file_iff_named_with_extension (path : PurePath) :
  is_image_file path = true
  <-> exists x e, name path = x +:+ e /\ x <> ""
                  /\ Str.lower e ∈ IMAGE_EXTENSIONS.
Proof.
  unfold is_image_file. rewrite bool_decide_eq_true. split.
  - intros Hin. unfold suffix in Hin.
    destruct (Str.rfind_dot (name path)) as [i|] eqn:Hdot;
      [| by apply list_elem_of_In in Hin; simpl in Hin; intuition discriminate].
    destruct (Nat.ltb 0 i && Nat.ltb i (String.length (name path) - 1)) eqn:Hi;
      [| by apply list_elem_of_In in Hin; simpl in Hin; intuition discriminate].
    apply andb_true_iff in Hi as [Hpos Hlast]. apply Nat.ltb_lt in Hpos, Hlast.
    exists (Str.take i (name path)), (Str.drop i (name path)).
    split; [by rewrite take_drop |]. split; [| done].
    intros Hempty. apply (f_equal String.length) in Hempty.
    rewrite length_take in Hempty by lia. simpl in Hempty. lia.
  - intros (x & e & Hname & Hx & He).
    destruct (extension_shape e He) as [Hdot Hlen].
    by destruct (suffix_of_name path x e Hname Hx Hdot Hlen) as [-> _].
Qed.

Lemma raw_extensions_are_image_extensions (e : string) :
  e ∈ RAW_EXTENSIONS -> e ∈ IMAGE_EXTENSIONS /\ e <> ".svg".
Proof.
  intros Hin. apply list_elem_of_In in Hin. simpl in Hin.
  split; [| intros ->; intuition discriminate].
  apply list_elem_of_In. simpl. intuition auto.
Qed.

(** X2. The three kinds nest as the handlers rely on: every RAW file
    and every SVG file is an image file, and no file is both RAW and
    SVG. *)
Theorem raw_and_svg_files_are_image_files (path : PurePath) :
  (is_raw_file path = true -> is_image_file path = true)
  /\ (is_svg_file path = true -> is_image_file path = true)
  /\ (is_raw_file path = true -> is_svg_file path = false).
Proof.
  unfold is_raw_file, is_image_file, is_svg_file.
  split; [| split].
  - rewrite !bool_decide_eq_true. intros Hin.
    by destruct (raw_extensions_are_image_extensions _ Hin).
  - rewrite String.eqb_eq, bool_decide_eq_true. intros ->.
    apply list_elem_of_In. simpl. intuition auto.
  - rewrite bool_decide_eq_true. intros Hin.
    destruct (raw_extensions_are_image_extensions _ Hin) as [_ Hne].
    by apply String.eqb_neq.
Qed.

End GalleryFacts.

(** ** Breadcrumbs *)

Module BreadcrumbFacts.
Import Gallery.

Lemma path_parts_truthy (path : string) :
  Forall (fun p => Str.truthy p = true) (path_parts path).
Proof. unfold path_parts. apply Forall_forall. intros p Hp. by apply list_elem_of_filter in Hp as [? _]. Qed.

(** The loop, in closed form: the crumb added for the [i]-th part holds
    the parts up to it, joined by slashes. *)
Lemma extend_breadcrumbs_closed (parts : list string) :
  forall (before : list string) (breadcrumbs : list crumb),
    Forall (fun p => Str.truthy p = true) (before ++ parts)%list ->
    extend_breadcrumbs parts (Str.join_slash before) breadcrumbs
    = (breadcrumbs
       ++ imap (fun i part =>
                  MkCrumb part (Str.join_slash (before ++ take (S i) parts)))
               parts)%list.
Proof.
  induction parts as [|part rest IH]; intros before breadcrumbs Hall.
  - simpl. by rewrite app_nil_r.
  - assert ((if Str.truthy (Str.join_slash before)
             then Str.join_slash before +:+ "/" +:+ part else part)
            = Str.join_slash (before ++ [part])%list) as Hnext.
    { rewrite StrFacts.join_slash_snoc. destruct before as [|b before]; [done |].
      rewrite StrFacts.truthy_join_slash; [done | done |].
      apply Forall_app in Hall as [Hbefore _]. exact Hbefore. }
    simpl. rewrite Hnext.
    rewrite IH by (by rewrite <- app_assoc).
    rewrite <- app_assoc. f_equal. simpl. f_equal.
    apply imap_ext. intros i p _. simpl. by rewrite <- app_assoc.
Qed.

Lemma path_parts_plain (path : string) :
  Forall (fun x => Str.contains Str.slash x = false) (path_parts path).
Proof.
  unfold path_parts. apply Forall_forall. intros p Hp.
  apply list_elem_of_filter in Hp as [_ Hp].
  pose proof (StrFacts.split_slash_segments_plain path) as Hall.
  rewrite Forall_forall in Hall. by apply Hall.
Qed.

Lemma path_parts_join_slash (l : list string) :
  Forall (fun p => Str.truthy p = true) l ->
  Forall (fun x => Str.contains Str.slash x = false) l ->
  path_parts (Str.join_slash l) = l.
Proof.
  intros Htruthy Hplain. unfold path_parts.
  destruct l as [|x l]; [done |].
  rewrite StrFacts.split_slash_join_slash by done.
  clear Hplain. induction Htruthy as [|y l' Hy _ IH]; [done |].
  by rewrite filter_cons_True, IH.
Qed.

Lemma breadcrumbs_of_closed (path : string) :
  breadcrumbs_of path
  = MkCrumb "Home" ""
    :: imap (fun i part =>
               MkCrumb part (Str.join_slash (take (S i) (path_parts path))))
            (path_parts path).
Proof.
  unfold breadcrumbs_of. change "" with (Str.join_slash []) at 1.
  by rewrite extend_breadcrumbs_closed by apply path_parts_truthy.
Qed.

(** X3. The breadcrumb trail of a path: "Home" with the empty path, then
    one crumb for each non-empty segment of the path, in order, named
    after the segment and holding the segments up to it joined by single
    slashes; [get_path_info] reports the last segment as current, "Home"
    when there is none. *)
Theorem breadcrumbs_are_the_joined_prefixes (path : string) :
  let parts := path_parts path in
  browse_breadcrumbs (get_browse_info path)
  = MkCrumb "Home" ""
    :: imap (fun i part => MkCrumb part (Str.join_slash (take (S i) parts))) parts
  /\ path_breadcrumbs (get_path_info path)
     = browse_breadcrumbs (get_browse_info path)
  /\ length (browse_breadcrumbs (get_browse_info path)) = S (length parts)
  /\ (forall i part, parts !! i = Some part ->
        browse_breadcrumbs (get_browse_info path) !! S i
        = Some (MkCrumb part (Str.join_slash (take (S i) parts))))
  /\ current (get_path_info path) = List.last parts "Home".
Proof.
  intros parts. simpl. rewrite breadcrumbs_of_closed. fold parts.
  split; [done |]. split; [done |]. split; [simpl; by rewrite length_imap |].
  split; [| done].
  intros i part Hi. simpl. rewrite list_lookup_imap, Hi. done.
Qed.

(** X4. Following a crumb leads to its own trail: the breadcrumbs of the
    path a crumb holds are the trail up to and including that crumb. *)
Theorem breadcrumbs_of_a_crumb_are_the_trail_up_to_it
  (path : string) (k : nat) (c : crumb) :
  browse_breadcrumbs (get_browse_info path) !! k = Some c ->
  browse_breadcrumbs (get_browse_info (crumb_path c))
  = take (S k) (browse_breadcrumbs (get_browse_info path)).
Proof.
  simpl. rewrite (breadcrumbs_of_closed path).
  set (parts := path_parts path).
  assert (forall n, path_parts (Str.join_slash (take n parts)) = take n parts)
    as Hround.
  { intros n. apply path_parts_join_slash.
    - apply Forall_take, path_parts_truthy.
    - apply Forall_take, path_parts_plain. }
  intros Hk.
  assert (crumb_path c = Str.join_slash (take k parts)
          /\ (k <= length parts)%nat) as [Hpath Hlen].
  { destruct k as [|i]; simpl in Hk.
    - injection Hk as <-. split; [done | lia].
    - rewrite list_lookup_imap in Hk.
      destruct (parts !! i) as [part|] eqn:Hi; [| done].
      injection Hk as <-. split; [done |].
      apply lookup_lt_Some in Hi. lia. }
  rewrite Hpath, breadcrumbs_of_closed, Hround.
  simpl. f_equal.
  apply list_eq. intros i.
  rewrite list_lookup_imap, lookup_take.
  destruct (decide (i < k)%nat) as [Hi | Hi].
  - rewrite lookup_take_lt by done. rewrite list_lookup_imap.
    destruct (parts !! i) as [part|]; [| done]. simpl.
    by rewrite take_take, Nat.min_l by lia.
  - rewrite lookup_take_ge by lia. done.
Qed.

End BreadcrumbFacts.

(** ** RAW files, outputs and the display path *)

Module DisplayFacts.
Import Pathlib World PIL ImageProcessor Gallery Display.

Lemma jpg_kinds (p : PurePath) :
  suffix p = ".jpg" ->
  is_image_file p = true /\ is_raw_file p = false /\ is_svg_file p = false.
Proof.
  unfold is_image_file, is_raw_file, is_svg_file. intros ->.
  split; [| split]; reflexivity.
Qed.

Lemma app_empty (x y : string) : x +:+ y = "" -> x = "" /\ y = "".
Proof.
  destruct x as [|c x]; [intros H; split; [done | exact H] |].
  rewrite StrFacts.app_cons. discriminate.
Qed.

Section WithEnvironment.
Variable cd : codec.
Variable dc : display_codec.
Variable pf : platform.

(** X5. The edit pipeline sends to rawpy exactly the files the handlers
    call RAW.  Without rawpy, editing a RAW file raises [ValueError]
    before the file is opened, and so does [process_raw] on any file;
    editing a file that is not RAW never depends on rawpy being there. *)
Theorem raw_files_need_rawpy (fuel : nat) (file_path : PurePath)
  (operations : list operation) (output_prefix output_suffix : string)
  (thumb : bool) (width height : option Z) (w : world) :
  (is_raw_file file_path = true ->
   apply_edits cd pf false fuel file_path operations output_prefix output_suffix w
   = (inl (Py.ValueError "RAW file support not available"), w))
  /\ process_raw cd dc pf false file_path thumb width height w
     = (inl (Py.ValueError "RAW file support not available (rawpy not installed)"),
        w)
  /\ (is_raw_file file_path = false ->
      apply_edits cd pf false fuel file_path operations output_prefix
                  output_suffix w
      = apply_edits cd pf true fuel file_path operations output_prefix
                    output_suffix w).
Proof.
  split; [| split].
  - intros Hraw.
    rewrite (PipelineFacts.apply_edits_unfold cd pf). unfold load.
    unfold is_raw_file in Hraw.
    change RAW_EXTENSIONS with RAW_SUFFIXES in Hraw. by rewrite Hraw.
  - done.
  - intros Hraw.
    rewrite !(PipelineFacts.apply_edits_unfold cd pf). unfold load.
    unfold is_raw_file in Hraw.
    change RAW_EXTENSIONS with RAW_SUFFIXES in Hraw. by rewrite Hraw.
Qed.

(** X6. The file the edit pipeline writes is a JPEG by name: its suffix
    is ".jpg", so the handlers list it as an image and serve it without
    RAW decoding.  This holds for every numbered output, and for the
    first-choice output when its name holds no path separator and the
    source has a non-empty stem. *)
Theorem edited_output_is_an_image_file (HAS_RAWPY : bool) (fuel : nat)
  (file_path : PurePath) (operations : list operation)
  (output_prefix output_suffix : string) (w w' : world) (out : PurePath) :
  apply_edits cd pf HAS_RAWPY fuel file_path operations
              output_prefix output_suffix w = (inr (Some out), w') ->
  out <> first_path file_path output_prefix output_suffix
  \/ (Str.contains Str.slash (first_name file_path output_prefix output_suffix)
      = false /\ stem file_path <> "") ->
  suffix out = ".jpg"
  /\ is_image_file out = true /\ is_raw_file out = false
  /\ is_svg_file out = false.
Proof.
  intros Hrun Hshape.
  destruct (Naming.apply_edits_returns cd pf HAS_RAWPY _ _ _ _ _ _ _ _ Hrun)
    as (n & place & data & Hout & _).
  assert (exists x, name out = x +:+ ".jpg" /\ x <> "") as (x & Hname & Hx).
  { destruct n as [|m].
    - rewrite Naming.tried_first in Hout.
      destruct Hshape as [Hne | [Hplain Hstem]]; [done |].
      exists (output_prefix +:+ stem file_path +:+ output_suffix). split.
      + subst out. unfold first_path.
        destruct (PathlibFacts.parent_joinpath_plain (parent file_path) _ Hplain
                    (Naming.keep_first_name _ _ _)) as [_ ->].
        unfold first_name. by rewrite !StrFacts.app_assoc.
      + intros Hempty. apply app_empty in Hempty as [_ Hempty].
        apply app_empty in Hempty as [Hempty _]. done.
    - rewrite Naming.tried_numbered in Hout. unfold numbered_path in Hout.
      rewrite NamingFacts.numbered_name_split in Hout.
      destruct (PathlibFacts.name_joinpath_app (parent file_path)
                  (output_prefix +:+ stem file_path +:+ output_suffix))
        as [b Hb].
      destruct (NamingFacts.numbered_tail_plain (1 + Z.of_nat m)) as [Hplain Hlen].
      exists (b +:+ "_" +:+ pretty (1 + Z.of_nat m)). split.
      + subst out. rewrite (Hb _ Hplain Hlen). by rewrite !StrFacts.app_assoc.
      + intros Hempty. apply app_empty in Hempty as [_ Hempty]. done. }
  assert (suffix out = ".jpg") as Hsuffix.
  { by destruct (GalleryFacts.suffix_of_name out x ".jpg" Hname Hx eq_refl)
      as [-> _]; [simpl; lia |]. }
  split; [done |]. by apply jpg_kinds.
Qed.

(** X7. For a resize by one side, the display path and the edit pipeline
    agree: [_resize_image] with only a width (or only a height) returns
    what the edit pipeline's resize operation returns for the same side,
    the other side scaled by the same truncated ratio. *)
Theorem one_sided_resize_agrees_with_the_edit_pipeline
  (op : operation) (im : image) (n : Z) :
  op !! "type" = Some (Py.VStr "resize") -> n <> 0 ->
  (op !! "width" = Some (Py.VInt n) -> op !! "height" = None ->
   _resize_image cd dc im (Some n) None = apply_operation cd op im)
  /\ (op !! "width" = None -> op !! "height" = Some (Py.VInt n) ->
      _resize_image cd dc im None (Some n) = apply_operation cd op im).
Proof.
  intros Htype Hn. apply Z.eqb_neq in Hn.
  split; intros Hw Hh; Operations.pick_branch Htype;
    unfold Py.get, _resize_image, truthy; rewrite Hw, Hh; simpl;
    by rewrite Hn.
Qed.

(** Closing the cases in which a call has raised. *)
Ltac settle :=
  repeat split; try done; try (by left); try (by right).

(** What the two display entry points do to the world. *)
Lemma process_raw_frame (HAS_RAWPY : bool) (file_path : PurePath) (thumb : bool)
  (width height : option Z) (w : world) :
  let call := process_raw cd dc pf HAS_RAWPY file_path thumb width height w in
  files (snd call) = files w
  /\ (trace (snd call) = trace w
      \/ trace (snd call) = (trace w ++ [OpenRead file_path])%list)
  /\ forall data content_type, fst call = inr (data, content_type) ->
       content_type = "image/jpeg"
       /\ exists source, locate pf file_path = File source
                         /\ is_Some (files w !! source).
Proof.
  destruct (PipelineFacts.read_file_frame pf file_path w) as [Hw Hdata].
  unfold process_raw. destruct (negb HAS_RAWPY); [by settle |].
  unfold lift, bind, ret.
  destruct (read_file pf file_path w) as [[e | data0] w1];
    simpl in Hw, Hdata; subst w1; simpl; [by settle |].
  destruct (Hdata data0 eq_refl) as (k & Hk & Hthere & _).
  destruct (if thumb then _ else _) as [e | im0]; simpl;
    [by settle |].
  destruct (resized cd dc im0 thumb width height) as [e | im1]; simpl;
    [by settle |].
  destruct (encode_jpeg cd im1 OUTPUT_QUALITY) as [e | bytes]; simpl;
    [by settle |].
  split; [done |]. split; [by right |].
  intros data content_type [= <- <-]. split; [done |].
  exists k. by rewrite Hthere.
Qed.

Lemma process_image_frame (file_path : PurePath) (thumb : bool)
  (width height : option Z) (w : world) :
  let call := process_image cd dc pf file_path thumb width height w in
  files (snd call) = files w
  /\ trace (snd call) = (trace w ++ [OpenRead file_path])%list
  /\ forall data content_type, fst call = inr (data, content_type) ->
       content_type = "image/jpeg"
       /\ exists source, locate pf file_path = File source
                         /\ is_Some (files w !! source).
Proof.
  destruct (PipelineFacts.read_file_frame pf file_path w) as [Hw Hdata].
  unfold process_image.
  unfold lift, bind, ret.
  destruct (read_file pf file_path w) as [[e | data0] w1];
    simpl in Hw, Hdata; subst w1; simpl; [by settle |].
  destruct (Hdata data0 eq_refl) as (k & Hk & Hthere & _).
  destruct (open_image cd data0) as [e | im0]; simpl; [by settle |].
  destruct (exif_transpose cd im0) as [e | im1]; simpl; [by settle |].
  destruct (to_rgb cd im1) as [e | im2]; simpl; [by settle |].
  destruct (resized cd dc im2 thumb width height) as [e | im3]; simpl;
    [by settle |].
  destruct (encode_jpeg cd im3 OUTPUT_QUALITY) as [e | bytes]; simpl;
    [by settle |].
  split; [done |]. split; [done |].
  intros data content_type [= <- <-]. split; [done |].
  exists k. by rewrite Hthere.
Qed.

(** X8. Preparing an image for display never changes the file system:
    [process_image] and [process_raw] leave every file as it was and
    call the file system at most once, to read the requested file; what
    they return is always labelled "image/jpeg". *)
Theorem display_processing_only_reads (HAS_RAWPY : bool) (file_path : PurePath)
  (thumb : bool) (width height : option Z) (w : world) :
  let raw := process_raw cd dc pf HAS_RAWPY file_path thumb width height w in
  let std := process_image cd dc pf file_path thumb width height w in
  files (snd raw) = files w /\ files (snd std) = files w
  /\ (trace (snd raw) = trace w
      \/ trace (snd raw) = (trace w ++ [OpenRead file_path])%list)
  /\ trace (snd std) = (trace w ++ [OpenRead file_path])%list
  /\ (forall data content_type,
        fst raw = inr (data, content_type) \/ fst std = inr (data, content_type) ->
        content_type = "image/jpeg"
        /\ exists source, locate pf file_path = File source
                          /\ is_Some (files w !! source)).
Proof.
  intros raw std.
  destruct (process_raw_frame HAS_RAWPY file_path thumb width height w)
    as (Hr1 & Hr2 & Hr3).
  destruct (process_image_frame file_path thumb width height w)
    as (Hs1 & Hs2 & Hs3).
  split; [done |]. split; [done |]. split; [done |]. split; [done |].
  intros data content_type [Hraw | Hstd]; [by apply (Hr3 data) | by apply (Hs3 data)].
Qed.

End WithEnvironment.

End DisplayFacts.

(** ** The request handlers *)

Module HandlerFacts.
Import Pathlib World Main Gallery Handlers ImageProcessor.

(** What [is_file()] answering yes means. *)
Lemma is_file_says_true (pf : platform) (fs : gmap PurePath content)
  (p : PurePath) :
  is_file_says pf fs p = inr true ->
  exists place, locate pf p = File place /\ is_Some (fs !! place).
Proof.
  unfold is_file_says. destruct (locate pf p) as [k | | e |]; try done.
  intros [= Hk]. apply bool_decide_eq_true in Hk. by exists k.
Qed.

Section WithEnvironment.
Variable cd : PIL.codec.
Variable dc : Display.display_codec.
Variable pf : platform.
Variable HAS_RAWPY : bool.
Variable BROWSE_ROOT : PurePath.
Variable describe : Py.exn -> string.
Variable not_in_subpath : PurePath -> PurePath -> string.
Variable guess_type : string -> option string.
Variable try_unlink : PurePath -> unlink_result.
Variable write_failure : PurePath -> content -> option content.

(** X9. [delete_image] removes one file and nothing else: when it returns,
    the path it resolved lies at or below the resolved gallery base and
    denotes an image file that was there, that file is gone and every
    other file is as it was; when it raises, no file has changed. *)
Theorem delete_image_removes_one_image_file (path gallery_root : string)
  (w : world) :
  let call := delete_image pf BROWSE_ROOT describe try_unlink path gallery_root w in
  (forall reply, fst call = inr reply ->
     reply = path
     /\ exists file_path gallery_base place,
          fst (get_safe_gallery_path pf BROWSE_ROOT path gallery_root w)
          = inr (file_path, gallery_base)
          /\ locate pf file_path = File place
          /\ is_Some (files w !! place)
          /\ is_image_file file_path = true
          /\ (exists base, realpath pf gallery_base = inr base
                           /\ within base file_path)
          /\ files (snd call) = delete place (files w)
          /\ files (snd call) !! place = None
          /\ forall p, p <> place -> files (snd call) !! p = files w !! p)
  /\ (forall e, fst call = inl e -> files (snd call) = files w).
Proof.
  cbv zeta.
  remember (delete_image pf BROWSE_ROOT describe try_unlink path gallery_root w)
    as call eqn:Hcall.
  unfold delete_image in Hcall. unfold bind at 1 in Hcall.
  destruct (Sandbox.get_safe_gallery_path_outcome pf BROWSE_ROOT path
              gallery_root w) as (tr & Hw & _ & Hin).
  destruct (get_safe_gallery_path pf BROWSE_ROOT path gallery_root w)
    as [[e | [file_path gallery_base]] w1] eqn:Hresolve;
    simpl in Hw, Hin; subst w1.
  { subst call. by split. }
  destruct (Hin file_path gallery_base eq_refl) as [Hwithin _].
  unfold is_file, path_exists, unhandled, log, bind, ret, raise in Hcall;
    simpl in Hcall.
  destruct (exists_says pf (files w) file_path) as [e | [|]] eqn:Hthere;
    simpl in Hcall; [subst call; by split | | subst call; by split].
  destruct (is_file_says pf (files w) file_path) as [e | [|]] eqn:Hfile;
    simpl in Hcall; [subst call; by split | | subst call; by split].
  destruct (is_file_says_true pf _ _ Hfile) as (place & Hplace & Hsome).
  destruct (is_image_file file_path) eqn:Himage; simpl in Hcall;
    [| subst call; by split].
  destruct (try_unlink file_path); subst call; simpl;
    [| by split | by split].
  rewrite Hplace.
  split; [| done].
  intros reply [= <-]. split; [done |].
  exists file_path, gallery_base, place.
  repeat split; try done.
  - apply lookup_delete_eq.
  - intros p Hp. by apply lookup_delete_ne.
Qed.

(** X10. [get_image] never changes a file, and decodes only what it must: a
    file served as it is (a [FileResponse]) is an image file that is
    there, is not RAW and has not been opened by the handler, and unless
    it is an SVG the request asked for no thumbnail, width or height;
    bytes the handler produces itself are always labelled "image/jpeg"
    and never come from an SVG. *)
Theorem get_image_serves_or_converts (path : string) (thumbnail : bool)
  (width height : option Z) (gallery_root : string) (w : world) :
  let call := get_image cd dc pf HAS_RAWPY BROWSE_ROOT guess_type
                        path thumbnail width height gallery_root w in
  files (snd call) = files w
  /\ (exists tr, trace (snd call) = (trace w ++ tr)%list
                 /\ Forall (fun ev => is_write ev = false) tr
                 /\ forall p mt, fst call = inr (FileResponse p mt) ->
                      Forall (fun ev => forall q, ev <> OpenRead q) tr)
  /\ (forall p mt, fst call = inr (FileResponse p mt) ->
        (exists place, locate pf p = File place /\ is_Some (files w !! place))
        /\ is_image_file p = true
        /\ is_raw_file p = false
        /\ (is_svg_file p = true -> mt = "image/svg+xml")
        /\ (is_svg_file p = false ->
            thumbnail = false /\ width = None /\ height = None))
  /\ (forall data mt, fst call = inr (Response data mt) ->
        mt = "image/jpeg"
        /\ exists file_path gallery_base,
             fst (get_safe_gallery_path pf BROWSE_ROOT path gallery_root w)
             = inr (file_path, gallery_base)
             /\ is_image_file file_path = true
             /\ is_svg_file file_path = false
             /\ (is_raw_file file_path = true \/ thumbnail = true
                 \/ is_Some width \/ is_Some height)).
Proof.
  cbv zeta.
  remember (get_image cd dc pf HAS_RAWPY BROWSE_ROOT guess_type
                      path thumbnail width height gallery_root w)
    as call eqn:Hcall.
  unfold get_image in Hcall. unfold bind at 1 in Hcall.
  destruct (Sandbox.get_safe_gallery_path_outcome pf BROWSE_ROOT path
              gallery_root w) as (tr & Hw & Hresolves & _).
  assert (Forall (fun ev => is_write ev = false) tr) as Hq
    by (eapply Forall_impl; [exact Hresolves |]; by intros ev [p ->]).
  assert (Forall (fun ev => forall q, ev <> OpenRead q) tr) as Hr
    by (eapply Forall_impl; [exact Hresolves |]; by intros ev [p ->] q).
  destruct (get_safe_gallery_path pf BROWSE_ROOT path gallery_root w)
    as [[e | [file_path gallery_base]] w1] eqn:Hresolve;
    simpl in Hw; subst w1.
  { subst call; simpl. split; [done |]. split; [by exists tr |]. by split. }
  assert (Forall (fun ev => is_write ev = false) (tr ++ [Stat file_path]))
    as Hquiet1.
  { apply Forall_app. split; [done | by repeat constructor]. }
  assert (Forall (fun ev => forall q', ev <> OpenRead q')
                 (tr ++ [Stat file_path; Stat file_path])) as Hnoread.
  { apply Forall_app. split; [done | by repeat constructor]. }
  assert (Forall (fun ev => is_write ev = false)
                 (tr ++ [Stat file_path; Stat file_path])) as Hquiet.
  { apply Forall_app. split; [done | by repeat constructor]. }
  assert (Forall (fun ev => is_write ev = false)
                 (tr ++ [Stat file_path; Stat file_path; OpenRead file_path]))
    as Hquiet'.
  { apply Forall_app. split; [done | by repeat constructor]. }
  unfold is_file, path_exists, log, bind, ret, raise in Hcall;
    unfold unhandled at 1 2 in Hcall; simpl in Hcall.
  destruct (exists_says pf (files w) file_path) as [e | [|]] eqn:Hthere;
    simpl in Hcall.
  1, 3: subst call; simpl; (split; [done |]); (split; [| by split]);
        exists (tr ++ [Stat file_path])%list; rewrite <- app_assoc;
        by split; [| split].
  destruct (is_file_says pf (files w) file_path) as [e | [|]] eqn:Hfile;
    simpl in Hcall.
  1, 3: subst call; simpl; (split; [done |]); (split; [| by split]);
        exists (tr ++ [Stat file_path; Stat file_path])%list;
        rewrite <- !app_assoc; by split; [| split].
  pose proof (is_file_says_true pf _ _ Hfile) as Hplace.
  destruct (is_image_file file_path) eqn:Himage; simpl in Hcall.
  2: { subst call; simpl. split; [done |]. split; [| by split].
       exists (tr ++ [Stat file_path; Stat file_path])%list.
       rewrite <- !app_assoc. by split; [| split]. }
  destruct (is_svg_file file_path) eqn:Hsvg; simpl in Hcall.
  { subst call; simpl. split; [done |]. split.
    - exists (tr ++ [Stat file_path; Stat file_path])%list.
      rewrite <- !app_assoc. by split; [| split].
    - split; [| done]. intros p mt [= <- <-].
      split; [done |]. split; [done |]. split; [| split; [done | congruence]].
      destruct (is_raw_file file_path) eqn:Hraw; [| done].
      destruct (GalleryFacts.raw_extensions_are_image_extensions
                  (Str.lower (suffix file_path))) as [_ Hne].
      { unfold is_raw_file in Hraw. by apply bool_decide_eq_true in Hraw. }
      unfold is_svg_file in Hsvg. by apply String.eqb_eq in Hsvg. }
  destruct (is_raw_file file_path) eqn:Hraw; simpl in Hcall.
  { unfold unhandled in Hcall.
    pose proof (DisplayFacts.process_raw_frame cd dc pf HAS_RAWPY file_path
                  thumbnail width height
                  (MkWorld (files w)
                     (((trace w ++ tr) ++ [Stat file_path]) ++ [Stat file_path])))
      as (Hfiles & Htrace & Htype).
    destruct (Display.process_raw cd dc pf HAS_RAWPY file_path thumbnail
                                  width height _)
      as [[e | [data ct]] w2]; simpl in Hfiles, Htrace, Htype;
      subst call; simpl.
    - split; [done |]. split; [| by split].
      destruct Htrace as [-> | ->].
      + exists (tr ++ [Stat file_path; Stat file_path])%list.
        rewrite <- !app_assoc. by split; [| split].
      + exists (tr ++ [Stat file_path; Stat file_path; OpenRead file_path])%list.
        rewrite <- !app_assoc. by split; [| split].
    - destruct (Htype data ct eq_refl) as [-> _].
      split; [done |]. split; [| split; [done |]].
      + destruct Htrace as [-> | ->].
        * exists (tr ++ [Stat file_path; Stat file_path])%list.
          rewrite <- !app_assoc. by split; [| split].
        * exists (tr ++ [Stat file_path; Stat file_path; OpenRead file_path])%list.
          rewrite <- !app_assoc. by split; [| split].
      + intros data' mt [= <- <-]. split; [done |].
        exists file_path, gallery_base. repeat split; try done. by left. }
  destruct (negb thumbnail && negb (bool_decide (is_Some width))
            && negb (bool_decide (is_Some height))) eqn:Hplain; simpl in Hcall.
  { apply andb_true_iff in Hplain as [Hplain Hh].
    apply andb_true_iff in Hplain as [Ht Hwd].
    apply negb_true_iff in Ht, Hwd, Hh.
    apply bool_decide_eq_false in Hwd, Hh.
    subst call; simpl. split; [done |]. split.
    - exists (tr ++ [Stat file_path; Stat file_path])%list.
      rewrite <- !app_assoc. by split; [| split].
    - split; [| done]. intros p mt [= <- _].
      split; [done |]. split; [done |]. split; [done |].
      split; [congruence |].
      intros _. split; [done |].
      split; [by destruct width; [destruct Hwd; eexists |]
             | by destruct height; [destruct Hh; eexists |]]. }
  unfold unhandled in Hcall.
  pose proof (DisplayFacts.process_image_frame cd dc pf file_path
                thumbnail width height
                (MkWorld (files w)
                   (((trace w ++ tr) ++ [Stat file_path]) ++ [Stat file_path])))
    as (Hfiles & Htrace & Htype).
  destruct (Display.process_image cd dc pf file_path thumbnail width height _)
    as [[e | [data ct]] w2]; simpl in Hfiles, Htrace, Htype;
    subst call; simpl.
  - split; [done |]. split; [| by split].
    exists (tr ++ [Stat file_path; Stat file_path; OpenRead file_path])%list.
    rewrite Htrace, <- !app_assoc. by split; [| split].
  - destruct (Htype data ct eq_refl) as [-> _].
    split; [done |]. split; [| split; [done |]].
    + exists (tr ++ [Stat file_path; Stat file_path; OpenRead file_path])%list.
      rewrite Htrace, <- !app_assoc. by split; [| split].
    + intros data' mt [= <- <-]. split; [done |].
      exists file_path, gallery_base. repeat split; try done.
      right.
      destruct thumbnail; [by left | right].
      destruct width; [left; by eexists |].
      destruct height; [right; by eexists |]. done.
Qed.






(** The upload handler's naming loop: it only tests paths; what it
    returns is the first of the paths it tries in turn that [exists()]
    reports absent; it raises only what [exists()] raised; when it uses
    up its tests, every path it tried was reported present. *)
Lemma free_png_sound (file_path : PurePath)
  (output_prefix original_name output_suffix : string) :
  forall (fuel : nat) (output_path : PurePath) (counter : Z) (w : world),
  exists tr,
    snd (free_png pf fuel file_path output_prefix original_name output_suffix
                  output_path counter w)
    = MkWorld (files w) (trace w ++ tr)
    /\ Forall (fun ev => is_write ev = false) tr
    /\ match fst (free_png pf fuel file_path output_prefix original_name
                           output_suffix output_path counter w) with
       | inl f => exists e, f = Unhandled e
       | inr (Some out) =>
           exists_says pf (files w) out = inr false
           /\ (out = output_path
               \/ exists_says pf (files w) output_path = inr true
                  /\ exists k,
                       (counter <= k)%Z
                       /\ out = joinpath (parent file_path)
                                  (numbered_png output_prefix original_name
                                                output_suffix k)
                       /\ forall j, (counter <= j < k)%Z ->
                            exists_says pf (files w)
                              (joinpath (parent file_path)
                                 (numbered_png output_prefix original_name
                                               output_suffix j))
                            = inr true)
       | inr None =>
           ((0 < fuel)%nat -> exists_says pf (files w) output_path = inr true)
           /\ forall k, (counter <= k < counter + Z.of_nat fuel - 1)%Z ->
                exists_says pf (files w)
                  (joinpath (parent file_path)
                     (numbered_png output_prefix original_name
                                   output_suffix k))
                = inr true
       end.
Proof.
  induction fuel as [|fuel IH]; intros output_path counter w.
  { exists []. simpl. rewrite app_nil_r. destruct w.
    split; [done |]. split; [constructor |]. split; intros; lia. }
  simpl. unfold path_exists, unhandled, log, bind, ret; simpl.
  destruct (exists_says pf (files w) output_path) as [e | [|]] eqn:Htaken;
    simpl.
  - exists [Stat output_path]. split; [done |].
    split; [by repeat constructor | by exists e].
  - destruct (IH (joinpath (parent file_path)
                    (numbered_png output_prefix original_name output_suffix
                                  counter))
                 (counter + 1)%Z
                 (MkWorld (files w) (trace w ++ [Stat output_path])))
      as (tr & Hw & Hquiet & Hres).
    exists (Stat output_path :: tr).
    rewrite Hw. simpl. rewrite <- app_assoc. split; [done |].
    split; [by constructor |].
    destruct (fst (free_png pf fuel _ _ _ _ _ _ _)) as [e | [out |]];
      simpl in Hres; [done | |].
    + destruct Hres as [Hfree Hwhich]. split; [done |]. right.
      split; [done |].
      destruct Hwhich as [-> | (Hfirst & k & Hk & -> & Hbefore)].
      * exists counter. split; [lia |]. split; [done |]. intros; lia.
      * exists k. split; [lia |]. split; [done |].
        intros j Hj. destruct (decide (j = counter)) as [-> | Hne];
          [done | apply Hbefore; lia].
    + destruct Hres as [Hfirst Hall]. split; [done |].
      intros k Hk. destruct (decide (k = counter)) as [-> | Hne].
      * apply Hfirst. lia.
      * apply Hall. lia.
  - exists [Stat output_path]. split; [done |].
    split; [by repeat constructor |]. split; [done | by left].
Qed.

(** The guard of the upload handler only resolves paths, and passes only
    an output path that resolves to a path at or below the resolved
    gallery base. *)
Lemma output_within_gallery_outcome (output_path gallery_base : PurePath)
  (w : world) :
  let call := output_within_gallery pf output_path gallery_base w in
  exists tr,
    snd call = MkWorld (files w) (trace w ++ tr)
    /\ Forall (fun ev => is_write ev = false) tr
    /\ (fst call = inr tt ->
        exists resolved base,
          realpath pf output_path = inr resolved
          /\ realpath pf gallery_base = inr base
          /\ within base resolved)
    /\ (forall e, fst call = inl (Http e) -> status_code e = 403%Z).
Proof.
  cbv zeta. unfold output_within_gallery, resolve, log, lift, bind; simpl.
  destruct (realpath pf output_path) as [e | resolved]; simpl.
  { exists [Resolve output_path].
    destruct e; simpl;
      (split; [done |]); (split; [by repeat constructor |]);
      (split; [done |]); by intros ? [= <-]. }
  destruct (realpath pf gallery_base) as [e | base]; simpl.
  { exists [Resolve output_path; Resolve gallery_base].
    rewrite <- app_assoc.
    destruct e; simpl;
      (split; [done |]); (split; [by repeat constructor |]);
      (split; [done |]); by intros ? [= <-]. }
  exists [Resolve output_path; Resolve gallery_base]. rewrite <- app_assoc.
  destruct (relative_to resolved base) as [rel |] eqn:Hrel; simpl;
    (split; [done |]); (split; [by repeat constructor |]).
  - split; [| done]. intros _. exists resolved, base.
    repeat split; try done.
    apply PathlibFacts.relative_to_within. rewrite Hrel. by eexists.
  - split; [done |]. by intros ? [= <-].
Qed.

(** X12. [edit_upload] stores the uploaded bytes where no file was and
    touches no other file: a file that was there keeps its bytes
    whatever the reply; on success the files are the old ones and the
    upload at the place the new path denotes, the path lying at or below
    the gallery base as it is spelled and its first choice resolving to
    a path at or below the resolved gallery base; the only event that
    writes is the opening of a path reported absent; and any reply other
    than a 500 leaves the files as they were. *)
Theorem edit_upload_stores_the_upload_where_no_file_was (fuel : nat)
  (upload : content) (path output_prefix output_suffix gallery_root : string)
  (w : world) :
  let call := edit_upload pf BROWSE_ROOT describe not_in_subpath write_failure
                          fuel upload path output_prefix output_suffix
                          gallery_root w in
  (forall p, is_Some (files w !! p) -> files (snd call) !! p = files w !! p)
  /\ (forall rel, fst call = inr (Some rel) ->
        exists file_path gallery_base out rel_path place,
          fst (get_safe_gallery_path pf BROWSE_ROOT path gallery_root w)
          = inr (file_path, gallery_base)
          /\ exists_says pf (files w) file_path = inr true
          /\ locate pf out = File place
          /\ files w !! place = None
          /\ files (snd call) = <[place := upload]> (files w)
          /\ within gallery_base out
          /\ relative_to out gallery_base = Some rel_path
          /\ rel = as_posix rel_path
          /\ exists resolved base,
               realpath pf (joinpath (parent file_path)
                              (output_prefix +:+ stem file_path
                               +:+ output_suffix +:+ ".png"))
               = inr resolved
               /\ realpath pf gallery_base = inr base
               /\ within base resolved)
  /\ (exists tr,
        trace (snd call) = (trace w ++ tr)%list
        /\ Forall (fun ev => is_write ev = true ->
                             exists out, ev = OpenWrite out
                                         /\ exists_says pf (files w) out
                                            = inr false) tr)
  /\ (forall e, fst call = inl (Http e) -> status_code e <> 500%Z ->
        files (snd call) = files w)
  /\ (forall e, fst call = inl (Unhandled e) -> files (snd call) = files w)
  /\ (fst call = inr None -> files (snd call) = files w).
Proof.
  cbv zeta.
  remember (edit_upload pf BROWSE_ROOT describe not_in_subpath write_failure
                        fuel upload path output_prefix output_suffix
                        gallery_root w) as call eqn:Hcall.
  unfold edit_upload in Hcall. unfold bind at 1 in Hcall.
  destruct (Sandbox.get_safe_gallery_path_outcome pf BROWSE_ROOT path
              gallery_root w) as (tr & Hw & Hresolves & _).
  assert (forall l, Forall (fun ev => is_write ev = false) l ->
            Forall (fun ev => is_write ev = true ->
                              exists out, ev = OpenWrite out
                                          /\ exists_says pf (files w) out
                                             = inr false) l) as Hweaken.
  { intros l Hl. eapply Forall_impl; [exact Hl |]. intros ev Hev Hwr.
    congruence. }
  assert (Forall (fun ev => is_write ev = false) tr) as Hquiet
    by (eapply Forall_impl; [exact Hresolves |]; by intros ev [p ->]).
  destruct (get_safe_gallery_path pf BROWSE_ROOT path gallery_root w)
    as [[e | [file_path gallery_base]] w1] eqn:Hresolve;
    simpl in Hw; subst w1.
  { subst call; simpl. split; [done |]. split; [done |].
    split; [| done]. exists tr. split; [done |]. by apply Hweaken. }
  unfold bind at 1 in Hcall.
  unfold path_exists, unhandled, log, bind at 1 in Hcall; simpl in Hcall.
  destruct (exists_says pf (files w) file_path) as [e | [|]] eqn:Hthere;
    simpl in Hcall.
  1, 3: subst call; simpl; (split; [done |]); (split; [done |]);
        (split; [| done]); exists (tr ++ [Stat file_path])%list;
        rewrite <- app_assoc; (split; [done |]);
        apply Hweaken, Forall_app; split; [done | by repeat constructor].
  set (first := joinpath (parent file_path)
                  (output_prefix +:+ stem file_path +:+ output_suffix +:+ ".png"))
    in *.
  unfold bind at 1 in Hcall.
  set (w1 := MkWorld (files w) _) in Hcall.
  destruct (output_within_gallery_outcome first gallery_base w1)
    as (trg & Hwg & Hquietg & Hpass & Hdeny).
  destruct (output_within_gallery pf first gallery_base w1)
    as [[f | []] wg] eqn:Hguard; simpl in Hwg, Hpass, Hdeny; subst wg.
  { subst call; simpl. split; [done |]. split; [done |].
    split; [| split; [done | done]].
    exists (tr ++ [Stat file_path] ++ trg)%list.
    rewrite <- !app_assoc. split; [done |].
    apply Hweaken. apply Forall_app. split; [done |].
    apply Forall_app. split; [by repeat constructor | done]. }
  specialize (Hpass eq_refl).
  unfold bind in Hcall.
  set (w2 := MkWorld (files w) _) in Hcall.
  destruct (free_png_sound file_path output_prefix (stem file_path)
              output_suffix fuel first 1 w2) as (tr2 & Hw2 & Hquiet2 & Hres).
  destruct (free_png pf fuel file_path output_prefix (stem file_path)
              output_suffix first 1 w2) as [[e | [out |]] w3] eqn:Hloop;
    simpl in Hw2, Hres; subst w3.
  1, 3: subst call; simpl; (split; [done |]); (split; [done |]);
        (split; [| done]);
        exists (tr ++ [Stat file_path] ++ trg ++ tr2)%list;
        rewrite <- !app_assoc; (split; [done |]);
        apply Hweaken; apply Forall_app; (split; [done |]);
        apply Forall_app; (split; [by repeat constructor |]);
        by apply Forall_app.
  destruct Hres as [Hfree _]. simpl in Hfree.
  assert (Forall (fun ev => is_write ev = true ->
                            exists out', ev = OpenWrite out'
                                         /\ exists_says pf (files w) out'
                                            = inr false)
            (tr ++ [Stat file_path] ++ trg ++ tr2 ++ [OpenWrite out])) as Htrace.
  { apply Forall_app. split; [by apply Hweaken |].
    apply Forall_app. split; [by repeat constructor |].
    apply Forall_app. split; [by apply Hweaken |].
    apply Forall_app. split; [by apply Hweaken |].
    apply Forall_singleton. intros _. by exists out. }
  unfold write_file in Hcall; simpl in Hcall.
  destruct (locate pf out) as [place | | e |] eqn:Hplace; simpl in Hcall.
  2, 3, 4: subst call; simpl; (split; [done |]); (split; [done |]);
           (split; [| by split]);
           eexists; (split; [| exact Htrace]); by rewrite <- !app_assoc.
  pose proof (PipelineFacts.absent_place pf _ _ _ Hfree Hplace) as Hnone.
  assert (forall c p, is_Some (files w !! p) ->
                      <[place := c]> (files w) !! p = files w !! p) as Hkept.
  { intros c p Hp. apply lookup_insert_ne. intros ->. rewrite Hnone in Hp.
    by destruct Hp. }
  destruct (may_create pf place); simpl in Hcall.
  2: { subst call; simpl. split; [done |]. split; [done |].
       split; [| by split].
       eexists. split; [| exact Htrace]. by rewrite <- !app_assoc. }
  destruct (write_failure place upload) as [partial |]; simpl in Hcall.
  { subst call; simpl. split; [by apply Hkept |]. split; [done |].
    split; [| split; [by intros ? [= <-] | done]].
    eexists. split; [| exact Htrace]. by rewrite <- !app_assoc. }
  destruct (relative_to out gallery_base) as [rel_path |] eqn:Hrel;
    subst call; simpl.
  - split; [by apply Hkept |]. split.
    + intros rel [= <-]. exists file_path, gallery_base, out, rel_path, place.
      repeat split; try done.
      apply PathlibFacts.relative_to_within. rewrite Hrel. by eexists.
    + split; [| by split].
      eexists. split; [| exact Htrace]. by rewrite <- !app_assoc.
  - split; [by apply Hkept |]. split; [done |].
    split; [| split; [by intros ? [= <-] | done]].
    eexists. split; [| exact Htrace]. by rewrite <- !app_assoc.
Qed.



End WithEnvironment.

End HandlerFacts.

(** ** Sessions and the middleware *)

Module AuthFacts.
Import Auth.

(** [validate_session], case by case. *)
Lemma validate_session_cases (now : nat -> Z) (token : option string)
  (s : state) :
  (exists t sess,
     token = Some t /\ t <> "" /\ sessions s !! t = Some sess
     /\ (now (ticks s) <= expires sess)%Z
     /\ validate_session now token s
        = (true, MkState (sessions s) (S (ticks s)) (drawn s)))
  \/ (exists t sess,
        token = Some t /\ t <> "" /\ sessions s !! t = Some sess
        /\ (expires sess < now (ticks s))%Z
        /\ validate_session now token s
           = (false, MkState (delete t (sessions s)) (S (ticks s)) (drawn s)))
  \/ ((forall t, token = Some t -> t <> "" -> sessions s !! t = None)
      /\ validate_session now token s = (false, s)).
Proof.
  destruct token as [t |]; [| right; right; by split].
  unfold validate_session.
  destruct (Str.truthy t) eqn:Ht; simpl.
  2: { right; right. split; [| done]. intros ? [= <-] Hne.
       apply StrFacts.truthy_nonempty in Hne. congruence. }
  apply StrFacts.truthy_nonempty in Ht.
  destruct (sessions s !! t) as [sess |] eqn:Hsess.
  2: { right; right. split; [| done]. by intros ? [= <-]. }
  destruct (expires sess <? now (ticks s))%Z eqn:Hexp.
  - right; left. exists t, sess. apply Z.ltb_lt in Hexp. by repeat split.
  - left. exists t, sess. apply Z.ltb_ge in Hexp. by repeat split.
Qed.

Section WithOracles.
Variable now : nat -> Z.
Variable token_urlsafe : nat -> string.
Variable AUTH_ENABLED : bool.
Variable SESSION_EXPIRY_HOURS : Z.

(** X14. A session lasts until it expires: when [create_session]
    returns a token (one that is not the empty string), the store holds
    under it the user's session, expiring [SESSION_EXPIRY_HOURS] after
    the second clock reading, and no other session has changed;
    [validate_session] then accepts the token exactly when the clock it
    reads is not past the expiry, and otherwise removes the session. *)
Theorem session_is_valid_until_it_expires (user : string) (s s1 : state)
  (token : string) :
  create_session now token_urlsafe SESSION_EXPIRY_HOURS user s
  = (inr token, s1) ->
  token <> "" ->
  let expiry := (now (S (ticks s)) + SESSION_EXPIRY_HOURS * US_PER_HOUR)%Z in
  token = token_urlsafe (drawn s)
  /\ sessions s1 !! token = Some (MkSession user (now (ticks s)) expiry)
  /\ (forall t, t <> token -> sessions s1 !! t = sessions s !! t)
  /\ (0 <= expiry <= DATETIME_MAX)%Z
  /\ (fst (validate_session now (Some token) s1) = true
      <-> (now (ticks s1) <= expiry)%Z)
  /\ ((now (ticks s1) <= expiry)%Z ->
      sessions (snd (validate_session now (Some token) s1)) = sessions s1)
  /\ ((expiry < now (ticks s1))%Z ->
      sessions (snd (validate_session now (Some token) s1))
      = delete token (sessions s1)).
Proof.
  intros Hcreate Hne expiry. unfold create_session in Hcreate.
  unfold timedelta_hours, datetime_add, Py.bind, Py.ret, Py.raise in Hcreate.
  destruct (Z.abs (SESSION_EXPIRY_HOURS / 24) <=? MAX_DELTA_DAYS)%Z;
    [| done].
  fold expiry in Hcreate.
  destruct ((0 <=? expiry) && (expiry <=? DATETIME_MAX))%Z eqn:Hrange;
    [| done].
  injection Hcreate as <- <-. simpl.
  apply andb_true_iff in Hrange as [Hlo Hhi].
  apply Z.leb_le in Hlo, Hhi.
  split; [done |]. split; [by rewrite lookup_insert_eq |].
  split; [intros t Ht; by rewrite lookup_insert_ne |].
  split; [done |].
  apply StrFacts.truthy_nonempty in Hne. unfold validate_session. rewrite Hne. simpl.
  rewrite lookup_insert_eq. simpl.
  destruct (expiry <? now (S (S (ticks s))))%Z eqn:Hexp; simpl.
  - apply Z.ltb_lt in Hexp. split; [split; [done | lia] |].
    split; [lia | done].
  - apply Z.ltb_ge in Hexp. split; [done |]. split; [done | lia].
Qed.

(** What [validate_session] accepts, and that it adds no session. *)
Lemma validate_session_accepts (token : option string) (s : state) :
  sessions (snd (validate_session now token s)) ⊆ sessions s
  /\ (fst (validate_session now token s) = true <->
      exists t sess, token = Some t /\ t <> "" /\ sessions s !! t = Some sess
                     /\ (now (ticks s) <= expires sess)%Z).
Proof.
  destruct (validate_session_cases now token s)
    as [(t & sess & -> & Hne & Hsess & Hexp & ->)
       | [(t & sess & -> & Hne & Hsess & Hexp & ->) | [Hnone ->]]]; simpl.
  - split; [done |]. split; [intros _; by exists t, sess | done].
  - split; [apply delete_subseteq |].
    split; [done |]. intros (t' & sess' & [= <-] & _ & Hsess' & Hexp').
    rewrite Hsess in Hsess'. injection Hsess' as <-. lia.
  - split; [done |].
    split; [done |]. intros (t & sess & Ht & Hne & Hsess & _).
    rewrite (Hnone t Ht Hne) in Hsess. done.
Qed.

(** X15. [validate_session] only forgets: it never adds a session nor
    touches the session of another token; it accepts exactly a token that
    is not empty and names a stored session the clock has not passed,
    leaving the store as it was; and a token it refuses (other than the
    empty one) names no session afterwards, so that it is refused again
    without the clock being read. *)
Theorem validate_session_only_forgets (token : option string) (s : state) :
  let call := validate_session now token s in
  sessions (snd call) ⊆ sessions s
  /\ (forall t, token <> Some t ->
        sessions (snd call) !! t = sessions s !! t)
  /\ (fst call = true <->
      exists t sess, token = Some t /\ t <> "" /\ sessions s !! t = Some sess
                     /\ (now (ticks s) <= expires sess)%Z)
  /\ (fst call = true -> sessions (snd call) = sessions s)
  /\ (fst call = false ->
      forall t, token = Some t -> t <> "" ->
        sessions (snd call) !! t = None
        /\ validate_session now token (snd call) = (false, snd call)).
Proof.
  cbv zeta.
  destruct (validate_session_cases now token s)
    as [(t & sess & -> & Hne & Hsess & Hexp & ->)
       | [(t & sess & -> & Hne & Hsess & Hexp & ->) | [Hnone ->]]]; simpl.
  - split; [done |]. split; [done |].
    split; [split; [intros _; by exists t, sess | done] |].
    split; [done | done].
  - split; [apply delete_subseteq |].
    split; [intros t' Ht'; apply lookup_delete_ne; congruence |].
    split.
    { split; [done |]. intros (t' & sess' & [= <-] & _ & Hsess' & Hexp').
      rewrite Hsess in Hsess'. injection Hsess' as <-. lia. }
    split; [done |].
    intros _ t' [= <-] _. split; [apply lookup_delete_eq |].
    unfold validate_session. apply StrFacts.truthy_nonempty in Hne. rewrite Hne.
    simpl. by rewrite lookup_delete_eq.
  - split; [done |]. split; [done |].
    split.
    { split; [done |]. intros (t & sess & Ht & Hne & Hsess & _).
      rewrite (Hnone t Ht Hne) in Hsess. done. }
    split; [done |].
    intros _ t Ht Hne. split; [by apply Hnone |].
    destruct (validate_session_cases now token s)
      as [(t1 & sess & Ht1 & Hne1 & Hsess & _)
         | [(t1 & sess & Ht1 & Hne1 & Hsess & _) | [_ Hagain]]];
      [| | done].
    + rewrite (Hnone t1 Ht1 Hne1) in Hsess. done.
    + rewrite (Hnone t1 Ht1 Hne1) in Hsess. done.
Qed.

Lemma prefix_app_l (a b s : string) :
  String.prefix (a +:+ b) s = true -> String.prefix a s = true.
Proof.
  revert s. induction a as [|c a IH]; intros [|d s]; try done;
    rewrite StrFacts.app_cons; cbn [String.prefix]; try done.
  destruct (ascii_dec c d); [apply IH | done].
Qed.

(** The public paths are those under "/api/auth/" and those that start
    with "/login". *)
Lemma public_paths_cases (path : string) :
  existsb (fun p => String.prefix p path) public_paths = true
  <-> String.prefix "/api/auth/" path = true
      \/ String.prefix "/login" path = true.
Proof.
  unfold public_paths. simpl. rewrite !orb_true_iff.
  split; [| tauto].
  intros [H | [H | [H | H]]]; [by left | right | by right | done].
  change "/login.html" with ("/login" +:+ ".html") in H.
  by apply prefix_app_l in H.
Qed.

(** X16. Whom the middleware lets through: a request is passed on
    exactly when its path is under "/api/auth/" or starts with "/login",
    or authentication is disabled, or its cookie is not empty and names
    a stored session the clock has not passed; in the first two cases the
    session store is not consulted; and a request that is not passed on
    is answered 401 when its path starts with "/api/" or ends in a
    static extension, by the login page otherwise. *)
Theorem middleware_passes_public_or_authenticated (path : string)
  (session_token : option string) (s : state) :
  let call := auth_middleware now AUTH_ENABLED path session_token s in
  let is_public := String.prefix "/api/auth/" path = true
                   \/ String.prefix "/login" path = true in
  let authenticated :=
    exists t sess, session_token = Some t /\ t <> ""
                   /\ sessions s !! t = Some sess
                   /\ (now (ticks s) <= expires sess)%Z in
  (fst call = CallNext <->
   is_public \/ AUTH_ENABLED = false \/ authenticated)
  /\ (is_public \/ AUTH_ENABLED = false -> snd call = s)
  /\ (fst call = NotAuthenticated <->
      ~ (is_public \/ AUTH_ENABLED = false \/ authenticated)
      /\ (String.prefix "/api/" path = true
          \/ exists ext, ext ∈ static_extensions /\ endswith path ext = true))
  /\ sessions (snd call) ⊆ sessions s.
Proof.
  cbv zeta. unfold auth_middleware.
  remember (existsb (endswith path) static_extensions) as static eqn:Hstatic.
  symmetry in Hstatic.
  pose proof (public_paths_cases path) as Hpublic.
  destruct (existsb _ public_paths) eqn:Hp; simpl.
  { assert (String.prefix "/api/auth/" path = true
            \/ String.prefix "/login" path = true) as Hyes
      by (by apply Hpublic).
    split; [split; [by left | done] |]. split; [done |].
    split; [| done]. split; [done |]. intros [Hno _]. destruct Hno. by left. }
  assert (~ (String.prefix "/api/auth/" path = true
             \/ String.prefix "/login" path = true)) as Hno.
  { intros Hyes. apply Hpublic in Hyes. done. }
  destruct AUTH_ENABLED; simpl.
  2: { split; [split; [right; by left | done] |]. split; [done |].
       split; [| done]. split; [done |]. intros [Hnot _]. destruct Hnot.
       right. by left. }
  pose proof (validate_session_accepts session_token s) as (Hsub & Hok).
  destruct (validate_session now session_token s) as [valid s'] eqn:Hvalid;
    simpl in Hsub, Hok.
  destruct valid; simpl.
  { split; [split; [right; right; by apply Hok | done] |].
    split; [intros [? | ?]; done |].
    split; [| done]. split; [done |]. intros [Hnot _]. destruct Hnot.
    right; right. by apply Hok. }
  assert (~ (exists t sess, session_token = Some t /\ t <> ""
                            /\ sessions s !! t = Some sess
                            /\ (now (ticks s) <= expires sess)%Z)) as Hanon.
  { intros Hyes. apply Hok in Hyes. done. }
  assert (forall P : Prop, P -> ~ (P /\ False)) as _ by tauto.
  destruct (String.prefix "/api/" path) eqn:Hapi; simpl.
  { split; [split; [done | intros [? | [? | ?]]; done] |].
    split; [intros [? | ?]; done |].
    split; [| done]. split; [intros _ | done].
    split; [intros [? | [? | ?]]; done | by left]. }
  destruct static; simpl.
  { apply existsb_exists in Hstatic as (ext & Hin & Hends).
    split; [split; [done | intros [? | [? | ?]]; done] |].
    split; [intros [? | ?]; done |].
    split; [| done]. split; [intros _ | done].
    split; [intros [? | [? | ?]]; done |].
    right. exists ext. split; [by apply list_elem_of_In | done]. }
  split; [split; [done | intros [? | [? | ?]]; done] |].
  split; [intros [? | ?]; done |].
  split; [| done]. split; [done |].
  intros [_ [? | (ext & Hin & Hends)]]; [done |].
  assert (existsb (endswith path) static_extensions = true) as Hyes.
  { apply existsb_exists. exists ext. split; [by apply list_elem_of_In | done]. }
  congruence.
Qed.

(** X17. Logging out ends the session: after [auth_logout] with a
    cookie, a request bearing that cookie for a path that is not public
    is not passed on while authentication is enabled, whatever the clock
    says, and logging out removes no session but the cookie's. *)
Theorem logged_out_cookie_is_refused (path : string)
  (session_token : option string) (s : state) :
  existsb (fun p => String.prefix p path) public_paths = false ->
  let s1 := auth_logout session_token s in
  fst (auth_middleware now true path session_token s1) <> CallNext
  /\ snd (auth_middleware now true path session_token s1) = s1
  /\ (forall t, session_token <> Some t -> sessions s1 !! t = sessions s !! t)
  /\ (forall t, session_token = Some t -> t <> "" -> sessions s1 !! t = None).
Proof.
  intros Hprivate s1.
  assert (forall t, session_token = Some t -> t <> "" ->
                    sessions s1 !! t = None) as Hgone.
  { intros t -> Hne. subst s1. unfold auth_logout, destroy_session.
    apply StrFacts.truthy_nonempty in Hne. rewrite Hne.
    destruct (sessions s !! t) eqn:Hsess; simpl; [apply lookup_delete_eq | done]. }
  assert (validate_session now session_token s1 = (false, s1)) as Hrefused.
  { destruct (validate_session_cases now session_token s1)
      as [(t & sess & Ht & Hne & Hsess & _)
         | [(t & sess & Ht & Hne & Hsess & _) | [_ Hagain]]]; [| | done].
    - rewrite (Hgone t Ht Hne) in Hsess. done.
    - rewrite (Hgone t Ht Hne) in Hsess. done. }
  unfold auth_middleware. rewrite Hprivate, Hrefused. cbn [negb].
  split;
    [destruct (String.prefix "/api/" path); [done | by destruct (existsb (endswith path) static_extensions)] |].
  split;
    [destruct (String.prefix "/api/" path); [done | by destruct (existsb (endswith path) static_extensions)] |].
  split; [| done].
  intros t Ht. subst s1. unfold auth_logout, destroy_session.
  destruct session_token as [t' |]; [| done].
  destruct (Str.truthy t'); [| done].
  destruct (sessions s !! t') eqn:Hsess; simpl; [| done].
  apply lookup_delete_ne. congruence.
Qed.

End WithOracles.

End AuthFacts.

(** ** The handlers and the session store, run on the test doubles *)

Module HandlerExamples.
Import Pathlib World PIL Gallery Handlers Fixture HandlerFixture.

(** An edit of the photo is answered with the path of the new file. *)
Example edit_request_scenario :
  fst (edit_image codec platform true BROWSE_ROOT describe not_in_subpath 10
                  (request "") world0)
  = inr (Some "photo_edited.jpg").
Proof. vm_compute. reflexivity. Qed.

(** An absolute prefix is refused, after the file has been written. *)
Example edit_request_elsewhere :
  fst (edit_image codec platform true BROWSE_ROOT describe not_in_subpath 10
                  (request "/srv/") world0)
  = inl (Main.Http
           (Main.MkHTTP 400
              "'/srv/photo_edited.jpg' is not in the subpath of '/mnt/photos'"))
  /\ is_Some (files (snd (edit_image codec platform true BROWSE_ROOT describe
                                     not_in_subpath 10 (request "/srv/") world0))
              !! parse "/srv/photo_edited.jpg").
Proof. split; [vm_compute; reflexivity |]. vm_compute. by eexists. Qed.

(** The upload handler refuses such a prefix before writing. *)
Example upload_elsewhere_is_refused :
  fst (edit_upload platform BROWSE_ROOT describe not_in_subpath write_failure 10
                   upload "photo.jpg" "/srv/" "_edited" "photos" world0)
  = inl (Main.Http (Main.MkHTTP 403 "Output path outside gallery"))
  /\ files (snd (edit_upload platform BROWSE_ROOT describe not_in_subpath
                             write_failure 10 upload "photo.jpg" "/srv/"
                             "_edited" "photos" world0))
     !! parse "/srv/photo_edited.png" = None.
Proof. split; vm_compute; reflexivity. Qed.

Example upload_scenario :
  fst (edit_upload platform BROWSE_ROOT describe not_in_subpath write_failure 10
                   upload "photo.jpg" "" "_edited" "photos" world0)
  = inr (Some "photo_edited.png")
  /\ files (snd (edit_upload platform BROWSE_ROOT describe not_in_subpath
                             write_failure 10 upload "photo.jpg" "" "_edited"
                             "photos" world0))
     !! parse "/mnt/photos/photo_edited.png" = Some upload.
Proof. split; vm_compute; reflexivity. Qed.

Example delete_scenario :
  fst (delete_image platform BROWSE_ROOT describe try_unlink "photo.jpg" "photos"
                    world0)
  = inr "photo.jpg"
  /\ files (snd (delete_image platform BROWSE_ROOT describe try_unlink
                              "photo.jpg" "photos" world0)) !! photo = None.
Proof. split; vm_compute; reflexivity. Qed.

(** Deleting through another spelling removes the same file. *)
Example delete_through_an_alias :
  files (snd (delete_image platform BROWSE_ROOT describe try_unlink
                           "../photos/photo.jpg" "photos" world0)) !! photo
  = None.
Proof. vm_compute. reflexivity. Qed.

Example plain_request_serves_the_file :
  fst (get_image codec display_codec platform true BROWSE_ROOT guess_type
                 "photo.jpg" false None None "photos" world0)
  = inr (FileResponse photo "image/jpeg").
Proof. vm_compute. reflexivity. Qed.

Example thumbnail_request_converts :
  fst (get_image codec display_codec platform true BROWSE_ROOT guess_type
                 "photo.jpg" true None None "photos" world0)
  = inr (Response (encode (image_of 300 300)) "image/jpeg").
Proof. vm_compute. reflexivity. Qed.

(** A request through the link that points to itself is not answered by
    the handler: [resolve()] raises. *)
Example request_through_a_link_loop :
  fst (get_image codec display_codec platform true BROWSE_ROOT guess_type
                 "loop/x.jpg" false None None "photos" world0)
  = inl (Main.Unhandled Py.RuntimeError).
Proof. vm_compute. reflexivity. Qed.

End HandlerExamples.

Module ExtraWitnesses.
Import Pathlib World PIL Gallery ImageProcessor Fixture.

(** The trail of "a/b/c" holds the crumb of "a/b" in third place, and the
    trail of "a/b" is its first three crumbs. *)
Lemma breadcrumbs_of_a_crumb_are_the_trail_up_to_it_witness :
  browse_breadcrumbs (get_browse_info "a/b/c") !! 2%nat = Some (MkCrumb "b" "a/b")
  /\ browse_breadcrumbs (get_browse_info "a/b")
     = take 3 (browse_breadcrumbs (get_browse_info "a/b/c")).
Proof.
  split; [reflexivity |].
  exact (BreadcrumbFacts.breadcrumbs_of_a_crumb_are_the_trail_up_to_it
           "a/b/c" 2 (MkCrumb "b" "a/b") eq_refl).
Defined.

(** The output of the scenario, [photo_edited.jpg], is an image file. *)
Lemma edited_output_is_an_image_file_witness :
  suffix edited = ".jpg"
  /\ is_image_file edited = true /\ is_raw_file edited = false
  /\ is_svg_file edited = false.
Proof.
  apply (DisplayFacts.edited_output_is_an_image_file codec platform true 10
           photo [rotate_90; crop_3000_2000] "" "_edited" world0
           (snd (apply_edits codec platform true 10 photo
                             [rotate_90; crop_3000_2000] "" "_edited" world0))).
  - vm_compute; reflexivity.
  - right. split; [reflexivity | discriminate].
Defined.

(** A width of 800 for the 4000 x 3000 photo gives the same image on the
    display path as in the edit pipeline. *)
Lemma one_sided_resize_agrees_with_the_edit_pipeline_witness :
  Display._resize_image codec HandlerFixture.display_codec (image_of 4000 3000)
                        (Some 800) None
  = apply_operation codec resize_width_800 (image_of 4000 3000).
Proof.
  destruct (DisplayFacts.one_sided_resize_agrees_with_the_edit_pipeline
              codec HandlerFixture.display_codec resize_width_800
              (image_of 4000 3000) 800 eq_refl) as [Hwidth _].
  - lia.
  - apply Hwidth; reflexivity.
Defined.

(** A session created at the first two readings of the clock is valid at
    the third. *)
Lemma session_is_valid_until_it_expires_witness :
  exists s1,
    Auth.create_session AuthFixture.now AuthFixture.token_urlsafe
                        AuthFixture.SESSION_EXPIRY_HOURS "echo" AuthFixture.state0
    = (inr "token-0", s1)
    /\ fst (Auth.validate_session AuthFixture.now (Some "token-0") s1) = true.
Proof.
  eexists. split; [reflexivity |].
  destruct (AuthFacts.session_is_valid_until_it_expires AuthFixture.now
              AuthFixture.token_urlsafe AuthFixture.SESSION_EXPIRY_HOURS
              "echo" AuthFixture.state0 _ "token-0" eq_refl)
    as (_ & _ & _ & _ & Hvalid & _); [discriminate |].
  apply Hvalid. vm_compute. discriminate.
Defined.

(** After logging out, the cookie of the session no longer opens the
    browse route. *)
Lemma logged_out_cookie_is_refused_witness :
  existsb (fun p => String.prefix p "/api/browse") Auth.public_paths = false
  /\ fst (Auth.auth_middleware AuthFixture.now true "/api/browse"
            (Some "token-0")
            (Auth.auth_logout (Some "token-0")
               (snd (Auth.create_session AuthFixture.now AuthFixture.token_urlsafe
                       AuthFixture.SESSION_EXPIRY_HOURS "echo"
                       AuthFixture.state0))))
     <> Auth.CallNext.
Proof.
  split; [reflexivity |].
  destruct (AuthFacts.logged_out_cookie_is_refused AuthFixture.now
              "/api/browse" (Some "token-0")
              (snd (Auth.create_session AuthFixture.now AuthFixture.token_urlsafe
                      AuthFixture.SESSION_EXPIRY_HOURS "echo"
                      AuthFixture.state0)) eq_refl)
    as [Hrefused _].
  exact Hrefused.
Defined.

(** The request of the scenario returns [photo_edited.jpg], written at a
    place where no file was. *)
Lemma output_is_written_where_no_file_was_witness :
  apply_edits codec platform true 10 photo [rotate_90; crop_3000_2000]
              "" "_edited" world0
  = (inr (Some edited),
     snd (apply_edits codec platform true 10 photo [rotate_90; crop_3000_2000]
                      "" "_edited" world0))
  /\ exists place data,
       locate platform edited = File place /\ files world0 !! place = None
       /\ files (snd (apply_edits codec platform true 10 photo
                                  [rotate_90; crop_3000_2000] "" "_edited"
                                  world0))
          = <[place := data]> (files world0).
Proof.
  assert (apply_edits codec platform true 10 photo [rotate_90; crop_3000_2000]
                      "" "_edited" world0
          = (inr (Some edited),
             snd (apply_edits codec platform true 10 photo
                              [rotate_90; crop_3000_2000] "" "_edited" world0)))
    as Hrun by (vm_compute; reflexivity).
  split; [exact Hrun |].
  destruct (Naming.output_is_written_where_no_file_was codec platform true 10
              photo [rotate_90; crop_3000_2000] "" "_edited" world0 _ edited
              Hrun)
    as (_ & Hplace & _).
  exact Hplace.
Defined.

(** A quarter turn of a 4 x 3 image is 3 x 4, and the top left pixel is
    now the top right one. *)
Lemma right_angle_rotations_turn_clockwise_witness :
  exists r,
    apply_operation codec rotate_90 (image_of 4 3) = inr r
    /\ size r = (3, 4)
    /\ getpixel r 2 0 = getpixel (image_of 4 3) 0 0.
Proof.
  destruct (Transforms.right_angle_rotations_turn_clockwise codec rotate_90 90
              (image_of 4 3) eq_refl eq_refl)
    as (_ & _ & _ & Hquarter & _); [vm_compute; discriminate |].
  destruct (Hquarter eq_refl) as (r & Hrun & Hsize & Hpixels).
  exists r. split; [exact Hrun |]. split; [exact Hsize |].
  apply (Hpixels 0 0). unfold on_canvas. simpl. lia.
Defined.


End ExtraWitnesses.
